(** * Alt-imate: the caption selector, the top-K extraction and the error
      boundary of the public entry points

    A shallow embedding of [models/smartCaptionGenerator.ts],
    [models/imageClassifier.ts], [utils/imageProcessor.ts],
    [types/index.ts], [index.ts], the development server and the import
    map of [build-browser.js].

    Conventions of the embedding.
    - A JavaScript number is a rational [Q]: a finite value.  Comparisons
      are exact, as they are on binary64 numbers.  The sum and the
      division of the selector come in two forms: without rounding in
      [SmartCaptionGenerator], and with the two operations as a parameter
      in [WithArithmetic], where [Arithmetic.binary64] rounds each result
      to the nearest binary64 number as the engine does.  NaN and the
      infinities are outside the model.
    - A JavaScript string is a [string] holding its UTF-8 bytes.
      [replace(/_/g, ' ')] and [split('\n')] act on an ASCII character and
      are unaffected by the encoding; [trim] is given on the encodings of
      the white-space characters.
    - An evaluation either returns, throws a value, or (for the polling wait
      of [loadModel], or caller code that does not come back) stays
      pending: the type [completion].
    - The outside world (model download, label download, image
      preprocessing, the text a host prints for a built-in function) is a
      record of outcomes handed to the operations: [World]. *)

From Stdlib Require Import List String Ascii Bool ZArith QArith Lia Lqa.
From Stdlib Require Import DecimalString Permutation Sorted Qminmax.
Import ListNotations.
Open Scope string_scope.

(* ================================================================== *)
(** * JavaScript values, arrays, objects and maps *)

Module Js.

(** What a [throw] can carry here.  [ErrorObj] is [new Error(msg)],
    [TypeErrorObj] the engine's [TypeError], [ImageAnalysisError] the
    class of [types/index.ts], [NonError] any thrown value that is not an
    instance of [Error]. *)
Inductive Thrown : Type :=
| ErrorObj (message : string)
| TypeErrorObj (message : string)
| ImageAnalysisError (message code : string)
| NonError.

Definition instanceofError (e : Thrown) : bool :=
  match e with NonError => false | _ => true end.

Definition instanceofImageAnalysisError (e : Thrown) : bool :=
  match e with ImageAnalysisError _ _ => true | _ => false end.

(** [error instanceof Error ? error.message : '알 수 없는 오류'] *)
Definition messageOrUnknown (e : Thrown) : string :=
  match e with
  | ErrorObj m | TypeErrorObj m | ImageAnalysisError m _ => m
  | NonError => "알 수 없는 오류"
  end.

Inductive completion (A : Type) : Type :=
| Normal (a : A)
| Throw (e : Thrown)
| Pending.
Arguments Normal {A} a.
Arguments Throw {A} e.
Arguments Pending {A}.

Definition bind {A B} (c : completion A) (k : A -> completion B)
  : completion B :=
  match c with
  | Normal a => k a
  | Throw e => Throw e
  | Pending => Pending
  end.

(** [try { c } catch (error) { h error }] *)
Definition tryCatch {A} (c : completion A) (h : Thrown -> completion A)
  : completion A :=
  match c with
  | Throw e => h e
  | other => other
  end.

(** The value of a property read [obj[key]] on an object literal whose
    values are strings: an own string, a member inherited from
    [Object.prototype] (named by its key), or [undefined]. *)
Inductive Value : Type :=
| Str (s : string)
| Builtin (key : string)
| Undefined.

Definition truthy (v : Value) : bool :=
  match v with
  | Str s => negb (s =? EmptyString)
  | Builtin _ => true
  | Undefined => false
  end.

(** [a || b] *)
Definition or (a b : Value) : Value := if truthy a then a else b.

(** The property names every object literal inherits. *)
Definition objectPrototypeKeys : list string :=
  [ "constructor"; "__defineGetter__"; "__defineSetter__";
    "hasOwnProperty"; "__lookupGetter__"; "__lookupSetter__";
    "isPrototypeOf"; "propertyIsEnumerable"; "toString"; "valueOf";
    "__proto__"; "toLocaleString" ].

Definition includes (l : list string) (s : string) : bool :=
  existsb (String.eqb s) l.

(** Own properties of an object literal, in insertion order. *)
Fixpoint own (o : list (string * string)) (key : string) : option string :=
  match o with
  | [] => None
  | (k, v) :: o' => if key =? k then Some v else own o' key
  end.

(** [o[key]]: own property first, then the prototype. *)
Definition get (o : list (string * string)) (key : string) : Value :=
  match own o key with
  | Some v => Str v
  | None => if includes objectPrototypeKeys key then Builtin key
            else Undefined
  end.

(** The host: the text it gives for a built-in member in a template
    literal or in [join] (implementation-defined in ECMAScript). *)
Record Host : Type := { builtinText : string -> string }.

(** [`${v}`] *)
Definition toStr (h : Host) (v : Value) : string :=
  match v with
  | Str s => s
  | Builtin k => builtinText h k
  | Undefined => "undefined"
  end.

(** [Array.prototype.join] on strings. *)
Fixpoint join (sep : string) (l : list string) : string :=
  match l with
  | [] => EmptyString
  | [x] => x
  | x :: l' => x ++ sep ++ join sep l'
  end.

(** [s.replace(/_/g, ' ')] *)
Fixpoint replaceUnderscores (s : string) : string :=
  match s with
  | EmptyString => EmptyString
  | String c r =>
      String (if Ascii.eqb c "_" then " "%char else c) (replaceUnderscores r)
  end.

(** [Array.prototype.slice(start, end)] on integer arguments. *)
Definition slice {A} (start stop : Z) (l : list A) : list A :=
  let len := Z.of_nat (List.length l) in
  let k := if (start <? 0)%Z then Z.max (len + start) 0
           else Z.min start len in
  let final := if (stop <? 0)%Z then Z.max (len + stop) 0
               else Z.min stop len in
  firstn (Z.to_nat (final - k)) (skipn (Z.to_nat k) l).

(** [a > b] on numbers. *)
Definition gt (a b : Q) : bool := negb (Qle_bool a b).

(** [Array.prototype.sort(cmp)]: stable; [cmp a b < 0] puts [a] first,
    [cmp a b > 0] puts [b] first, [0] keeps the original order. *)
Fixpoint insertBy {A} (cmp : A -> A -> Q) (x : A) (l : list A) : list A :=
  match l with
  | [] => [x]
  | y :: l' => if Qle_bool (cmp x y) 0 then x :: l
               else y :: insertBy cmp x l'
  end.

Definition sort {A} (cmp : A -> A -> Q) (l : list A) : list A :=
  fold_right (insertBy cmp) [] l.

(** [`${n}`] for an array index. *)
Definition indexToString (n : nat) : string :=
  NilEmpty.string_of_uint (Nat.to_uint n).

(** A [Map] with string keys: entries in insertion order. *)
Section StringMap.
Context {V : Type}.

Fixpoint mapGet (m : list (string * V)) (key : string) : option V :=
  match m with
  | [] => None
  | (k, v) :: m' => if key =? k then Some v else mapGet m' key
  end.

Definition mapHas (m : list (string * V)) (key : string) : bool :=
  match mapGet m key with Some _ => true | None => false end.

(** [m.set(key, v)]: an existing key keeps its position. *)
Fixpoint mapSet (m : list (string * V)) (key : string) (v : V)
  : list (string * V) :=
  match m with
  | [] => [(key, v)]
  | (k, w) :: m' =>
      if key =? k then (k, v) :: m' else (k, w) :: mapSet m' key v
  end.
End StringMap.

End Js.

Notation "x <- c ;; k" := (Js.bind c (fun x => k))
  (at level 61, c at next level, right associativity).

(* ================================================================== *)
(** * types/index.ts *)

Module ClassificationResult.
Record t : Type := mk {
  className : string;
  probability : Q;
  confidence : Q
}.
End ClassificationResult.

Module AltTextResult.
Record t : Type := mk {
  altText : string;
  classifications : list ClassificationResult.t;
  confidence : Q
}.
End AltTextResult.

(* ================================================================== *)
(** * models/smartCaptionGenerator.ts *)

Module SmartCaptionGenerator.
Import Js.
Module CR := ClassificationResult.

(** [OBJECT_CATEGORIES], in the order [Object.entries] lists it. *)
Definition OBJECT_CATEGORIES : list (string * list string) :=
  [ ("animals",
      [ "golden_retriever"; "Labrador_retriever"; "beagle";
        "German_shepherd"; "border_collie"; "pug"; "chihuahua"; "tabby";
        "Persian_cat"; "Siamese_cat"; "tiger"; "lion"; "elephant";
        "giraffe"; "zebra"; "panda" ]);
    ("food",
      [ "banana"; "apple"; "orange"; "strawberry"; "pizza"; "hamburger";
        "hot_dog"; "coffee_mug"; "wine_bottle"; "sandwich"; "ice_cream" ]);
    ("vehicles",
      [ "sports_car"; "convertible"; "limousine"; "motorcycle"; "bicycle";
        "school_bus"; "truck"; "airplane"; "ship" ]);
    ("electronics",
      [ "laptop"; "desktop_computer"; "cellular_telephone"; "television";
        "radio"; "computer_keyboard"; "computer_mouse" ]);
    ("furniture",
      [ "chair"; "table"; "bed"; "sofa"; "bookshelf"; "lamp"; "clock" ]);
    ("clothing",
      [ "suit"; "dress"; "jeans"; "T-shirt"; "sneakers"; "hat" ]);
    ("sports",
      [ "tennis_ball"; "basketball"; "soccer_ball"; "guitar"; "piano";
        "violin" ]) ].

Definition KOREAN_TRANSLATIONS : list (string * string) :=
  [ ("golden_retriever", "골든 리트리버");
    ("Labrador_retriever", "래브라도 리트리버");
    ("beagle", "비글");
    ("German_shepherd", "저먼 셰퍼드");
    ("border_collie", "보더 콜리");
    ("pug", "퍼그");
    ("chihuahua", "치와와");
    ("tabby", "얼룩무늬 고양이");
    ("Persian_cat", "페르시안 고양이");
    ("Siamese_cat", "샴 고양이");
    ("tiger", "호랑이");
    ("lion", "사자");
    ("elephant", "코끼리");
    ("giraffe", "기린");
    ("zebra", "얼룩말");
    ("panda", "판다");
    ("banana", "바나나");
    ("apple", "사과");
    ("orange", "오렌지");
    ("strawberry", "딸기");
    ("pizza", "피자");
    ("hamburger", "햄버거");
    ("hot_dog", "핫도그");
    ("coffee_mug", "커피잔");
    ("wine_bottle", "와인병");
    ("sandwich", "샌드위치");
    ("ice_cream", "아이스크림");
    ("laptop", "노트북");
    ("desktop_computer", "데스크톱 컴퓨터");
    ("cellular_telephone", "스마트폰");
    ("television", "텔레비전");
    ("radio", "라디오");
    ("computer_keyboard", "키보드");
    ("computer_mouse", "마우스");
    ("sports_car", "스포츠카");
    ("convertible", "컨버터블");
    ("motorcycle", "오토바이");
    ("bicycle", "자전거");
    ("school_bus", "스쿨버스");
    ("chair", "의자");
    ("table", "테이블");
    ("bed", "침대");
    ("sofa", "소파");
    ("lamp", "램프");
    ("suit", "정장");
    ("dress", "드레스");
    ("jeans", "청바지");
    ("sneakers", "운동화");
    ("hat", "모자") ].

(** The loop of [getObjectCategory] over the entries of a table. *)
Fixpoint firstCategory (table : list (string * list string))
         (className : string) : string :=
  match table with
  | [] => "unknown"
  | (category, objects) :: rest =>
      if includes objects className then category
      else firstCategory rest className
  end.

Definition getObjectCategory (className : string) : string :=
  firstCategory OBJECT_CATEGORIES className.

(** Declared to return [string]; the cast to [keyof typeof] is erased at
    run time, so the read goes through the prototype as any other. *)
Definition getKoreanName (className : string) : Value :=
  or (get KOREAN_TRANSLATIONS className)
     (Str (replaceUnderscores className)).

Definition getCategoryDescription (category : string) : Value :=
  let descriptions :=
    [ ("animals", "동물"); ("food", "음식"); ("vehicles", "차량");
      ("electronics", "전자기기"); ("furniture", "가구");
      ("clothing", "의류"); ("sports", "스포츠 용품") ] in
  or (get descriptions category) (Str "객체").

(** [results.reduce((sum, r) => sum + r.confidence, 0)] *)
Definition sumConfidence (results : list CR.t) : Q :=
  fold_left (fun sum r => sum + CR.confidence r) results 0.

(** [reduce(...) / results.length], without rounding;
    [WithArithmetic.avgConfidence] below has the two operations as a
    parameter.  The source never divides by zero here: every array in the
    map was created by a [push]. *)
Definition avgConfidence (results : list CR.t) : Q :=
  sumConfidence results / inject_Z (Z.of_nat (List.length results)).

Definition dominantStep (acc : Q * string)
           (entry : string * list CR.t) : Q * string :=
  let '(maxConfidence, dominantCategory) := acc in
  let '(category, results) := entry in
  if gt (avgConfidence results) maxConfidence
  then (avgConfidence results, category)
  else (maxConfidence, dominantCategory).

Definition getDominantCategory
           (categorized : list (string * list CR.t)) : string :=
  snd (fold_left dominantStep categorized (0, "unknown")).

Record Analysis : Type := {
  topResult : option CR.t;
  categorized : list (string * list CR.t);
  translated : list (string * Value);
  hasMultipleCategories : bool;
  dominantCategory : string
}.

(** One turn of the [for] loop of [analyzeClassifications]. *)
Definition categorizeStep
           (acc : list (string * list CR.t) * list (string * Value))
           (result : CR.t)
  : list (string * list CR.t) * list (string * Value) :=
  let '(categorized, translated) := acc in
  let category := getObjectCategory (CR.className result) in
  let koreanName := getKoreanName (CR.className result) in
  let categorized1 :=
    if mapHas categorized category then categorized
    else mapSet categorized category [] in
  let bucket :=
    match mapGet categorized1 category with
    | Some rs => rs
    | None => []
    end in
  (mapSet categorized1 category (bucket ++ [result])%list,
   mapSet translated (CR.className result) koreanName).

Definition analyzeClassifications (classifications : list CR.t)
  : Analysis :=
  let topResults := slice 0 3 classifications in
  let '(categorized, translated) :=
    fold_left categorizeStep topResults ([], []) in
  {| topResult := hd_error topResults;
     categorized := categorized;
     translated := translated;
     hasMultipleCategories := (1 <? List.length categorized)%nat;
     dominantCategory := getDominantCategory categorized |}.

Section Captions.
Variable host : Host.

Definition generateSingleObjectCaption
           (object : Value) (confidence : Q) (category : string)
  : string :=
  let obj := toStr host object in
  if category =? "animals" then
    if gt confidence 0.8 then "귀여운 " ++ obj ++ "의 사진입니다"
    else if gt confidence 0.5 then obj ++ "로 보이는 동물이 있습니다"
    else obj ++ "와 비슷한 동물이 보입니다"
  else if category =? "food" then
    if gt confidence 0.8 then "맛있어 보이는 " ++ obj ++ "입니다"
    else obj ++ "로 보이는 음식이 있습니다"
  else if category =? "electronics" then
    obj ++ "가 있는 모습입니다"
  else if gt confidence 0.7 then "사진에 " ++ obj ++ "가 보입니다"
  else if gt confidence 0.4 then obj ++ "로 보이는 객체가 있습니다"
  else obj ++ "와 비슷한 것이 보입니다".

Definition generateSameCategoryCaption
           (objects : list Value) (category : string) : string :=
  let categoryDesc := toStr host (getCategoryDescription category) in
  match objects with
  | [o] => categoryDesc ++ " 사진입니다. " ++ toStr host o
           ++ "가 보입니다"
  | _ => categoryDesc ++ " 관련 사진입니다. "
         ++ join "와 " (map (toStr host) objects) ++ "가 보입니다"
  end.

Definition generateMixedCategoryCaption
           (mainObject : Value) (otherObjects : list Value) : string :=
  let main := toStr host mainObject in
  match otherObjects with
  | [] => "주로 " ++ main ++ "가 보이는 사진입니다"
  | [o] => main ++ "와 " ++ toStr host o ++ "가 함께 있는 사진입니다"
  | _ => main ++ "를 포함해 여러 객체들이 있는 복합적인 사진입니다"
  end.

(** [translated.get(name)], [undefined] for a missing key. *)
Definition translatedGet (translated : list (string * Value))
           (name : string) : Value :=
  match mapGet translated name with
  | Some v => v
  | None => Undefined
  end.

(** The loop [for (r of results) { k = translated.get(r.className);
    if (k) out.push(k) }]. *)
Definition pushTranslated (translated : list (string * Value))
           (results : list CR.t) : list Value :=
  filter truthy
         (map (fun r => translatedGet translated (CR.className r))
              results).

Definition undefinedLength : Thrown :=
  TypeErrorObj "Cannot read properties of undefined (reading 'length')".
Definition undefinedSlice : Thrown :=
  TypeErrorObj "Cannot read properties of undefined (reading 'slice')".
Definition undefinedClassName : Thrown :=
  TypeErrorObj
    "Cannot read properties of undefined (reading 'className')".

Definition generateContextualCaption (analysis : Analysis)
  : completion string :=
  match topResult analysis with
  | None => Throw undefinedClassName
  | Some top =>
      let mainObject :=
        or (translatedGet (translated analysis) (CR.className top))
           (Str (CR.className top)) in
      let confidence := CR.confidence top in
      let cats := categorized analysis in
      let dominant := dominantCategory analysis in
      (* categorized.size === 1 && categorized.get(dominant)!.length === 1 *)
      single <-
        (if (List.length cats =? 1)%nat then
           match mapGet cats dominant with
           | Some rs => Normal (List.length rs =? 1)%nat
           | None => Throw undefinedLength
           end
         else Normal false) ;;
      if single : bool then
        Normal (generateSingleObjectCaption mainObject confidence dominant)
      else if negb (hasMultipleCategories analysis) then
        match mapGet cats dominant with
        | Some categoryResults =>
            Normal (generateSameCategoryCaption
                      (pushTranslated (translated analysis)
                                      (slice 0 2 categoryResults))
                      dominant)
        | None => Throw undefinedSlice
        end
      else
        Normal (generateMixedCategoryCaption
                  mainObject
                  (flat_map
                     (fun entry =>
                        pushTranslated (translated analysis)
                                       (slice 1 3 (snd entry)))
                     cats))
  end.

Definition generateSmartCaption (classifications : list CR.t)
  : completion AltTextResult.t :=
  match classifications with
  | [] =>
      Normal {| AltTextResult.altText := "분석할 수 없는 이미지입니다";
                AltTextResult.classifications := [];
                AltTextResult.confidence := 0 |}
  | first :: _ =>
      let analysis := analyzeClassifications classifications in
      caption <- generateContextualCaption analysis ;;
      Normal {| AltTextResult.altText := caption;
                AltTextResult.classifications := classifications;
                AltTextResult.confidence := CR.confidence first |}
  end.
End Captions.

End SmartCaptionGenerator.

(* ================================================================== *)
(** * The arithmetic of the engine

    The selector adds confidences and divides the sum by a count.  The
    engine computes both on binary64 numbers and rounds each result to
    the nearest one; [Arithmetic.binary64] does so on the rationals,
    below the largest binary64 number.  The definitions of
    [SmartCaptionGenerator] above are the selector with
    [Arithmetic.exact]; [WithArithmetic] is the selector with the two
    operations as a parameter, for statements that depend on the value of
    a mean. *)

Module Arithmetic.

(** [a + b] and [a / b] on numbers. *)
Record t : Type := { add : Q -> Q -> Q; div : Q -> Q -> Q }.

(** The operations without rounding. *)
Definition exact : t := {| add := Qplus; div := Qdiv |}.

(** The integer nearest to [num / den], the even one of two that are
    equally near; [den] is positive. *)
Definition nearestEven (num den : Z) : Z :=
  let q := (num / den)%Z in
  match (2 * (num mod den) ?= den)%Z with
  | Lt => q
  | Gt => (q + 1)%Z
  | Eq => if Z.even q then q else (q + 1)%Z
  end.

(** [2 ^ k] for an integer [k] of either sign. *)
Definition pow2 (k : Z) : Q :=
  if (0 <=? k)%Z then inject_Z (2 ^ k) else 1 # Z.to_pos (2 ^ (- k)).

(** The [e] with [2 ^ e <= p / d < 2 ^ (e + 1)], for positive [p], [d]. *)
Definition exponent (p d : Z) : Z :=
  let e := (Z.log2 p - Z.log2 d)%Z in
  if Qle_bool (pow2 e) (p # Z.to_pos d) then e else (e - 1)%Z.

(** The binary64 number nearest to [p / d], for positive [p] and [d]:
    53 significant bits, and no bit below [2 ^ -1074]. *)
Definition roundPositive (p d : Z) : Q :=
  let k := Z.max (exponent p d - 52) (-1074) in
  let n := if (0 <=? k)%Z then nearestEven p (d * 2 ^ k)
           else nearestEven (p * 2 ^ (- k)) d in
  inject_Z n * pow2 k.

(** The binary64 number nearest to [q], ties to the even significand. *)
Definition round (q : Q) : Q :=
  match Qnum q with
  | Z0 => 0
  | Zpos p => roundPositive (Zpos p) (Zpos (Qden q))
  | Zneg p => - roundPositive (Zpos p) (Zpos (Qden q))
  end.

(** The operations of the engine: the exact result, rounded. *)
Definition binary64 : t :=
  {| add := fun a b => round (a + b); div := fun a b => round (a / b) |}.

End Arithmetic.

Module WithArithmetic.
Import Js.
Module CR := ClassificationResult.

Section Selector.
Variable arith : Arithmetic.t.

(** [results.reduce((sum, r) => sum + r.confidence, 0)] *)
Definition sumConfidence (results : list CR.t) : Q :=
  fold_left (fun sum r => Arithmetic.add arith sum (CR.confidence r))
            results 0.

(** [reduce(...) / results.length] *)
Definition avgConfidence (results : list CR.t) : Q :=
  Arithmetic.div arith (sumConfidence results)
                 (inject_Z (Z.of_nat (List.length results))).

Definition dominantStep (acc : Q * string)
           (entry : string * list CR.t) : Q * string :=
  let '(maxConfidence, dominantCategory) := acc in
  let '(category, results) := entry in
  if gt (avgConfidence results) maxConfidence
  then (avgConfidence results, category)
  else (maxConfidence, dominantCategory).

Definition getDominantCategory
           (categorized : list (string * list CR.t)) : string :=
  snd (fold_left dominantStep categorized (0, "unknown")).

Definition analyzeClassifications (classifications : list CR.t)
  : SmartCaptionGenerator.Analysis :=
  let topResults := slice 0 3 classifications in
  let '(categorized, translated) :=
    fold_left SmartCaptionGenerator.categorizeStep topResults ([], []) in
  {| SmartCaptionGenerator.topResult := hd_error topResults;
     SmartCaptionGenerator.categorized := categorized;
     SmartCaptionGenerator.translated := translated;
     SmartCaptionGenerator.hasMultipleCategories :=
       (1 <? List.length categorized)%nat;
     SmartCaptionGenerator.dominantCategory :=
       getDominantCategory categorized |}.

Definition generateSmartCaption (host : Host)
           (classifications : list CR.t) : completion AltTextResult.t :=
  match classifications with
  | [] =>
      Normal {| AltTextResult.altText := "분석할 수 없는 이미지입니다";
                AltTextResult.classifications := [];
                AltTextResult.confidence := 0 |}
  | first :: _ =>
      let analysis := analyzeClassifications classifications in
      caption <-
        SmartCaptionGenerator.generateContextualCaption host analysis ;;
      Normal {| AltTextResult.altText := caption;
                AltTextResult.classifications := classifications;
                AltTextResult.confidence := CR.confidence first |}
  end.
End Selector.

End WithArithmetic.

(* ================================================================== *)
(** * models/imageClassifier.ts *)

Module ImageClassifier.
Import Js.
Module CR := ClassificationResult.

(** A tensor, seen through [data()]. *)
Record Tensor : Type := { tensorData : list Q }.

(** A loaded [tf.LayersModel], seen through [predict]. *)
Record LayersModel : Type := { predict : Tensor -> completion Tensor }.

(** What [fetch(url)] gives: a rejection, or a response with its [ok]
    flag, status line and the outcome of [text()]. *)
Inductive FetchOutcome : Type :=
| FetchRejected (e : Thrown)
| FetchResponse (ok : bool) (status : nat) (statusText : string)
                (text : completion string).

(** The image forms of [ImageInput]; a [File] or [Blob] carries its MIME
    type. *)
Inductive ImageInput : Type :=
| HTMLImageElement
| HTMLCanvasElement
| File (type : string)
| Blob (type : string).

(** The outside world.  [processImage] stands for
    [ImageProcessor.processImage] (canvas and DOM work) applied to an
    input, a target size and a normalize flag. *)
Record World : Type := {
  host : Host;
  loadLayersModel : string -> completion LayersModel;
  fetch : string -> FetchOutcome;
  processImage : ImageInput -> option Z -> option bool -> completion Tensor
}.

(** The private fields of the class. *)
Record t : Type := mk {
  model : option LayersModel;
  isLoading : bool;
  classNames : list string
}.

(** [new ImageClassifier()] *)
Definition new : t :=
  {| model := None; isLoading := false; classNames := [] |}.

Definition DEFAULT_MODEL_URL : string :=
  "https://tfhub.dev/google/tfjs-model/imagenet/mobilenet_v2_100_224/classification/3/default/1".

Definition labelsUrl : string :=
  "https://storage.googleapis.com/download.tensorflow.org/data/ImageNetLabels.txt".

(** [ModelLoadOptions].  The progress callback is caller code: a call of
    it returns, throws, or does not come back. *)
Record ModelLoadOptions : Type := {
  modelUrl : option string;
  onLoadProgress : option (Q -> completion unit)
}.

Definition newline : ascii := "010"%char.

(** The string of the given bytes. *)
Definition bytes (codes : list nat) : string :=
  fold_right (fun n s => String (ascii_of_nat n) s) EmptyString codes.

(** The characters [String.prototype.trim] strips, in UTF-8: the code
    points of WhiteSpace and LineTerminator of ECMAScript.  None of the
    encodings begins another one. *)
Definition whiteSpace : list string :=
  map bytes
      ([ [9]; [10]; [11]; [12]; [13]; [32]; (* U+0009 to U+000D, U+0020 *)
         [194; 160];                        (* U+00A0 *)
         [225; 154; 128] ]%nat              (* U+1680 *)
       ++ map (fun n => [226; 128; n]%nat)
              (seq 128 11)                  (* U+2000 to U+200A *)
       ++ [ [226; 128; 168]; [226; 128; 169]; (* U+2028, U+2029 *)
            [226; 128; 175];                (* U+202F *)
            [226; 129; 159];                (* U+205F *)
            [227; 128; 128];                (* U+3000 *)
            [239; 187; 191] ]%nat)%list.    (* U+FEFF *)

Definition isWhiteSpace (s : string) : bool := includes whiteSpace s.

(** Strips the white-space characters the string begins with; an encoding
    has one, two or three bytes. *)
Fixpoint trimStart (s : string) : string :=
  match s with
  | EmptyString => EmptyString
  | String a s1 =>
      if isWhiteSpace (String a EmptyString) then trimStart s1
      else
        match s1 with
        | EmptyString => s
        | String b s2 =>
            if isWhiteSpace (String a (String b EmptyString))
            then trimStart s2
            else
              match s2 with
              | EmptyString => s
              | String c s3 =>
                  if isWhiteSpace
                       (String a (String b (String c EmptyString)))
                  then trimStart s3
                  else s
              end
        end
  end.

(** Strips the white-space characters the string ends with: what is left
    of the tail, with the byte before it, is dropped when it is one of
    the encodings. *)
Fixpoint trimEnd (s : string) : string :=
  match s with
  | EmptyString => EmptyString
  | String a r =>
      let rest := trimEnd r in
      if isWhiteSpace (String a rest) then EmptyString
      else String a rest
  end.

Definition trim (s : string) : string := trimEnd (trimStart s).

(** [s.split('\n')] *)
Fixpoint splitLines (s : string) : list string :=
  match s with
  | EmptyString => [EmptyString]
  | String c r =>
      if Ascii.eqb c newline then EmptyString :: splitLines r
      else match splitLines r with
           | [] => [String c EmptyString]
           | x :: xs => String c x :: xs
           end
  end.

(** [Array.from({ length: 1000 }, (_, i) => `class_${i}`)] *)
Definition placeholderLabels : list string :=
  map (fun i => "class_" ++ indexToString i) (seq 0 1000).

(** The [try] block of [loadImageNetLabels]. *)
Definition fetchLabels (w : World) : completion (list string) :=
  match fetch w labelsUrl with
  | FetchRejected e => Throw e
  | FetchResponse ok status statusText text =>
      if negb ok then
        Throw (ErrorObj ("HTTP " ++ indexToString status ++ ": "
                         ++ statusText))
      else
        labelsText <- text ;;
        Normal (splitLines (trim labelsText))
  end.

Definition loadImageNetLabels (w : World) (c : t) : completion unit * t :=
  match fetchLabels w with
  | Normal names =>
      (Normal tt, {| model := model c; isLoading := isLoading c;
                     classNames := names |})
  | Throw _ =>
      (Normal tt, {| model := model c; isLoading := isLoading c;
                     classNames := placeholderLabels |})
  | Pending => (Pending, c)
  end.

(** [const { modelUrl = ImageClassifier.DEFAULT_MODEL_URL } = options] *)
Definition modelUrlOrDefault (options : ModelLoadOptions) : string :=
match modelUrl options with
| Some u => u
| None => DEFAULT_MODEL_URL
end.

Definition setLoading (b : bool) (c : t) : t :=
  {| model := model c; isLoading := b; classNames := classNames c |}.

(** [if (onLoadProgress) { onLoadProgress(progress) }] *)
Definition reportProgress (options : ModelLoadOptions) (progress : Q)
  : completion unit :=
  match onLoadProgress options with
  | Some callback => callback progress
  | None => Normal tt
  end.

(** [loadModel].  With a load in flight the call polls [isLoading]; what
    it then does depends on another task, and the call is [Pending]
    here.  A download that never settles leaves [isLoading] set.  The two
    [setTimeout] calls hand the callback to later tasks, whose outcome
    does not reach this call; the call [onLoadProgress(1.0)] is made
    inside the [try], after the model and the labels are set. *)
Definition loadModel (w : World) (c : t) (options : ModelLoadOptions)
  : completion unit * t :=
  match model c with
  | Some _ => (Normal tt, c)
  | None =>
      if isLoading c then (Pending, c)
      else
        let c1 := setLoading true c in
        let '(r, c2) :=
          match loadLayersModel w (modelUrlOrDefault options) with
          | Normal m =>
              let '(labels, c') :=
                loadImageNetLabels
                  w {| model := Some m; isLoading := isLoading c1;
                       classNames := classNames c1 |} in
              (_ <- labels ;; reportProgress options 1, c')
          | Throw e => (Throw e, c1)
          | Pending => (Pending, c1)
          end in
        match r with
        | Normal u => (Normal u, setLoading false c2)
        | Throw error =>
            (Throw (ErrorObj ("모델 로딩에 실패했습니다: "
                              ++ messageOrUnknown error)),
             setLoading false c2)
        | Pending => (Pending, c2)
        end
  end.

(** [this.classNames[index] || `Unknown_${index}`] *)
Definition labelAt (names : list string) (index : nat) : string :=
  match nth_error names index with
  | Some s => if s =? EmptyString then "Unknown_" ++ indexToString index else s
  | None => "Unknown_" ++ indexToString index
  end.

(** [Array.from(probabilities).map((prob, index) => ({probability: prob,
    index}))] *)
Definition indexed (probabilities : list Q) : list (Q * nat) :=
  combine probabilities (seq 0 (List.length probabilities)).

(** Lines 93 to 105 of [classify]: the top-N extraction. *)
Definition topResults (names : list string) (probabilities : list Q)
           (maxPredictions : Z) : list CR.t :=
  let indices :=
    slice 0 maxPredictions
          (sort (fun a b => fst b - fst a) (indexed probabilities)) in
  map (fun entry =>
         {| CR.className := labelAt names (snd entry);
            CR.probability := fst entry;
            CR.confidence := fst entry |})
      indices.

Definition classify (c : t) (imageTensor : Tensor) (maxPredictions : Z)
  : completion (list CR.t) :=
  match model c with
  | None =>
      Throw (ErrorObj
        "모델이 로드되지 않았습니다. loadModel()을 먼저 호출하세요.")
  | Some m =>
      tryCatch
        (predictions <- predict m imageTensor ;;
         Normal (topResults (classNames c) (tensorData predictions)
                            maxPredictions))
        (fun error =>
           Throw (ErrorObj ("이미지 분류에 실패했습니다: "
                            ++ messageOrUnknown error)))
  end.

Definition isModelLoaded (c : t) : bool :=
  match model c with Some _ => true | None => false end.

Definition dispose (c : t) : t :=
  {| model := None; isLoading := isLoading c; classNames := classNames c |}.

Definition getModelInfo (c : t) : nat * bool :=
  (List.length (classNames c), isModelLoaded c).

End ImageClassifier.

(* ================================================================== *)
(** * index.ts *)

Module Index.
Import Js.
Import ImageClassifier.

Record AnalyzeImageOptions : Type := {
  targetSize : option Z;
  normalize : option bool;
  maxPredictions : option Z;
  modelOptions : option ModelLoadOptions
}.

(** [options = {}] *)
Definition noOptions : AnalyzeImageOptions :=
  {| targetSize := None; normalize := None; maxPredictions := None;
     modelOptions := None |}.

Definition noModelOptions : ModelLoadOptions :=
  {| modelUrl := None; onLoadProgress := None |}.

(** [options.maxPredictions || 5] *)
Definition maxPredictionsOr5 (options : AnalyzeImageOptions) : Z :=
  match maxPredictions options with
  | Some n => if (n =? 0)%Z then 5%Z else n
  | None => 5%Z
  end.

(** The module-level [globalClassifier] is the state threaded through
    the entry points. *)
Definition Global : Type := option ImageClassifier.t.

(** [if (!globalClassifier) globalClassifier = new ImageClassifier()] *)
Definition ensureClassifier (g : Global) : ImageClassifier.t :=
  match g with Some c => c | None => ImageClassifier.new end.

(** [if (!c.isModelLoaded()) await c.loadModel(options)] *)
Definition ensureLoaded (w : World) (c : ImageClassifier.t)
           (options : option ModelLoadOptions)
  : completion unit * ImageClassifier.t :=
  if isModelLoaded c then (Normal tt, c)
  else loadModel w c (match options with
                      | Some o => o
                      | None => noModelOptions
                      end).

Definition analyzeImage (w : World) (g : Global) (imageInput : ImageInput)
           (options : AnalyzeImageOptions)
  : completion AltTextResult.t * Global :=
  let c0 := ensureClassifier g in
  let '(loaded, c1) := ensureLoaded w c0 (modelOptions options) in
  let body :=
    _ <- loaded ;;
    tensor <- processImage w imageInput (targetSize options)
                           (normalize options) ;;
    classifications <- classify c1 tensor (maxPredictionsOr5 options) ;;
    SmartCaptionGenerator.generateSmartCaption (host w) classifications in
  (tryCatch body
     (fun error =>
        if instanceofImageAnalysisError error then Throw error
        else Throw (ImageAnalysisError
                      ("이미지 분석 중 오류가 발생했습니다: "
                       ++ messageOrUnknown error)
                      "ANALYSIS_FAILED")),
   Some c1).

Definition classifyImage (w : World) (g : Global) (imageInput : ImageInput)
           (options : AnalyzeImageOptions)
  : completion (list ClassificationResult.t) * Global :=
  let c0 := ensureClassifier g in
  let '(loaded, c1) := ensureLoaded w c0 (modelOptions options) in
  let body :=
    _ <- loaded ;;
    tensor <- processImage w imageInput (targetSize options)
                           (normalize options) ;;
    classify c1 tensor (maxPredictionsOr5 options) in
  (tryCatch body
     (fun error =>
        Throw (ImageAnalysisError
                 ("이미지 분류 중 오류가 발생했습니다: "
                  ++ messageOrUnknown error)
                 "CLASSIFICATION_FAILED")),
   Some c1).

(** No [try] here: what [loadModel] throws leaves as it is. *)
Definition preloadModel (w : World) (g : Global)
           (options : ModelLoadOptions) : completion unit * Global :=
  let c0 := ensureClassifier g in
  let '(loaded, c1) := ensureLoaded w c0 (Some options) in
  (loaded, Some c1).

(** [{ isLoaded, totalClasses }] *)
Definition getModelStatus (g : Global) : bool * nat :=
  match g with
  | None => (false, 0%nat)
  | Some c => (snd (getModelInfo c), fst (getModelInfo c))
  end.

Definition cleanup (g : Global) : Global := None.

End Index.

(* ================================================================== *)
(** * utils/imageProcessor.ts *)

Module ImageProcessor.
Import Js.

Definition DEFAULT_TARGET_SIZE : nat := 224.

Definition SUPPORTED_FORMATS : list string :=
  ["image/jpeg"; "image/png"; "image/webp"].

(** An [HTMLImageElement], seen through its [width] and [height]. *)
Record Image : Type := { width : nat; height : nat }.

(** What [processImage] can be handed.  The browser's part is carried by
    the input: a [File] or [Blob] has its MIME type and what loading it
    into an [Image] gives ([None] when [onerror] fires); a canvas has what
    [toBlob] hands to the callback ([None] for a [null] blob) and what
    loading that blob gives.  [OtherInput] is a value of none of the four
    classes. *)
Inductive Input : Type :=
| ImageElement (img : Image)
| CanvasElement (blob : option (option Image))
| FileInput (type : string) (loaded : option Image)
| BlobInput (type : string) (loaded : option Image)
| OtherInput.

Definition unsupportedFormat : Thrown :=
  ErrorObj ("지원하지 않는 파일 형식입니다. 지원 형식: "
            ++ join ", " SUPPORTED_FORMATS).

(** [validateImageFormat(file)], on [file.type]. *)
Definition validateImageFormat (type : string) : completion unit :=
  if (type =? EmptyString) || negb (includes SUPPORTED_FORMATS type)
  then Throw unsupportedFormat
  else Normal tt.

(** [fileToImage(file)]: resolves on [onload], rejects on [onerror]. *)
Definition fileToImage (loaded : option Image) : completion Image :=
  match loaded with
  | Some img => Normal img
  | None => Throw (ErrorObj "이미지 로딩에 실패했습니다.")
  end.

Definition canvasToImage (blob : option (option Image)) : completion Image :=
  match blob with
  | None => Throw (ErrorObj "캔버스를 이미지로 변환할 수 없습니다.")
  | Some loaded => fileToImage loaded
  end.

Definition toImageElement (imageInput : Input) : completion Image :=
  match imageInput with
  | ImageElement img => Normal img
  | CanvasElement blob => canvasToImage blob
  | FileInput type loaded | BlobInput type loaded =>
      _ <- validateImageFormat type ;;
      fileToImage loaded
  | OtherInput => Throw (ErrorObj "지원하지 않는 이미지 형식입니다.")
  end.

(** The arguments of the [drawImage] call. *)
Record DrawImage : Type := {
  sx : Q; sy : Q; sWidth : Q; sHeight : Q;
  dx : Q; dy : Q; dWidth : Q; dHeight : Q
}.

(** The canvas [resizeImage] returns: its size and the one draw call made
    on it. *)
Record Canvas : Type := {
  canvasWidth : nat;
  canvasHeight : nat;
  drawn : DrawImage
}.

Definition ofNat (n : nat) : Q := inject_Z (Z.of_nat n).

(** [resizeImage(img, targetSize)]; [hasContext] tells whether
    [getContext('2d')] gives a context.  The target size is a natural
    number, the sizes a canvas keeps as they are given. *)
Definition resizeImage (hasContext : bool) (img : Image) (targetSize : nat)
  : completion Canvas :=
  if negb hasContext
  then Throw (ErrorObj "Canvas 컨텍스트를 생성할 수 없습니다.")
  else
    let size := Qmin (ofNat (width img)) (ofNat (height img)) in
    let x := (ofNat (width img) - size) / 2 in
    let y := (ofNat (height img) - size) / 2 in
    Normal {| canvasWidth := targetSize;
              canvasHeight := targetSize;
              drawn := {| sx := x; sy := y; sWidth := size; sHeight := size;
                          dx := 0; dy := 0;
                          dWidth := ofNat targetSize;
                          dHeight := ofNat targetSize |} |}.

Record ImageProcessingOptions : Type := {
  targetSize : option nat;
  normalize : option bool
}.

(** The tensor [processImage] returns, seen through its shape, the canvas
    its pixels come from and whether they were divided by 255. *)
Record Tensor : Type := {
  shape : list nat;
  pixelsOf : Canvas;
  dividedBy255 : bool
}.

(** [tf.browser.fromPixels(canvas)]: height, width, three channels. *)
Definition fromPixels (canvas : Canvas) : Tensor :=
  {| shape := [canvasHeight canvas; canvasWidth canvas; 3%nat];
     pixelsOf := canvas;
     dividedBy255 := false |}.

(** [tensor.div(255.0)] *)
Definition div255 (t : Tensor) : Tensor :=
  {| shape := shape t; pixelsOf := pixelsOf t; dividedBy255 := true |}.

(** [tensor.expandDims(0)] *)
Definition expandDims0 (t : Tensor) : Tensor :=
  {| shape := 1%nat :: shape t; pixelsOf := pixelsOf t;
     dividedBy255 := dividedBy255 t |}.

Definition processImage (hasContext : bool) (imageInput : Input)
           (options : ImageProcessingOptions) : completion Tensor :=
  let size := match targetSize options with
              | Some n => n
              | None => DEFAULT_TARGET_SIZE
              end in
  let norm := match normalize options with
              | Some b => b
              | None => true
              end in
  imageElement <- toImageElement imageInput ;;
  resizedCanvas <- resizeImage hasContext imageElement size ;;
  let tensor := fromPixels resizedCanvas in
  let tensor := if norm then div255 tensor else tensor in
  Normal (expandDims0 tensor).

End ImageProcessor.

(* ================================================================== *)
(** * The development server (static files over HTTP) *)

Module DevServer.
Import Js.

Definition PORT : nat := 3000.

Definition mimeTypes : list (string * string) :=
  [ (".html", "text/html");
    (".js", "text/javascript");
    (".css", "text/css");
    (".json", "application/json");
    (".png", "image/png");
    (".jpg", "image/jpeg");
    (".gif", "image/gif");
    (".svg", "image/svg+xml");
    (".ico", "image/x-icon") ].

Definition slash : ascii := "/"%char.
Definition dot : ascii := "."%char.

(** [s.split('/')] *)
Fixpoint splitSlash (s : string) : list string :=
  match s with
  | EmptyString => [EmptyString]
  | String c r =>
      if Ascii.eqb c slash then EmptyString :: splitSlash r
      else match splitSlash r with
           | [] => [String c EmptyString]
           | x :: xs => String c x :: xs
           end
  end.

(** [s.lastIndexOf(c)], [None] for -1. *)
Fixpoint lastIndexOf (c : ascii) (s : string) : option nat :=
  match s with
  | EmptyString => None
  | String a r =>
      match lastIndexOf c r with
      | Some i => Some (S i)
      | None => if Ascii.eqb a c then Some 0%nat else None
      end
  end.

(** The last portion of a path: its last segment that is not empty, so
    that trailing slashes are passed over. *)
Definition lastPortion (path : string) : string :=
  match filter (fun seg => negb (seg =? EmptyString))
               (rev (splitSlash path)) with
  | seg :: _ => seg
  | [] => EmptyString
  end.

(** [path.extname] (POSIX): from the last dot of the last portion to its
    end; empty when there is no dot, when the only dot opens the portion,
    and for the portion [..]. *)
Definition extname (path : string) : string :=
  let base := lastPortion path in
  match lastIndexOf dot base with
  | None => EmptyString
  | Some 0%nat => EmptyString
  | Some d =>
      if base =? ".." then EmptyString
      else String.substring d (String.length base - d) base
  end.

(** [toLowerCase] on the letters A to Z; a letter outside ASCII never
    lowers to a character of a key of [mimeTypes]. *)
Definition lowerAscii (c : ascii) : ascii :=
  let n := nat_of_ascii c in
  if ((65 <=? n) && (n <=? 90))%nat then ascii_of_nat (n + 32) else c.

Fixpoint toLowerCase (s : string) : string :=
  match s with
  | EmptyString => EmptyString
  | String c r => String (lowerAscii c) (toLowerCase r)
  end.

(** One segment of [normalizeString]; the stack holds the segments kept so
    far, last first. *)
Definition normalizeStep (allowAboveRoot : bool) (stack : list string)
           (seg : string) : list string :=
  if (seg =? EmptyString) || (seg =? ".") then stack
  else if seg =? ".." then
    match stack with
    | top :: below =>
        if top =? ".." then
          (if allowAboveRoot then seg :: stack else stack)
        else below
    | [] => if allowAboveRoot then [seg] else []
    end
  else seg :: stack.

Definition startsWithSlash (s : string) : bool :=
  match s with
  | String c _ => Ascii.eqb c slash
  | EmptyString => false
  end.

Fixpoint endsWithSlash (s : string) : bool :=
  match s with
  | EmptyString => false
  | String c EmptyString => Ascii.eqb c slash
  | String _ r => endsWithSlash r
  end.

(** [path.normalize] (POSIX). *)
Definition normalize (path : string) : string :=
  if path =? EmptyString then "."
  else
    let isAbsolute := startsWithSlash path in
    let trailingSeparator := endsWithSlash path in
    let kept :=
      join "/" (rev (fold_left (normalizeStep (negb isAbsolute))
                               (splitSlash path) [])) in
    if kept =? EmptyString then
      (if isAbsolute then "/" else if trailingSeparator then "./" else ".")
    else
      let kept := if trailingSeparator then kept ++ "/" else kept in
      if isAbsolute then "/" ++ kept else kept.

(** [path.join(a, b)] (POSIX). *)
Definition pathJoin (a b : string) : string :=
  let joined :=
    if a =? EmptyString then b
    else if b =? EmptyString then a
    else a ++ "/" ++ b in
  if joined =? EmptyString then "." else normalize joined.

(** What [fs.readFile] hands to its callback. *)
Inductive ReadOutcome : Type :=
| ReadOk (content : string)
| ReadError (code : string).

Record Response : Type := {
  status : nat;
  headers : list (string * Value);
  body : string
}.

(** [mimeTypes[extname] || 'application/octet-stream'] *)
Definition contentType (filePath : string) : Value :=
  or (get mimeTypes (toLowerCase (extname filePath)))
     (Str "application/octet-stream").

Definition serveFile (filePath : string) (read : ReadOutcome) : Response :=
  match read with
  | ReadError code =>
      if code =? "ENOENT" then
        {| status := 404;
           headers := [("Content-Type", Str "text/html")];
           body := "<h1>404 - 파일을 찾을 수 없습니다</h1>" |}
      else
        {| status := 500;
           headers := [];
           body := "서버 오류: " ++ code |}
  | ReadOk content =>
      {| status := 200;
         headers :=
           [ ("Content-Type", contentType filePath);
             ("Access-Control-Allow-Origin", Str "*");
             ("Access-Control-Allow-Methods",
              Str "GET, POST, PUT, DELETE, OPTIONS");
             ("Access-Control-Allow-Headers", Str "Content-Type") ];
         body := content |}
  end.

(** The request handler, on the [pathname] of the parsed request URL;
    [dirname] is [__dirname] and [readFile] the file system. *)
Definition handle (dirname : string) (readFile : string -> ReadOutcome)
           (pathname : string) : Response :=
  let pathname := if pathname =? "/" then "/test.html" else pathname in
  let filePath := pathJoin dirname pathname in
  if negb (String.prefix dirname filePath) then
    {| status := 403; headers := []; body := "접근 거부" |}
  else serveFile filePath (readFile filePath).

End DevServer.

(* ================================================================== *)
(** * build-browser.js: the import map *)

Module BuildBrowser.
Import Js.

(** The body of the [forEach] callback: the URL written for [dep]. *)
Definition importUrl (dep : string) : string :=
  if dep =? "@tensorflow/tfjs"
  then "https://cdn.skypack.dev/@tensorflow/tfjs"
  else "https://cdn.skypack.dev/" ++ dep.

(** [imports[dep] = url] on an object literal: a string written to
    [__proto__] is dropped by the inherited setter; every other key
    becomes an own property. *)
Definition assign (imports : list (string * string)) (dep url : string)
  : list (string * string) :=
  if dep =? "__proto__" then imports else mapSet imports dep url.

(** [importMap.imports] after the loop over the dependency names. *)
Definition importMap (dependencies : list string) : list (string * string) :=
  fold_left (fun imports dep => assign imports dep (importUrl dep))
            dependencies [].

End BuildBrowser.

(* ================================================================== *)
(** * Notions used in the statements *)

Import Js.
Module CR := ClassificationResult.

(** A host that prints the inherited members the way V8 does: the
    function [Object] for [constructor], the prototype object itself for
    [__proto__], and the method of that name for the others. *)
Definition exampleHost : Host :=
  {| builtinText :=
       fun k =>
         if k =? "constructor" then "function Object() { [native code] }"
         else if k =? "__proto__" then "[object Object]"
         else "function " ++ k ++ "() { [native code] }" |}.

(** [d] names the first entry of [cats] that attains the highest mean. *)
Definition firstHighestMean (cats : list (string * list CR.t)) (d : string)
  : Prop :=
  exists pre rs post,
    cats = (pre ++ (d, rs) :: post)%list /\
    (forall c r, In (c, r) pre ->
                 SmartCaptionGenerator.avgConfidence r
                 < SmartCaptionGenerator.avgConfidence rs) /\
    (forall c r, In (c, r) post ->
                 SmartCaptionGenerator.avgConfidence r
                 <= SmartCaptionGenerator.avgConfidence rs).

(** [d] names an entry of [cats] whose mean confidence no entry exceeds. *)
Definition highestMean (cats : list (string * list CR.t)) (d : string)
  : Prop :=
  exists rs,
    In (d, rs) cats /\
    forall c r, In (c, r) cats ->
                SmartCaptionGenerator.avgConfidence r
                <= SmartCaptionGenerator.avgConfidence rs.

(** What the loop of [getDominantCategory] maintains over the entries
    [seen] so far. *)
Definition dominantInv (seen : list (string * list CR.t))
           (acc : Q * string) : Prop :=
  (snd acc = "unknown" /\ fst acc = 0 /\
   forall c r, In (c, r) seen -> SmartCaptionGenerator.avgConfidence r <= 0)
  \/
  (exists pre rs post,
      seen = (pre ++ (snd acc, rs) :: post)%list /\
      SmartCaptionGenerator.avgConfidence rs = fst acc /\
      0 < fst acc /\
      (forall c r, In (c, r) pre ->
                   SmartCaptionGenerator.avgConfidence r < fst acc) /\
      (forall c r, In (c, r) post ->
                   SmartCaptionGenerator.avgConfidence r <= fst acc)).

(** The array the map holds for a category, empty when it has none. *)
Definition bucketOf (cats : list (string * list CR.t)) (c : string)
  : list CR.t :=
  match mapGet cats c with Some rs => rs | None => [] end.

(** What the loop of [analyzeClassifications] maintains over the records
    [seen] so far: every array holds records seen, and every record seen
    is in the array of its category. *)
Definition categorizedInv (seen : list CR.t)
           (cats : list (string * list CR.t)) : Prop :=
  (forall c rs r, mapGet cats c = Some rs -> In r rs -> In r seen) /\
  (forall r, In r seen ->
             exists rs,
               mapGet cats
                 (SmartCaptionGenerator.getObjectCategory (CR.className r))
               = Some rs /\ In r rs).

(** The record [classify] builds for index [i]. *)
Definition recordAt (names : list string) (probabilities : list Q) (i : nat)
  : CR.t :=
  {| CR.className := ImageClassifier.labelAt names i;
     CR.probability := nth i probabilities 0;
     CR.confidence := nth i probabilities 0 |}.

(** Sorted in descending order of probability. *)
Definition descending (results : list CR.t) : Prop :=
  StronglySorted (fun a b => CR.probability b <= CR.probability a) results.

(** The (probability, index) pairs after the [sort] of [classify]. *)
Definition sortedEntries (probabilities : list Q) : list (Q * nat) :=
  sort (fun a b => fst b - fst a) (ImageClassifier.indexed probabilities).

(** The label download fails: [fetch] rejects, the response is not [ok],
    or reading its text rejects. *)
Definition labelFetchFails (w : ImageClassifier.World) : Prop :=
  match ImageClassifier.fetch w ImageClassifier.labelsUrl with
  | ImageClassifier.FetchRejected _ => True
  | ImageClassifier.FetchResponse ok _ _ text =>
      ok = false \/ exists e, text = Throw e
  end.

(** The error [loadModel] throws for a failure [error]. *)
Definition loadFailureMessage (error : Thrown) : Thrown :=
  ErrorObj ("모델 로딩에 실패했습니다: " ++ messageOrUnknown error).

(** There is no progress callback, or its call with 1.0 returns. *)
Definition progressReturns (options : ImageClassifier.ModelLoadOptions)
  : Prop :=
  ImageClassifier.reportProgress options 1 = Normal tt.

(** Options whose progress callback throws. *)
Definition throwingProgress : ImageClassifier.ModelLoadOptions :=
  {| ImageClassifier.modelUrl := None;
     ImageClassifier.onLoadProgress :=
       Some (fun _ => Throw (ErrorObj "progress bar is gone")) |}.

(** A world without network: both downloads reject. *)
Definition offlineWorld : ImageClassifier.World :=
  {| ImageClassifier.host := exampleHost;
     ImageClassifier.loadLayersModel :=
       fun _ => Throw (ErrorObj "Failed to fetch");
     ImageClassifier.fetch :=
       fun _ => ImageClassifier.FetchRejected (ErrorObj "Failed to fetch");
     ImageClassifier.processImage :=
       fun _ _ _ => Normal {| ImageClassifier.tensorData := [] |} |}.

(** A world whose model download does not settle. *)
Definition stalledWorld : ImageClassifier.World :=
  {| ImageClassifier.host := exampleHost;
     ImageClassifier.loadLayersModel := fun _ => Pending;
     ImageClassifier.fetch :=
       fun _ => ImageClassifier.FetchRejected (ErrorObj "Failed to fetch");
     ImageClassifier.processImage :=
       fun _ _ _ => Normal {| ImageClassifier.tensorData := [] |} |}.

(** A model that returns its input. *)
Definition identityModel : ImageClassifier.LayersModel :=
  {| ImageClassifier.predict := fun t => Normal t |}.

(** A world where the model loads and the label file answers 404. *)
Definition labelsOfflineWorld : ImageClassifier.World :=
  {| ImageClassifier.host := exampleHost;
     ImageClassifier.loadLayersModel := fun _ => Normal identityModel;
     ImageClassifier.fetch :=
       fun _ => ImageClassifier.FetchResponse
                  false 404 "Not Found" (Normal EmptyString);
     ImageClassifier.processImage :=
       fun _ _ _ => Normal {| ImageClassifier.tensorData := [] |} |}.

(* ================================================================== *)
(** * Further notions used in the statements *)
(** A path segment without a slash. *)
Fixpoint noSlash (s : string) : bool :=
  match s with
  | EmptyString => true
  | String c r => negb (Ascii.eqb c DevServer.slash) && noSlash r
  end.

(** A segment that names a file or a directory: not empty, not [.], not
    [..], no slash. *)
Definition plainSegment (s : string) : bool :=
  negb (s =? EmptyString) && negb (s =? ".") && negb (s =? "..")
  && noSlash s.

(** The absolute path of the given segments. *)
Fixpoint renderPath (segments : list string) : string :=
  match segments with
  | [] => EmptyString
  | seg :: rest => "/" ++ seg ++ renderPath rest
  end.

(** The categories [getObjectCategory] can answer. *)
Definition categoryNames : list string :=
  ["animals"; "food"; "vehicles"; "electronics"; "furniture"; "clothing";
   "sports"; "unknown"].

(** A list as a map value: a key is present only with a non-empty list. *)
Definition nonEmpty {A} (l : list A) : option (list A) :=
  match l with [] => None | _ => Some l end.

(** The record belongs to category [c]. *)
Definition inCategory (c : string) (r : CR.t) : bool :=
  SmartCaptionGenerator.getObjectCategory (CR.className r) =? c.

(** The record carries the label [name]. *)
Definition hasLabel (name : string) (r : CR.t) : bool :=
  CR.className r =? name.

(** No string occurs twice. *)
Fixpoint nodupb (l : list string) : bool :=
  match l with
  | [] => true
  | x :: l' => negb (includes l' x) && nodupb l'
  end.

(** The number of records held by the arrays of the map. *)
Definition bucketSizes (cats : list (string * list CR.t)) : nat :=
  list_sum (map (fun entry => List.length (snd entry)) cats).

(** What the categorizing loop maintains: the map groups the records
    [seen] by category, with distinct keys. *)
Definition groupsInv (seen : list CR.t)
           (cats : list (string * list CR.t)) : Prop :=
  (forall c, mapGet cats c = nonEmpty (filter (inCategory c) seen)) /\
  NoDup (map fst cats) /\
  bucketSizes cats = List.length seen.

(** What the loop maintains on [translated]: the labels seen, each with
    its name. *)
Definition translatedInv (seen : list CR.t)
           (tr : list (string * Value)) : Prop :=
  forall name,
    mapGet tr name =
    if existsb (hasLabel name) seen
    then Some (SmartCaptionGenerator.getKoreanName name) else None.

(** [d] names the first entry of [cats] that attains the highest value of
    [mean]. *)
Definition firstHighestBy (mean : list CR.t -> Q)
           (cats : list (string * list CR.t)) (d : string) : Prop :=
  exists pre rs post,
    cats = (pre ++ (d, rs) :: post)%list /\
    (forall c r, In (c, r) pre -> mean r < mean rs) /\
    (forall c r, In (c, r) post -> mean r <= mean rs).

(** [d] names an entry of [cats] whose value of [mean] no entry
    exceeds. *)
Definition highestBy (mean : list CR.t -> Q)
           (cats : list (string * list CR.t)) (d : string) : Prop :=
  exists rs,
    In (d, rs) cats /\ forall c r, In (c, r) cats -> mean r <= mean rs.

(** What the loop of [getDominantCategory] maintains over the entries
    [seen] so far, for the means it computes. *)
Definition dominantInvBy (mean : list CR.t -> Q)
           (seen : list (string * list CR.t)) (acc : Q * string) : Prop :=
  (snd acc = "unknown" /\ fst acc = 0 /\
   forall c r, In (c, r) seen -> mean r <= 0)
  \/
  (exists pre rs post,
      seen = (pre ++ (snd acc, rs) :: post)%list /\
      mean rs = fst acc /\
      0 < fst acc /\
      (forall c r, In (c, r) pre -> mean r < fst acc) /\
      (forall c r, In (c, r) post -> mean r <= fst acc)).

(** The top records fall in one category other than "unknown", and the
    mean computed for it is not positive. *)
Definition zeroSingleCategoryBy (arith : Arithmetic.t)
           (classifications : list CR.t) : Prop :=
  exists c rs,
    SmartCaptionGenerator.categorized
      (WithArithmetic.analyzeClassifications arith classifications)
    = [(c, rs)] /\
    c <> "unknown" /\
    WithArithmetic.avgConfidence arith rs <= 0.

(** The binary64 number written [q] in decimal. *)
Definition double (q : Q) : Q := Arithmetic.round q.

(** Two animals whose rounded mean equals the confidence of the one
    fruit, while their exact mean is below it. *)
Definition roundingExample : list (string * list CR.t) :=
  [ ("animals",
     [ {| CR.className := "golden_retriever";
          CR.probability := double 0.009; CR.confidence := double 0.009 |};
       {| CR.className := "beagle";
          CR.probability := double 0.003; CR.confidence := double 0.003 |} ]);
    ("food",
     [ {| CR.className := "banana";
          CR.probability := double 0.006;
          CR.confidence := double 0.006 |} ]) ].

(** Two cats, the first with the smallest positive binary64 number as
    confidence: half of it rounds to zero. *)
Definition underflowExample : list CR.t :=
  [ {| CR.className := "tabby";
       CR.probability := double (5 # (10 ^ 324));
       CR.confidence := double (5 # (10 ^ 324)) |};
    {| CR.className := "tiger"; CR.probability := 0; CR.confidence := 0 |} ].

(** The names the mixed sentence collects: of every category, the second
    and third record. *)
Definition mixedOthers (a : SmartCaptionGenerator.Analysis) : list Value :=
  flat_map
    (fun entry =>
       SmartCaptionGenerator.pushTranslated
         (SmartCaptionGenerator.translated a) (slice 1 3 (snd entry)))
    (SmartCaptionGenerator.categorized a).

(** Higher probability first, and among equal probabilities the lower
    index first. *)
Definition lexDesc (a b : Q * nat) : Prop :=
  fst b < fst a \/ (fst b == fst a /\ (snd a < snd b)%nat).

(** The end index [slice] uses for a list of length [len]. *)
Definition sliceEnd (stop len : Z) : Z :=
  if (stop <? 0)%Z then Z.max (len + stop) 0 else Z.min stop len.

(** The separator of [split]. *)
Definition newlineString : string := String ImageClassifier.newline EmptyString.

(** The line holds no line feed. *)
Definition hasNoNewline (line : string) : Prop :=
  forall n, String.get n line <> Some ImageClassifier.newline.

(** What [classifyImage] throws for a failure [error]. *)
Definition classificationFailure (error : Thrown) : Thrown :=
  ImageAnalysisError
    ("이미지 분류 중 오류가 발생했습니다: " ++ messageOrUnknown error)
    "CLASSIFICATION_FAILED".

(** What [analyzeImage] throws for a failure [error]. *)
Definition analysisFailure (error : Thrown) : Thrown :=
  if instanceofImageAnalysisError error then error
  else ImageAnalysisError
         ("이미지 분석 중 오류가 발생했습니다: " ++ messageOrUnknown error)
         "ANALYSIS_FAILED".

(** A step of [classifyImage] fails with [error]: loading the model, or,
    the model being loaded, preprocessing the image, or, the tensor being
    there, the classification. *)
Definition classifyFails (w : ImageClassifier.World) (g : Index.Global)
           (imageInput : ImageClassifier.ImageInput)
           (options : Index.AnalyzeImageOptions) (error : Thrown) : Prop :=
  let loaded :=
    Index.ensureLoaded w (Index.ensureClassifier g)
                       (Index.modelOptions options) in
  let image :=
    ImageClassifier.processImage w imageInput (Index.targetSize options)
                                 (Index.normalize options) in
  fst loaded = Throw error \/
  (fst loaded = Normal tt /\ image = Throw error) \/
  (exists tensor,
      fst loaded = Normal tt /\ image = Normal tensor /\
      ImageClassifier.classify (snd loaded) tensor
                               (Index.maxPredictionsOr5 options)
      = Throw error).

(** A step of [analyzeImage] fails with [error]: one of the above, or,
    the records being there, the caption. *)
Definition analyzeFails (w : ImageClassifier.World) (g : Index.Global)
           (imageInput : ImageClassifier.ImageInput)
           (options : Index.AnalyzeImageOptions) (error : Thrown) : Prop :=
  classifyFails w g imageInput options error \/
  (exists tensor classifications,
      fst (Index.ensureLoaded w (Index.ensureClassifier g)
                              (Index.modelOptions options)) = Normal tt /\
      ImageClassifier.processImage w imageInput (Index.targetSize options)
                                   (Index.normalize options)
      = Normal tensor /\
      ImageClassifier.classify
        (snd (Index.ensureLoaded w (Index.ensureClassifier g)
                                 (Index.modelOptions options)))
        tensor (Index.maxPredictionsOr5 options)
      = Normal classifications /\
      SmartCaptionGenerator.generateSmartCaption
        (ImageClassifier.host w) classifications = Throw error).

(** A string of white-space characters only. *)
Inductive allWhite : string -> Prop :=
| allWhite_nil : allWhite EmptyString
| allWhite_cons (ws s : string) :
    In ws ImageClassifier.whiteSpace -> allWhite s -> allWhite (ws ++ s).

(** No white-space character opens the string. *)
Definition noWhiteStart (s : string) : Prop :=
  forall ws rest, In ws ImageClassifier.whiteSpace -> s <> ws ++ rest.

(** No white-space character closes the string. *)
Definition noWhiteEnd (s : string) : Prop :=
  forall pre ws, In ws ImageClassifier.whiteSpace -> s <> pre ++ ws.

(** A label file of two lines that opens with U+00A0 and closes with
    U+3000 and a line feed. *)
Definition paddedLabels : string :=
  ImageClassifier.bytes [194; 160]%nat
  ++ "tench" ++ newlineString ++ "goldfish"
  ++ ImageClassifier.bytes [227; 128; 128]%nat ++ newlineString.

(** A world where the model loads and the label file is that one. *)
Definition paddedLabelsWorld : ImageClassifier.World :=
  {| ImageClassifier.host := exampleHost;
     ImageClassifier.loadLayersModel := fun _ => Normal identityModel;
     ImageClassifier.fetch :=
       fun _ => ImageClassifier.FetchResponse
                  true 200 "OK" (Normal paddedLabels);
     ImageClassifier.processImage :=
       fun _ _ _ => Normal {| ImageClassifier.tensorData := [] |} |}.

(** A world whose browser gives no 2D context. *)
Definition brokenCanvasWorld : ImageClassifier.World :=
  {| ImageClassifier.host := exampleHost;
     ImageClassifier.loadLayersModel := fun _ => Normal identityModel;
     ImageClassifier.fetch :=
       fun _ => ImageClassifier.FetchRejected (ErrorObj "Failed to fetch");
     ImageClassifier.processImage :=
       fun _ _ _ =>
         Throw (ErrorObj "Canvas 컨텍스트를 생성할 수 없습니다.") |}.

(** A model that answers every image with the same probabilities. *)
Definition constantModel (probabilities : list Q)
  : ImageClassifier.LayersModel :=
  {| ImageClassifier.predict :=
       fun _ => Normal {| ImageClassifier.tensorData := probabilities |} |}.

(** A world with that model and a three-line label file. *)
Definition constantWorld (probabilities : list Q) : ImageClassifier.World :=
  {| ImageClassifier.host := exampleHost;
     ImageClassifier.loadLayersModel :=
       fun _ => Normal (constantModel probabilities);
     ImageClassifier.fetch :=
       fun _ => ImageClassifier.FetchResponse
                  true 200 "OK" (Normal "tench
goldfish
golden_retriever
");
     ImageClassifier.processImage :=
       fun _ _ _ => Normal {| ImageClassifier.tensorData := [] |} |}.

(** A loaded classifier with two labels whose model ranks four classes,
    two of them equally. *)
Definition exampleClassifier : ImageClassifier.t :=
  {| ImageClassifier.model := Some (constantModel [0.1; 0.7; 0.2; 0.7]);
     ImageClassifier.isLoading := false;
     ImageClassifier.classNames := ["tench"; "goldfish"] |}.

(* ================================================================== *)
(** * Properties *)

(** ** Numbers and strings *)

Lemma gt_true_iff (a b : Q) : gt a b = true <-> b < a.
Proof.
  unfold gt. rewrite negb_true_iff. split; intro H.
  - apply Qnot_le_lt. intro L. apply Qle_bool_iff in L. congruence.
  - destruct (Qle_bool a b) eqn:E; [|reflexivity].
    apply Qle_bool_iff in E. exfalso. exact (Qlt_not_le _ _ H E).
Qed.

Lemma gt_false_iff (a b : Q) : gt a b = false <-> a <= b.
Proof.
  unfold gt. rewrite negb_false_iff. apply Qle_bool_iff.
Qed.

Lemma includes_In (l : list string) (s : string) :
  includes l s = true <-> In s l.
Proof.
  unfold includes. rewrite existsb_exists. split.
  - intros [x [Hin Heq]]. apply String.eqb_eq in Heq. now subst.
  - intro Hin. exists s. split; [assumption | apply String.eqb_refl].
Qed.

Lemma includes_not_In (l : list string) (s : string) :
  includes l s = false <-> ~ In s l.
Proof.
  rewrite <- includes_In. destruct (includes l s); split; intro H;
    congruence.
Qed.

Lemma own_In (o : list (string * string)) (key v : string) :
  own o key = Some v -> In (key, v) o.
Proof.
  induction o as [|[k w] o IH]; simpl; [discriminate|].
  destruct (key =? k) eqn:E.
  - intro H. injection H as ->. apply String.eqb_eq in E. subst. now left.
  - intro H. right. now apply IH.
Qed.

(** ** The translation table *)

Lemma KOREAN_TRANSLATIONS_nonempty :
  forallb (fun kv => negb (snd kv =? EmptyString))
          SmartCaptionGenerator.KOREAN_TRANSLATIONS = true.
Proof. reflexivity. Qed.

(** A label of the table is translated by its entry. *)
Lemma getKoreanName_known (label korean : string) :
  own SmartCaptionGenerator.KOREAN_TRANSLATIONS label = Some korean ->
  SmartCaptionGenerator.getKoreanName label = Str korean.
Proof.
  intro H. unfold SmartCaptionGenerator.getKoreanName, get. rewrite H.
  apply own_In in H.
  pose proof KOREAN_TRANSLATIONS_nonempty as N.
  rewrite forallb_forall in N. specialize (N _ H). simpl in N.
  unfold or. simpl. now rewrite N.
Qed.

(** A label outside the table that names no inherited member falls back to
    the underscore replacement (the empty label too: both operands of [||]
    are then the empty string). *)
Lemma getKoreanName_fallback (label : string) :
  own SmartCaptionGenerator.KOREAN_TRANSLATIONS label = None ->
  ~ In label objectPrototypeKeys ->
  SmartCaptionGenerator.getKoreanName label = Str (replaceUnderscores label).
Proof.
  intros H N. unfold SmartCaptionGenerator.getKoreanName, get. rewrite H.
  apply includes_not_In in N. rewrite N. reflexivity.
Qed.

(** A label outside the table that names an inherited member yields that
    member, whatever the declared return type says. *)
Lemma getKoreanName_inherited (label : string) :
  own SmartCaptionGenerator.KOREAN_TRANSLATIONS label = None ->
  In label objectPrototypeKeys ->
  SmartCaptionGenerator.getKoreanName label = Builtin label.
Proof.
  intros H N. unfold SmartCaptionGenerator.getKoreanName, get. rewrite H.
  apply includes_In in N. rewrite N. reflexivity.
Qed.

(** C5, at the label ["constructor"]: the label is not in the translation
    table, and [getKoreanName] returns the member inherited from
    [Object.prototype], not the label with underscores replaced. *)
Theorem getKoreanName_constructor :
  own SmartCaptionGenerator.KOREAN_TRANSLATIONS "constructor" = None /\
  SmartCaptionGenerator.getKoreanName "constructor" = Builtin "constructor" /\
  SmartCaptionGenerator.getKoreanName "constructor"
    <> Str (replaceUnderscores "constructor").
Proof.
  repeat split; try reflexivity. discriminate.
Qed.

(** ** The category table *)

Section FirstCategory.
Variable table : list (string * list string).
Variable className : string.

Lemma firstCategory_none :
  (forall c os, In (c, os) table -> ~ In className os) ->
  SmartCaptionGenerator.firstCategory table className = "unknown".
Proof.
  induction table as [|[c os] rest IH]; simpl; intro H; [reflexivity|].
  assert (E : includes os className = false).
  { apply includes_not_In. apply (H c). now left. }
  rewrite E. apply IH. intros c' os' Hin. apply (H c'). now right.
Qed.

Lemma firstCategory_split pre category objects post :
  table = (pre ++ (category, objects) :: post)%list ->
  In className objects ->
  (forall c os, In (c, os) pre -> ~ In className os) ->
  SmartCaptionGenerator.firstCategory table className = category.
Proof.
  intros -> Hin. induction pre as [|[c os] pre IH]; simpl; intro H.
  - apply includes_In in Hin. now rewrite Hin.
  - assert (E : includes os className = false).
    { apply includes_not_In. apply (H c). now left. }
    rewrite E. apply IH. intros c' os' Hin'. apply (H c'). now right.
Qed.

Lemma firstCategory_inv :
  (SmartCaptionGenerator.firstCategory table className = "unknown" /\
   forall c os, In (c, os) table -> ~ In className os) \/
  (exists pre objects post,
      table = (pre ++ (SmartCaptionGenerator.firstCategory table className,
                       objects) :: post)%list /\
      In className objects /\
      forall c os, In (c, os) pre -> ~ In className os).
Proof.
  induction table as [|[c os] rest IH]; simpl.
  - left. split; [reflexivity | intros ? ? []].
  - destruct (includes os className) eqn:E.
    + right. exists [], os, rest. repeat split.
      * now apply includes_In.
      * intros ? ? [].
    + apply includes_not_In in E. destruct IH as [[U N] | [pre [o [post [S [I N]]]]]].
      * left. split; [assumption|]. intros c' os' [Heq | Hin].
        -- injection Heq as <- <-. assumption.
        -- now apply (N c').
      * right. exists ((c, os) :: pre), o, post. repeat split.
        -- simpl. now rewrite <- S.
        -- assumption.
        -- intros c' os' [Heq | Hin].
           ++ injection Heq as <- <-. assumption.
           ++ now apply (N c').
Qed.
End FirstCategory.

(** C7: the table lists the seven categories in the fixed order; a label
    gets the first category of that order whose member list contains it, and
    gets "unknown" exactly when no member list contains it. *)
Theorem getObjectCategory_first_match (className : string) :
  map fst SmartCaptionGenerator.OBJECT_CATEGORIES =
    ["animals"; "food"; "vehicles"; "electronics"; "furniture"; "clothing";
     "sports"] /\
  (forall pre category objects post,
      SmartCaptionGenerator.OBJECT_CATEGORIES
        = (pre ++ (category, objects) :: post)%list ->
      In className objects ->
      (forall c os, In (c, os) pre -> ~ In className os) ->
      SmartCaptionGenerator.getObjectCategory className = category) /\
  ((forall c os, In (c, os) SmartCaptionGenerator.OBJECT_CATEGORIES ->
                 ~ In className os) <->
   SmartCaptionGenerator.getObjectCategory className = "unknown").
Proof.
  split; [reflexivity|]. split.
  - intros pre category objects post S I N.
    now apply (firstCategory_split _ _ pre category objects post).
  - split; [apply firstCategory_none|].
    unfold SmartCaptionGenerator.getObjectCategory. intro U.
    destruct (firstCategory_inv SmartCaptionGenerator.OBJECT_CATEGORIES
                                className)
      as [[_ N] | [pre [o [post [S [I N]]]]]]; [assumption|].
    exfalso. rewrite U in S.
    assert (Hin : In "unknown"
                     (map fst SmartCaptionGenerator.OBJECT_CATEGORIES)).
    { rewrite S, map_app. apply in_or_app. right. now left. }
    simpl in Hin.
    repeat (destruct Hin as [Hin | Hin]; [discriminate|]). exact Hin.
Qed.

(** A use of C7 on the table: "hot_dog" is found in the second category,
    "food", after a first category that does not list it. *)
Lemma getObjectCategory_first_match_witness :
  SmartCaptionGenerator.getObjectCategory "hot_dog" = "food".
Proof.
  destruct (getObjectCategory_first_match "hot_dog") as [_ [F _]].
  eapply (F [_] "food" _ _).
  - reflexivity.
  - simpl. tauto.
  - intros c os [E | []]. injection E as <- <-. simpl.
    intro H. repeat (destruct H as [H | H]; [discriminate|]). exact H.
Defined.

(** C10: "limousine", "truck", "airplane" and "tennis_ball" each belong to
    a category of the table, have no entry in the translation table, and
    are named by their underscore-replaced English label. *)
Theorem category_member_without_translation :
  (exists label,
      SmartCaptionGenerator.getObjectCategory label <> "unknown" /\
      own SmartCaptionGenerator.KOREAN_TRANSLATIONS label = None /\
      SmartCaptionGenerator.getKoreanName label
        = Str (replaceUnderscores label)) /\
  Forall (fun label =>
            SmartCaptionGenerator.getObjectCategory label <> "unknown" /\
            own SmartCaptionGenerator.KOREAN_TRANSLATIONS label = None /\
            SmartCaptionGenerator.getKoreanName label
              = Str (replaceUnderscores label))
         ["limousine"; "truck"; "airplane"; "tennis_ball"] /\
  SmartCaptionGenerator.getObjectCategory "limousine" = "vehicles" /\
  SmartCaptionGenerator.getObjectCategory "tennis_ball" = "sports" /\
  SmartCaptionGenerator.getKoreanName "tennis_ball" = Str "tennis ball".
Proof.
  split.
  - exists "tennis_ball". repeat split; try reflexivity. discriminate.
  - split; [|repeat split; reflexivity].
    repeat constructor; try reflexivity; discriminate.
Qed.

(** ** The caption selector *)

(** C1: the empty list gives the fixed sentence, an empty list and
    confidence 0, as a normal return. *)
Theorem generateSmartCaption_empty (host : Host) :
  SmartCaptionGenerator.generateSmartCaption host [] =
  Normal {| AltTextResult.altText := "분석할 수 없는 이미지입니다";
            AltTextResult.classifications := [];
            AltTextResult.confidence := 0 |}.
Proof. reflexivity. Qed.

(** ** The dominant category *)

Lemma dominantStep_inv seen acc entry :
  dominantInv seen acc ->
  dominantInv (seen ++ [entry]) (SmartCaptionGenerator.dominantStep acc entry).
Proof.
  destruct acc as [m d], entry as [c rs].
  unfold SmartCaptionGenerator.dominantStep.
  destruct (gt (SmartCaptionGenerator.avgConfidence rs) m) eqn:G.
  - apply gt_true_iff in G. intro I. right.
    exists seen, rs, []. simpl. repeat split.
    + destruct I as [[_ [E _]] | [_ [_ [_ [_ [_ [P _]]]]]]]; simpl in *.
      * now rewrite E in G.
      * eapply Qlt_trans; eassumption.
    + intros c' r Hin.
      destruct I as [[_ [E N]] | [pre [rs0 [post [S [A [P [L R]]]]]]]];
        simpl in *.
      * eapply Qle_lt_trans; [apply (N c' r Hin)|]. now rewrite E in G.
      * subst seen. apply in_app_or in Hin.
        destruct Hin as [Hin | [Heq | Hin]].
        -- eapply Qlt_trans; [apply (L c' r Hin) | assumption].
        -- injection Heq as <- <-. now rewrite A.
        -- eapply Qle_lt_trans; [apply (R c' r Hin) | assumption].
    + intros ? ? [].
  - apply gt_false_iff in G.
    intros [[U [E N]] | [pre [rs0 [post [S [A [P [L R]]]]]]]]; simpl in *.
    + left. simpl. repeat split; try assumption.
      intros c' r Hin. apply in_app_or in Hin.
      destruct Hin as [Hin | [Heq | []]].
      * now apply (N c').
      * injection Heq as <- <-. now rewrite E in G.
    + right. exists pre, rs0, (post ++ [(c, rs)])%list. simpl.
      repeat split; try assumption.
      * subst seen. now rewrite <- app_assoc.
      * intros c' r Hin. apply in_app_or in Hin.
        destruct Hin as [Hin | [Heq | []]].
        -- now apply (R c').
        -- injection Heq as <- <-. assumption.
Qed.

Lemma dominant_fold_inv cats : forall seen acc,
  dominantInv seen acc ->
  dominantInv (seen ++ cats)
              (fold_left SmartCaptionGenerator.dominantStep cats acc).
Proof.
  induction cats as [|entry cats IH]; intros seen acc I; simpl.
  - now rewrite app_nil_r.
  - replace (seen ++ entry :: cats)%list
      with ((seen ++ [entry]) ++ cats)%list
      by (now rewrite <- app_assoc).
    apply IH. now apply dominantStep_inv.
Qed.

Lemma getDominantCategory_inv cats :
  dominantInv cats
    (fold_left SmartCaptionGenerator.dominantStep cats (0, "unknown")).
Proof.
  apply (dominant_fold_inv cats [] (0, "unknown")).
  left. simpl. repeat split. intros ? ? [].
Qed.

Lemma firstHighestMean_highestMean cats d :
  firstHighestMean cats d -> highestMean cats d.
Proof.
  intros [pre [rs [post [-> [L R]]]]]. exists rs. split.
  - apply in_or_app. right. now left.
  - intros c r Hin. apply in_app_or in Hin.
    destruct Hin as [Hin | [Heq | Hin]].
    + apply Qlt_le_weak. now apply (L c).
    + injection Heq as <- <-. apply Qle_refl.
    + now apply (R c).
Qed.

Lemma getDominantCategory_positive cats :
  (exists c rs, In (c, rs) cats /\ 0 < SmartCaptionGenerator.avgConfidence rs) ->
  firstHighestMean cats (SmartCaptionGenerator.getDominantCategory cats).
Proof.
  intros [c [rs [Hin P]]]. unfold SmartCaptionGenerator.getDominantCategory.
  destruct (getDominantCategory_inv cats)
    as [[_ [_ N]] | [pre [rs0 [post [S [A [_ [L R]]]]]]]].
  - exfalso. apply (Qlt_not_le _ _ P). now apply (N c).
  - exists pre, rs0, post. rewrite A. auto.
Qed.

Lemma getDominantCategory_unknown cats :
  (forall c rs, In (c, rs) cats -> SmartCaptionGenerator.avgConfidence rs <= 0) ->
  SmartCaptionGenerator.getDominantCategory cats = "unknown".
Proof.
  intro N. unfold SmartCaptionGenerator.getDominantCategory.
  destruct (getDominantCategory_inv cats)
    as [[U _] | [pre [rs0 [post [S [A [P [L R]]]]]]]]; [assumption|].
  exfalso. apply (Qlt_not_le _ _ P). rewrite <- A.
  apply (N (snd (fold_left SmartCaptionGenerator.dominantStep cats (0, "unknown")))).
  rewrite S at 2. apply in_or_app. right. now left.
Qed.

(** ** A single record *)

Lemma avgConfidence_single (r : CR.t) :
  SmartCaptionGenerator.avgConfidence [r] == CR.confidence r.
Proof.
  unfold SmartCaptionGenerator.avgConfidence,
    SmartCaptionGenerator.sumConfidence. simpl. field.
Qed.

Lemma analyzeClassifications_single (r : CR.t) :
  SmartCaptionGenerator.analyzeClassifications [r] =
  let category := SmartCaptionGenerator.getObjectCategory (CR.className r) in
  {| SmartCaptionGenerator.topResult := Some r;
     SmartCaptionGenerator.categorized := [(category, [r])];
     SmartCaptionGenerator.translated :=
       [(CR.className r,
         SmartCaptionGenerator.getKoreanName (CR.className r))];
     SmartCaptionGenerator.hasMultipleCategories := false;
     SmartCaptionGenerator.dominantCategory :=
       if gt (SmartCaptionGenerator.avgConfidence [r]) 0 then category
       else "unknown" |}.
Proof.
  unfold SmartCaptionGenerator.analyzeClassifications.
  change (slice 0 3 [r]) with [r].
  unfold fold_left, SmartCaptionGenerator.categorizeStep.
  generalize (SmartCaptionGenerator.getObjectCategory (CR.className r))
    as category.
  generalize (SmartCaptionGenerator.getKoreanName (CR.className r))
    as koreanName.
  intros koreanName category. cbn [mapHas mapGet mapSet].
  rewrite String.eqb_refl. cbn [mapHas mapGet mapSet app].
  unfold SmartCaptionGenerator.getDominantCategory. cbn.
  destruct (gt (SmartCaptionGenerator.avgConfidence [r]) 0); reflexivity.
Qed.

Lemma generateSmartCaption_single_positive (host : Host) (r : CR.t) :
  0 < CR.confidence r ->
  SmartCaptionGenerator.generateSmartCaption host [r] =
  Normal
    {| AltTextResult.altText :=
         SmartCaptionGenerator.generateSingleObjectCaption
           host
           (or (SmartCaptionGenerator.getKoreanName (CR.className r))
               (Str (CR.className r)))
           (CR.confidence r)
           (SmartCaptionGenerator.getObjectCategory (CR.className r));
       AltTextResult.classifications := [r];
       AltTextResult.confidence := CR.confidence r |}.
Proof.
  intro P. unfold SmartCaptionGenerator.generateSmartCaption.
  rewrite analyzeClassifications_single.
  assert (G : gt (SmartCaptionGenerator.avgConfidence [r]) 0 = true).
  { apply gt_true_iff. now rewrite avgConfidence_single. }
  cbv zeta. rewrite G.
  unfold SmartCaptionGenerator.generateContextualCaption.
  cbn [SmartCaptionGenerator.topResult SmartCaptionGenerator.categorized
       SmartCaptionGenerator.translated
       SmartCaptionGenerator.dominantCategory
       SmartCaptionGenerator.hasMultipleCategories
       List.length Nat.eqb mapGet SmartCaptionGenerator.translatedGet bind].
  unfold SmartCaptionGenerator.translatedGet. cbn [mapGet].
  rewrite !String.eqb_refl.
  cbn [List.length Nat.eqb bind]. reflexivity.
Qed.

Lemma generateSmartCaption_single_nonpositive (host : Host) (r : CR.t) :
  CR.confidence r <= 0 ->
  SmartCaptionGenerator.getObjectCategory (CR.className r) <> "unknown" ->
  SmartCaptionGenerator.generateSmartCaption host [r] =
  Throw SmartCaptionGenerator.undefinedLength.
Proof.
  intros P U. unfold SmartCaptionGenerator.generateSmartCaption.
  rewrite analyzeClassifications_single.
  assert (G : gt (SmartCaptionGenerator.avgConfidence [r]) 0 = false).
  { apply gt_false_iff. now rewrite avgConfidence_single. }
  cbv zeta. rewrite G.
  unfold SmartCaptionGenerator.generateContextualCaption.
  cbn [SmartCaptionGenerator.topResult SmartCaptionGenerator.categorized
       SmartCaptionGenerator.translated
       SmartCaptionGenerator.dominantCategory
       SmartCaptionGenerator.hasMultipleCategories
       List.length Nat.eqb mapGet SmartCaptionGenerator.translatedGet bind].
  apply String.eqb_neq in U. rewrite String.eqb_sym in U. rewrite U.
  reflexivity.
Qed.

Lemma getObjectCategory_animals (className : string) :
  SmartCaptionGenerator.getObjectCategory className = "animals" ->
  exists objects,
    hd_error SmartCaptionGenerator.OBJECT_CATEGORIES
      = Some ("animals", objects) /\ In className objects.
Proof.
  intro H. eexists. split; [reflexivity|].
  apply includes_In.
  unfold SmartCaptionGenerator.getObjectCategory,
    SmartCaptionGenerator.OBJECT_CATEGORIES,
    SmartCaptionGenerator.firstCategory in H.
  match type of H with
  | (if ?b then _ else _) = _ => destruct b eqn:E; [reflexivity|]
  end.
  repeat match type of H with
         | (if ?b then _ else _) = _ => destruct b; [discriminate|]
         end.
  discriminate.
Qed.

(** C4: a single record whose label is in the "animals" category and whose
    probability (the [confidence] field, the one the selector reads) is
    above 0.8 gets the "cute animal" sentence around the Korean name the
    translation table gives the label, with the input list and the
    record's confidence; for golden_retriever at 0.92 the sentence is
    "귀여운 골든 리트리버의 사진입니다" and the confidence 0.92. *)
Theorem single_animal_high_confidence_caption (host : Host) :
  (forall r : CR.t,
      SmartCaptionGenerator.getObjectCategory (CR.className r) = "animals" ->
      0.8 < CR.confidence r ->
      exists korean,
        own SmartCaptionGenerator.KOREAN_TRANSLATIONS (CR.className r)
          = Some korean /\
        SmartCaptionGenerator.generateSmartCaption host [r] =
        Normal {| AltTextResult.altText :=
                    "귀여운 " ++ korean ++ "의 사진입니다";
                  AltTextResult.classifications := [r];
                  AltTextResult.confidence := CR.confidence r |}) /\
  SmartCaptionGenerator.generateSmartCaption
    host [ {| CR.className := "golden_retriever";
              CR.probability := 0.92; CR.confidence := 0.92 |} ] =
  Normal {| AltTextResult.altText := "귀여운 골든 리트리버의 사진입니다";
            AltTextResult.classifications :=
              [ {| CR.className := "golden_retriever";
                   CR.probability := 0.92; CR.confidence := 0.92 |} ];
            AltTextResult.confidence := 0.92 |}.
Proof.
  split; [|reflexivity].
  intros r A C.
  assert (P : 0 < CR.confidence r)
    by (eapply Qlt_trans; [|exact C]; reflexivity).
  rewrite (generateSmartCaption_single_positive host r P), A.
  unfold SmartCaptionGenerator.generateSingleObjectCaption.
  apply gt_true_iff in C. rewrite C.
  change ("animals" =? "animals") with true. cbv iota.
  destruct (getObjectCategory_animals _ A) as [objects [E Hin]].
  injection E as <-.
  destruct r as [cn p c]. cbn [CR.className CR.confidence] in *.
  simpl in Hin.
  repeat (destruct Hin as [<- | Hin]; [eexists; split; reflexivity|]).
  destruct Hin.
Qed.

(** C4 on [beagle] at 0.9. *)
Lemma single_animal_high_confidence_caption_witness :
  exists korean,
    own SmartCaptionGenerator.KOREAN_TRANSLATIONS "beagle" = Some korean /\
    SmartCaptionGenerator.generateSmartCaption
      exampleHost [ {| CR.className := "beagle";
                       CR.probability := 0.9; CR.confidence := 0.9 |} ] =
    Normal {| AltTextResult.altText := "귀여운 " ++ korean ++ "의 사진입니다";
              AltTextResult.classifications :=
                [ {| CR.className := "beagle";
                     CR.probability := 0.9; CR.confidence := 0.9 |} ];
              AltTextResult.confidence := 0.9 |}.
Proof.
  apply (proj1 (single_animal_high_confidence_caption exampleHost)
               {| CR.className := "beagle";
                  CR.probability := 0.9; CR.confidence := 0.9 |}).
  - reflexivity.
  - reflexivity.
Defined.

(** ** Top-K extraction *)

Section Sorting.
Context {A : Type}.
Variable key : A -> Q.

(** The comparator of the source: [(a, b) => key b - key a]. *)
Let cmp (a b : A) : Q := key b - key a.
Let desc (a b : A) : Prop := key b <= key a.

Lemma insertBy_perm (c : A -> A -> Q) (x : A) (l : list A) :
  Permutation (insertBy c x l) (x :: l).
Proof.
  induction l as [|y l IH]; simpl; [reflexivity|].
  destruct (Qle_bool (c x y) 0); [reflexivity|].
  rewrite IH. apply perm_swap.
Qed.

Lemma sort_perm (c : A -> A -> Q) (l : list A) :
  Permutation (sort c l) l.
Proof.
  induction l as [|x l IH]; simpl; [reflexivity|].
  rewrite insertBy_perm. now constructor.
Qed.

Lemma insertBy_desc (x : A) (l : list A) :
  StronglySorted desc l -> StronglySorted desc (insertBy cmp x l).
Proof.
  induction 1 as [|y l S IH F]; simpl.
  - repeat constructor.
  - destruct (Qle_bool (cmp x y) 0) eqn:E.
    + apply Qle_bool_iff in E. unfold cmp in E.
      assert (L : key y <= key x) by lra.
      constructor; [now constructor|]. constructor; [exact L|].
      eapply Forall_impl; [|exact F]. unfold desc. intros z Hz. lra.
    + assert (L : key x <= key y).
      { destruct (Qlt_le_dec (key y) (key x)) as [Lt | Le]; [|exact Le].
        assert (T : Qle_bool (cmp x y) 0 = true).
        { apply Qle_bool_iff. unfold cmp. lra. }
        congruence. }
      constructor; [exact IH|].
      eapply Permutation_Forall;
        [symmetry; apply insertBy_perm|]. now constructor.
Qed.

Lemma sort_desc (l : list A) : StronglySorted desc (sort cmp l).
Proof.
  induction l as [|x l IH]; simpl; [constructor|].
  now apply insertBy_desc.
Qed.

Lemma In_firstn (n : nat) (l : list A) (x : A) :
  In x (firstn n l) -> In x l.
Proof.
  intro H. rewrite <- (firstn_skipn n l). apply in_or_app. now left.
Qed.

Lemma In_skipn (n : nat) (l : list A) (x : A) :
  In x (skipn n l) -> In x l.
Proof.
  intro H. rewrite <- (firstn_skipn n l). apply in_or_app. now right.
Qed.

Lemma StronglySorted_firstn (R : A -> A -> Prop) (n : nat) (l : list A) :
  StronglySorted R l -> StronglySorted R (firstn n l).
Proof.
  intro S. revert n. induction S as [|x l S IH F]; intro n.
  - rewrite firstn_nil. constructor.
  - destruct n; simpl; [constructor|]. constructor; [apply IH|].
    rewrite Forall_forall in *. intros y Hy. apply F.
    now apply (In_firstn n).
Qed.

Lemma StronglySorted_firstn_skipn (R : A -> A -> Prop) (n : nat)
      (l : list A) :
  StronglySorted R l ->
  forall x y, In x (firstn n l) -> In y (skipn n l) -> R x y.
Proof.
  intro S. revert n. induction S as [|z l S IH F]; intros n x y Hx Hy.
  - rewrite firstn_nil in Hx. destruct Hx.
  - destruct n; simpl in *; [destruct Hx|].
    destruct Hx as [<- | Hx].
    + rewrite Forall_forall in F. apply F.
      now apply (In_skipn n).
    + now apply (IH n).
Qed.
End Sorting.

Lemma slice_prefix {A} (stop : Z) (l : list A) :
  (0 <= stop)%Z ->
  slice 0 stop l = firstn (Nat.min (Z.to_nat stop) (List.length l)) l.
Proof.
  intro H. unfold slice.
  replace (0 <? 0)%Z with false by reflexivity.
  replace (stop <? 0)%Z with false by (symmetry; apply Z.ltb_ge; lia).
  replace (Z.to_nat (Z.min 0 (Z.of_nat (List.length l)))) with 0%nat by lia.
  simpl skipn. f_equal. lia.
Qed.

Lemma indexed_from_In (l : list Q) : forall (s : nat) (p : Q) (i : nat),
  In (p, i) (combine l (seq s (List.length l))) ->
  (s <= i < s + List.length l)%nat /\ nth_error l (i - s) = Some p.
Proof.
  induction l as [|q l IH]; intros s p i H; simpl in H; [destruct H|].
  destruct H as [E | H].
  - injection E as -> ->. split; [simpl; lia|].
    now rewrite Nat.sub_diag.
  - apply IH in H. destruct H as [B N]. split; [simpl; lia|].
    replace (i - s)%nat with (S (i - S s)) by lia. exact N.
Qed.

Lemma indexed_from_snd (l : list Q) : forall s : nat,
  map snd (combine l (seq s (List.length l))) = seq s (List.length l).
Proof.
  induction l as [|q l IH]; intro s; simpl; [reflexivity|].
  now rewrite IH.
Qed.

Lemma indexed_In (probabilities : list Q) (p : Q) (i : nat) :
  In (p, i) (ImageClassifier.indexed probabilities) ->
  nth_error probabilities i = Some p.
Proof.
  intro H. apply indexed_from_In in H. destruct H as [_ H].
  now rewrite Nat.sub_0_r in H.
Qed.

Lemma indexed_snd (probabilities : list Q) :
  map snd (ImageClassifier.indexed probabilities)
  = seq 0 (List.length probabilities).
Proof. apply indexed_from_snd. Qed.

Lemma indexed_complete (probabilities : list Q) (j : nat) :
  (j < List.length probabilities)%nat ->
  exists p, In (p, j) (ImageClassifier.indexed probabilities).
Proof.
  intro H.
  assert (I : In j (map snd (ImageClassifier.indexed probabilities))).
  { rewrite indexed_snd. apply in_seq. lia. }
  apply in_map_iff in I. destruct I as [[p j'] [E I]]. simpl in E. subst j'.
  now exists p.
Qed.

Lemma sortedEntries_In (probabilities : list Q) (e : Q * nat) :
  In e (sortedEntries probabilities) ->
  nth_error probabilities (snd e) = Some (fst e).
Proof.
  intro H. apply indexed_In. rewrite <- surjective_pairing.
  eapply Permutation_in; [apply sort_perm | exact H].
Qed.

Lemma sortedEntries_length (probabilities : list Q) :
  List.length (sortedEntries probabilities) = List.length probabilities.
Proof.
  unfold sortedEntries. rewrite (Permutation_length (sort_perm _ _)).
  unfold ImageClassifier.indexed.
  rewrite length_combine, length_seq. apply Nat.min_id.
Qed.

Lemma sortedEntries_NoDup (probabilities : list Q) :
  NoDup (map snd (sortedEntries probabilities)).
Proof.
  eapply Permutation_NoDup.
  - apply Permutation_map. symmetry. apply sort_perm.
  - rewrite indexed_snd. apply seq_NoDup.
Qed.

Lemma StronglySorted_map {A B} (f : A -> B) (R : B -> B -> Prop)
      (l : list A) :
  StronglySorted (fun a b => R (f a) (f b)) l -> StronglySorted R (map f l).
Proof.
  induction 1 as [|x l S IH F]; simpl; constructor; [exact IH|].
  apply Forall_map. exact F.
Qed.

Lemma topResults_entries (names : list string) (probabilities : list Q)
      (K : Z) :
  (0 <= K)%Z ->
  ImageClassifier.topResults names probabilities K =
  map (recordAt names probabilities)
      (map snd (firstn (Nat.min (Z.to_nat K) (List.length probabilities))
                       (sortedEntries probabilities))).
Proof.
  intro H. unfold ImageClassifier.topResults.
  fold (sortedEntries probabilities).
  rewrite (slice_prefix K _ H), sortedEntries_length, map_map.
  apply map_ext_in. intros e He. apply In_firstn in He.
  apply sortedEntries_In in He. unfold recordAt.
  now rewrite (nth_error_nth _ _ 0 He).
Qed.

Lemma topResults_min_sorted_labelled
        (names : list string) (probabilities : list Q) (K : Z) :
  (0 <= K)%Z ->
  let results := ImageClassifier.topResults names probabilities K in
  List.length results = Nat.min (Z.to_nat K) (List.length probabilities) /\
  descending results /\
  exists indices : list nat,
    results = map (recordAt names probabilities) indices /\
    NoDup indices /\
    Forall (fun i => (i < List.length probabilities)%nat) indices /\
    (forall i j, In i indices -> ~ In j indices ->
                 (j < List.length probabilities)%nat ->
                 nth j probabilities 0 <= nth i probabilities 0).
Proof.
  intros H results. subst results.
  set (m := Nat.min (Z.to_nat K) (List.length probabilities)).
  assert (D : StronglySorted (fun a b : Q * nat => fst b <= fst a)
                             (sortedEntries probabilities))
    by apply (sort_desc fst).
  split; [|split].
  - rewrite (topResults_entries _ _ _ H), !length_map, length_firstn.
    rewrite sortedEntries_length. fold m. lia.
  - unfold descending, ImageClassifier.topResults.
    apply StronglySorted_map. simpl.
    rewrite (slice_prefix K _ H).
    apply StronglySorted_firstn. exact D.
  - exists (map snd (firstn m (sortedEntries probabilities))).
    split; [apply (topResults_entries _ _ _ H)|]. split; [|split].
    + rewrite <- firstn_map.
      pose proof (sortedEntries_NoDup probabilities) as N.
      rewrite <- (firstn_skipn m (map snd (sortedEntries probabilities)))
        in N.
      eapply NoDup_app_remove_r. exact N.
    + apply Forall_forall. intros i Hi. apply in_map_iff in Hi.
      destruct Hi as [e [<- He]]. apply In_firstn in He.
      apply sortedEntries_In in He. apply nth_error_Some. congruence.
    + intros i j Hi Hj Lj. apply in_map_iff in Hi.
      destruct Hi as [e [<- He]].
      destruct (indexed_complete probabilities j Lj) as [p Hp].
      assert (Hs : In (p, j) (sortedEntries probabilities)).
      { eapply Permutation_in; [symmetry; apply sort_perm | exact Hp]. }
      rewrite <- (firstn_skipn m (sortedEntries probabilities)) in Hs.
      apply in_app_or in Hs. destruct Hs as [Hs | Hs].
      * exfalso. apply Hj. apply in_map_iff. now exists (p, j).
      * pose proof (StronglySorted_firstn_skipn _ m _ D e (p, j) He Hs)
          as L.
        simpl in L. apply indexed_In in Hp.
        apply In_firstn, sortedEntries_In in He.
        now rewrite (nth_error_nth _ _ 0 Hp), (nth_error_nth _ _ 0 He).
Qed.

Lemma labelAt_spec (names : list string) (i : nat) :
  match nth_error names i with
  | Some s => if s =? EmptyString
              then ImageClassifier.labelAt names i
                   = "Unknown_" ++ indexToString i
              else ImageClassifier.labelAt names i = s
  | None => ImageClassifier.labelAt names i = "Unknown_" ++ indexToString i
  end.
Proof.
  unfold ImageClassifier.labelAt. destruct (nth_error names i) as [s|];
    [destruct (s =? EmptyString)|]; reflexivity.
Qed.

Lemma classify_loaded (c : ImageClassifier.t) (m : ImageClassifier.LayersModel)
      (imageTensor predictions : ImageClassifier.Tensor) (K : Z) :
  ImageClassifier.model c = Some m ->
  ImageClassifier.predict m imageTensor = Normal predictions ->
  ImageClassifier.classify c imageTensor K =
  Normal (ImageClassifier.topResults (ImageClassifier.classNames c)
            (ImageClassifier.tensorData predictions) K).
Proof.
  intros M P. unfold ImageClassifier.classify. now rewrite M, P.
Qed.

(** C3, as the code has it: on a loaded model whose prediction yields the
    probability vector, [classify] with a count [K >= 0] returns
    [min K N] records for a vector of length [N], in descending order of
    probability; they are the records of [min K N] distinct indices of the
    vector, none of the other indices has a higher probability, and each
    record carries the probability at its index and the label at its index
    ([Unknown_<index>] when the list has no label, or an empty one,
    there). *)
Theorem classify_top_results
        (c : ImageClassifier.t) (m : ImageClassifier.LayersModel)
        (imageTensor predictions : ImageClassifier.Tensor) (K : Z) :
  ImageClassifier.model c = Some m ->
  ImageClassifier.predict m imageTensor = Normal predictions ->
  (0 <= K)%Z ->
  let names := ImageClassifier.classNames c in
  let probabilities := ImageClassifier.tensorData predictions in
  exists results,
    ImageClassifier.classify c imageTensor K = Normal results /\
    List.length results
      = Nat.min (Z.to_nat K) (List.length probabilities) /\
    descending results /\
    exists indices : list nat,
      results = map (recordAt names probabilities) indices /\
      NoDup indices /\
      Forall (fun i => (i < List.length probabilities)%nat) indices /\
      (forall i j, In i indices -> ~ In j indices ->
                   (j < List.length probabilities)%nat ->
                   nth j probabilities 0 <= nth i probabilities 0).
Proof.
  intros M P H names probabilities.
  exists (ImageClassifier.topResults names probabilities K).
  split; [now apply (classify_loaded c m)|].
  now apply topResults_min_sorted_labelled.
Qed.

(** A model that answers every input with the same probabilities. *)
Lemma classify_top_results_witness :
  let m := {| ImageClassifier.predict := fun _ =>
                Normal {| ImageClassifier.tensorData := [0.1; 0.7; 0.2] |} |} in
  let c := {| ImageClassifier.model := Some m;
              ImageClassifier.isLoading := false;
              ImageClassifier.classNames := ["tench"; "goldfish"] |} in
  exists results,
    ImageClassifier.classify c {| ImageClassifier.tensorData := [] |} 2
      = Normal results /\
    List.length results = 2%nat /\
    descending results /\
    exists indices : list nat,
      results = map (recordAt ["tench"; "goldfish"] [0.1; 0.7; 0.2]) indices /\
      NoDup indices /\
      Forall (fun i => (i < 3)%nat) indices /\
      (forall i j, In i indices -> ~ In j indices -> (j < 3)%nat ->
                   nth j [0.1; 0.7; 0.2] 0 <= nth i [0.1; 0.7; 0.2] 0).
Proof.
  intros m c.
  apply (classify_top_results
           c m {| ImageClassifier.tensorData := [] |}
           {| ImageClassifier.tensorData := [0.1; 0.7; 0.2] |} 2).
  - reflexivity.
  - reflexivity.
  - lia.
Defined.

(** C3 as stated fails when more records are requested than the vector
    has: five are requested of a one-element vector, one is returned. *)
Lemma classify_fewer_than_requested :
  let m := {| ImageClassifier.predict := fun _ =>
                Normal {| ImageClassifier.tensorData := [0.5] |} |} in
  let c := {| ImageClassifier.model := Some m;
              ImageClassifier.isLoading := false;
              ImageClassifier.classNames := ["tench"] |} in
  exists results,
    ImageClassifier.classify c {| ImageClassifier.tensorData := [] |} 5
      = Normal results /\
    List.length results = 1%nat /\
    List.length results <> Z.to_nat 5.
Proof.
  intros m c. eexists. split; [reflexivity|]. split; [reflexivity|].
  simpl. discriminate.
Qed.

(** ** The dominant category and the returned fields *)

(** C2, at two records of two categories with confidence 0: the records
    span "animals" and "food", and the dominant category is "unknown",
    which is not among them. *)
Theorem getDominantCategory_all_zero :
  let a := SmartCaptionGenerator.analyzeClassifications
             [ {| CR.className := "golden_retriever";
                  CR.probability := 0; CR.confidence := 0 |};
               {| CR.className := "banana";
                  CR.probability := 0; CR.confidence := 0 |} ] in
  map fst (SmartCaptionGenerator.categorized a) = ["animals"; "food"] /\
  SmartCaptionGenerator.hasMultipleCategories a = true /\
  SmartCaptionGenerator.dominantCategory a = "unknown" /\
  ~ highestMean (SmartCaptionGenerator.categorized a)
                (SmartCaptionGenerator.dominantCategory a).
Proof.
  cbv zeta. repeat split.
  intros [rs [Hin _]]. vm_compute in Hin.
  destruct Hin as [E | [E | []]]; discriminate.
Qed.

(** Where the selection does meet C2: as soon as some category of the
    records has a positive mean, the dominant category is the first one
    that attains the highest mean. *)
Lemma dominantCategory_positive (classifications : list CR.t) :
  let a := SmartCaptionGenerator.analyzeClassifications classifications in
  (exists c rs, In (c, rs) (SmartCaptionGenerator.categorized a) /\
                0 < SmartCaptionGenerator.avgConfidence rs) ->
  firstHighestMean (SmartCaptionGenerator.categorized a)
                   (SmartCaptionGenerator.dominantCategory a) /\
  highestMean (SmartCaptionGenerator.categorized a)
              (SmartCaptionGenerator.dominantCategory a).
Proof.
  intros a P.
  assert (F : firstHighestMean (SmartCaptionGenerator.categorized a)
                (SmartCaptionGenerator.dominantCategory a)).
  { subst a. unfold SmartCaptionGenerator.analyzeClassifications in *.
    destruct (fold_left SmartCaptionGenerator.categorizeStep
                (slice 0 3 classifications) ([], [])) as [cats tr].
    simpl in *. now apply getDominantCategory_positive. }
  split; [exact F | now apply firstHighestMean_highestMean].
Qed.

(** Whatever [generateSmartCaption] returns for a non-empty list carries
    the input list and the first record's confidence. *)
Lemma generateSmartCaption_fields (host : Host) (first : CR.t)
      (rest : list CR.t) (result : AltTextResult.t) :
  SmartCaptionGenerator.generateSmartCaption host (first :: rest)
    = Normal result ->
  AltTextResult.classifications result = first :: rest /\
  AltTextResult.confidence result = CR.confidence first.
Proof.
  unfold SmartCaptionGenerator.generateSmartCaption.
  destruct (SmartCaptionGenerator.generateContextualCaption _ _);
    simpl; try discriminate.
  intro H. injection H as <-. now split.
Qed.

Section MapFacts.
Context {V : Type}.

Lemma mapGet_mapSet (m : list (string * V)) (k k' : string) (v : V) :
mapGet (mapSet m k v) k' = if k' =? k then Some v else mapGet m k'.
Proof.
induction m as [|[k0 v0] m IH]; simpl.
- reflexivity.
- destruct (k =? k0) eqn:E; simpl.
  + apply String.eqb_eq in E. subst k0.
    destruct (k' =? k); reflexivity.
  + destruct (k' =? k0) eqn:E'.
    * apply String.eqb_eq in E'. subst k0.
      rewrite String.eqb_sym in E. now rewrite E.
    * exact IH.
Qed.

Lemma mapGet_In (m : list (string * V)) (k : string) (v : V) :
mapGet m k = Some v -> In (k, v) m.
Proof.
induction m as [|[k0 v0] m IH]; simpl; [discriminate|].
destruct (k =? k0) eqn:E.
- intro H. injection H as ->. apply String.eqb_eq in E. subst. now left.
- intro H. right. now apply IH.
Qed.

Lemma In_mapGet (m : list (string * V)) (k : string) (v : V) :
In (k, v) m -> exists v', mapGet m k = Some v'.
Proof.
induction m as [|[k0 v0] m IH]; simpl; [intros []|].
intros [E | H].
- injection E as -> ->. rewrite String.eqb_refl. now eexists.
- destruct (k =? k0); [now eexists | now apply IH].
Qed.
End MapFacts.

Lemma categorizeStep_get cats tr (r : CR.t) (k : string) :
  mapGet (fst (SmartCaptionGenerator.categorizeStep (cats, tr) r)) k =
  if k =? SmartCaptionGenerator.getObjectCategory (CR.className r)
  then Some (bucketOf cats
               (SmartCaptionGenerator.getObjectCategory (CR.className r))
             ++ [r])%list
  else mapGet cats k.
Proof.
  unfold SmartCaptionGenerator.categorizeStep, bucketOf.
  generalize (SmartCaptionGenerator.getObjectCategory (CR.className r))
    as c.
  intro c. cbn [fst]. rewrite mapGet_mapSet.
  unfold mapHas. destruct (mapGet cats c) as [rs|] eqn:G.
  - rewrite G. reflexivity.
  - rewrite !mapGet_mapSet, String.eqb_refl.
    destruct (k =? c); reflexivity.
Qed.

Lemma categorizeStep_inv seen cats tr (r : CR.t) :
  categorizedInv seen cats ->
  categorizedInv (seen ++ [r])
                 (fst (SmartCaptionGenerator.categorizeStep (cats, tr) r)).
Proof.
  intros [I1 I2]. split.
  - intros c rs x G Hx. rewrite categorizeStep_get in G.
    destruct (c =? _) eqn:E.
    + injection G as <-. apply in_app_or in Hx. apply in_or_app.
      destruct Hx as [Hx | Hx]; [left | now right].
      unfold bucketOf in Hx.
      destruct (mapGet cats _) as [rs|] eqn:G; [|destruct Hx].
      exact (I1 _ rs x G Hx).
    + apply in_or_app. left. now apply (I1 c rs).
  - intros x Hx. rewrite categorizeStep_get.
    destruct (_ =? _) eqn:E.
    + eexists. split; [reflexivity|].
      apply String.eqb_eq in E. apply in_app_or in Hx. apply in_or_app.
      destruct Hx as [Hx | Hx]; [left | now right].
      destruct (I2 x Hx) as [rs [G Hin]]. unfold bucketOf.
      rewrite <- E, G. exact Hin.
    + apply in_app_or in Hx. destruct Hx as [Hx | [<- | []]].
      * now apply I2.
      * now rewrite String.eqb_refl in E.
Qed.

Lemma categorize_fold_inv (rs : list CR.t) : forall seen cats tr,
  categorizedInv seen cats ->
  categorizedInv
    (seen ++ rs)
    (fst (fold_left SmartCaptionGenerator.categorizeStep rs (cats, tr))).
Proof.
  induction rs as [|r rs IH]; intros seen cats tr I; cbn [fold_left].
  - now rewrite app_nil_r.
  - replace (seen ++ r :: rs)%list with ((seen ++ [r]) ++ rs)%list
      by (now rewrite <- app_assoc).
    destruct (SmartCaptionGenerator.categorizeStep (cats, tr) r)
      as [cats' tr'] eqn:E.
    apply (IH _ cats' tr'). replace cats' with
      (fst (SmartCaptionGenerator.categorizeStep (cats, tr) r))
      by (now rewrite E).
    now apply categorizeStep_inv.
Qed.

Lemma categorized_inv (classifications : list CR.t) :
  categorizedInv
    (slice 0 3 classifications)
    (SmartCaptionGenerator.categorized
       (SmartCaptionGenerator.analyzeClassifications classifications)).
Proof.
  unfold SmartCaptionGenerator.analyzeClassifications.
  pose proof (categorize_fold_inv (slice 0 3 classifications) [] [] []) as H.
  destruct (fold_left _ _ _) as [cats tr]. simpl in *.
  apply H. split; [discriminate | intros ? []].
Qed.

Lemma sumConfidence_from (rs : list CR.t) : forall acc : Q,
  Forall (fun r => 0 <= CR.confidence r) rs ->
  acc <= fold_left (fun sum r => sum + CR.confidence r) rs acc /\
  ((exists r, In r rs /\ 0 < CR.confidence r) ->
   acc < fold_left (fun sum r => sum + CR.confidence r) rs acc).
Proof.
  induction rs as [|x rs IH]; intros acc F; simpl.
  - split; [apply Qle_refl | intros [r [[] _]]].
  - inversion F as [|? ? Fx Frs]; subst.
    destruct (IH (acc + CR.confidence x) Frs) as [L S].
    split; [lra|]. intros [r [[<- | Hin] P]]; [lra|].
    assert (acc + CR.confidence x
            < fold_left (fun sum r0 => sum + CR.confidence r0) rs
                        (acc + CR.confidence x))
      by (apply S; now exists r).
    lra.
Qed.

Lemma avgConfidence_positive (rs : list CR.t) (r : CR.t) :
  Forall (fun x => 0 <= CR.confidence x) rs ->
  In r rs -> 0 < CR.confidence r ->
  0 < SmartCaptionGenerator.avgConfidence rs.
Proof.
  intros F Hin P. unfold SmartCaptionGenerator.avgConfidence.
  apply Qlt_shift_div_l.
  - destruct rs; [destruct Hin|]. unfold Qlt. simpl. lia.
  - rewrite Qmult_0_l. unfold SmartCaptionGenerator.sumConfidence.
    apply (sumConfidence_from rs 0 F). now exists r.
Qed.

Lemma slice_top3_head (first : CR.t) (rest : list CR.t) :
  slice 0 3 (first :: rest)
  = first :: firstn (Nat.min 2 (List.length rest)) rest.
Proof.
  rewrite slice_prefix by lia.
  replace (Nat.min (Z.to_nat 3) (List.length (first :: rest)))
    with (S (Nat.min 2 (List.length rest))) by (simpl List.length; lia).
  reflexivity.
Qed.

Lemma analyzeClassifications_topResult (classifications : list CR.t) :
  SmartCaptionGenerator.topResult
    (SmartCaptionGenerator.analyzeClassifications classifications)
  = hd_error (slice 0 3 classifications).
Proof.
  unfold SmartCaptionGenerator.analyzeClassifications.
  now destruct (fold_left _ _ _).
Qed.

Lemma generateContextualCaption_returns (host : Host)
      (a : SmartCaptionGenerator.Analysis) (top : CR.t) (rs : list CR.t) :
  SmartCaptionGenerator.topResult a = Some top ->
  mapGet (SmartCaptionGenerator.categorized a)
         (SmartCaptionGenerator.dominantCategory a) = Some rs ->
  exists caption,
    SmartCaptionGenerator.generateContextualCaption host a = Normal caption.
Proof.
  intros T G. unfold SmartCaptionGenerator.generateContextualCaption.
  rewrite T, G.
  destruct (List.length (SmartCaptionGenerator.categorized a) =? 1)%nat;
    cbn [bind].
  - destruct (List.length rs =? 1)%nat; [now eexists|].
    destruct (negb _); now eexists.
  - destruct (negb _); now eexists.
Qed.

(** Where the selector does meet C6: with a positive first confidence and
    no negative confidence among the top three, the call returns, with the
    input list and the first record's confidence. *)
Lemma generateSmartCaption_returns (host : Host) (first : CR.t)
      (rest : list CR.t) :
  0 < CR.confidence first ->
  Forall (fun r => 0 <= CR.confidence r) (slice 0 3 (first :: rest)) ->
  exists caption,
    SmartCaptionGenerator.generateSmartCaption host (first :: rest) =
    Normal {| AltTextResult.altText := caption;
              AltTextResult.classifications := first :: rest;
              AltTextResult.confidence := CR.confidence first |}.
Proof.
  intros P F.
  set (a := SmartCaptionGenerator.analyzeClassifications (first :: rest)).
  destruct (categorized_inv (first :: rest)) as [I1 I2]. fold a in I1, I2.
  assert (Hfirst : In first (slice 0 3 (first :: rest)))
    by (rewrite slice_top3_head; now left).
  destruct (I2 first Hfirst) as [rs [G Hin]].
  assert (A : 0 < SmartCaptionGenerator.avgConfidence rs).
  { apply (avgConfidence_positive rs first); try assumption.
    rewrite Forall_forall in *. intros x Hx. apply F.
    exact (I1 _ rs x G Hx). }
  destruct (dominantCategory_positive (first :: rest)) as [_ [rs' [D _]]].
  { eexists _, rs. split; [apply mapGet_In; exact G | exact A]. }
  fold a in D. apply In_mapGet in D. destruct D as [v D].
  destruct (generateContextualCaption_returns host a first v) as [caption C];
    [|exact D|].
  { subst a. rewrite analyzeClassifications_topResult.
    now rewrite slice_top3_head. }
  exists caption. unfold SmartCaptionGenerator.generateSmartCaption.
  fold a. now rewrite C.
Qed.

(** C6, at the one-record list [golden_retriever] with confidence 0: the
    list is not empty and trivially sorted, and the call throws a
    [TypeError] instead of returning the list and the confidence. *)
Theorem generateSmartCaption_zero_confidence_throws (host : Host) :
  SmartCaptionGenerator.generateSmartCaption
    host [ {| CR.className := "golden_retriever";
              CR.probability := 0; CR.confidence := 0 |} ]
  = Throw (TypeErrorObj
             "Cannot read properties of undefined (reading 'length')").
Proof. reflexivity. Qed.

(** ** Loading the labels *)

Lemma labelFetchFails_iff (w : ImageClassifier.World) :
  labelFetchFails w <-> exists e, ImageClassifier.fetchLabels w = Throw e.
Proof.
  unfold labelFetchFails, ImageClassifier.fetchLabels.
  destruct (ImageClassifier.fetch w ImageClassifier.labelsUrl)
    as [e | ok status statusText text].
  - split; [intros _; now exists e | trivial].
  - destruct ok; simpl.
    + split.
      * intros [H | [e ->]]; [discriminate | now exists e].
      * intros [e H]. right. destruct text; try discriminate. now eexists.
    + split; [intros _; now eexists | now left].
Qed.

Lemma placeholderLabels_nth (i : nat) :
  (i < 1000)%nat ->
  nth_error ImageClassifier.placeholderLabels i
  = Some ("class_" ++ indexToString i).
Proof.
  intro H. unfold ImageClassifier.placeholderLabels.
  rewrite nth_error_map, nth_error_seq.
  destruct (Nat.ltb_spec i 1000); [reflexivity | lia].
Qed.

Lemma placeholderLabels_length :
  List.length ImageClassifier.placeholderLabels = 1000%nat.
Proof.
  unfold ImageClassifier.placeholderLabels.
  now rewrite length_map, length_seq.
Qed.

(** C8: on a classifier with no model and no load in flight, when the
    model download succeeds and the label download fails, the label
    failure does not fail [loadModel].  When there is no progress callback
    or its call returns, [loadModel] returns normally, holds the model,
    has reset [isLoading], and the class-name list is the 1000
    placeholders "class_0" to "class_999".  The call throws only what the
    caller's own progress callback throws, and the class-name list is the
    placeholders then as well. *)
Theorem loadModel_label_failure_placeholders
        (w : ImageClassifier.World) (c : ImageClassifier.t)
        (options : ImageClassifier.ModelLoadOptions)
        (m : ImageClassifier.LayersModel) :
  ImageClassifier.model c = None ->
  ImageClassifier.isLoading c = false ->
  ImageClassifier.loadLayersModel
    w (ImageClassifier.modelUrlOrDefault options) = Normal m ->
  labelFetchFails w ->
  (progressReturns options ->
   exists c',
     ImageClassifier.loadModel w c options = (Normal tt, c') /\
     ImageClassifier.model c' = Some m /\
     ImageClassifier.isLoading c' = false /\
     ImageClassifier.classNames c' = ImageClassifier.placeholderLabels /\
     List.length (ImageClassifier.classNames c') = 1000%nat /\
     (forall i, (i < 1000)%nat ->
                nth_error (ImageClassifier.classNames c') i
                = Some ("class_" ++ indexToString i)) /\
     nth_error (ImageClassifier.classNames c') 0 = Some "class_0" /\
     nth_error (ImageClassifier.classNames c') 999 = Some "class_999") /\
  (forall e c',
      ImageClassifier.loadModel w c options = (Throw e, c') ->
      (exists error,
          ImageClassifier.reportProgress options 1 = Throw error /\
          e = loadFailureMessage error) /\
      ImageClassifier.model c' = Some m /\
      ImageClassifier.classNames c' = ImageClassifier.placeholderLabels).
Proof.
  intros M L D F. apply labelFetchFails_iff in F. destruct F as [e F].
  unfold ImageClassifier.loadModel, ImageClassifier.loadImageNetLabels,
    progressReturns.
  rewrite M, L, D, F. cbn -[ImageClassifier.placeholderLabels].
  destruct (ImageClassifier.reportProgress options 1) as [u | error |].
  - split.
    + intros _. destruct u. eexists. split; [reflexivity|].
      cbn [ImageClassifier.model ImageClassifier.isLoading
           ImageClassifier.classNames ImageClassifier.setLoading].
      do 3 (split; [reflexivity|]).
      split; [apply placeholderLabels_length|].
      split; [apply placeholderLabels_nth|].
      split; [apply (placeholderLabels_nth 0)
             | apply (placeholderLabels_nth 999)]; lia.
    + intros e0 c' H. discriminate.
  - split; [discriminate|].
    intros e0 c' H. injection H as <- <-.
    split; [now exists error|]. split; reflexivity.
  - split; [discriminate|]. intros e0 c' H. discriminate.
Qed.

(** C8 on a world whose label file answers 404: without a progress
    callback, and with one that throws. *)
Lemma loadModel_label_failure_placeholders_witness :
  (exists c',
     ImageClassifier.loadModel labelsOfflineWorld ImageClassifier.new
                               Index.noModelOptions = (Normal tt, c') /\
     ImageClassifier.model c' = Some identityModel /\
     ImageClassifier.isLoading c' = false /\
     ImageClassifier.classNames c' = ImageClassifier.placeholderLabels /\
     List.length (ImageClassifier.classNames c') = 1000%nat /\
     (forall i, (i < 1000)%nat ->
                nth_error (ImageClassifier.classNames c') i
                = Some ("class_" ++ indexToString i)) /\
     nth_error (ImageClassifier.classNames c') 0 = Some "class_0" /\
     nth_error (ImageClassifier.classNames c') 999 = Some "class_999") /\
  (exists error,
      ImageClassifier.reportProgress throwingProgress 1 = Throw error /\
      loadFailureMessage (ErrorObj "progress bar is gone")
      = loadFailureMessage error).
Proof.
  split.
  - apply (loadModel_label_failure_placeholders
             labelsOfflineWorld ImageClassifier.new Index.noModelOptions
             identityModel).
    + reflexivity.
    + reflexivity.
    + reflexivity.
    + simpl. left. reflexivity.
    + reflexivity.
  - eapply (loadModel_label_failure_placeholders
              labelsOfflineWorld ImageClassifier.new throwingProgress
              identityModel).
    + reflexivity.
    + reflexivity.
    + reflexivity.
    + simpl. left. reflexivity.
    + reflexivity.
Defined.

(** ** The error boundary of the entry points *)

Lemma loadModel_throws_plain (w : ImageClassifier.World)
      (c c' : ImageClassifier.t) (options : ImageClassifier.ModelLoadOptions)
      (e : Thrown) :
  ImageClassifier.loadModel w c options = (Throw e, c') ->
  exists error,
    e = ErrorObj ("모델 로딩에 실패했습니다: " ++ messageOrUnknown error).
Proof.
  unfold ImageClassifier.loadModel.
  destruct (ImageClassifier.model c); [discriminate|].
  destruct (ImageClassifier.isLoading c); [discriminate|].
  match goal with
  | |- (let '(r, c2) := ?x in _) = _ -> _ => destruct x as [r c2]
  end.
  destruct r as [u | error |]; try discriminate.
  intro H. injection H as <- _. now exists error.
Qed.

Lemma ensureLoaded_throws_plain (w : ImageClassifier.World)
      (c c' : ImageClassifier.t)
      (options : option ImageClassifier.ModelLoadOptions) (e : Thrown) :
  Index.ensureLoaded w c options = (Throw e, c') ->
  exists error,
    e = ErrorObj ("모델 로딩에 실패했습니다: " ++ messageOrUnknown error).
Proof.
  unfold Index.ensureLoaded.
  destruct (ImageClassifier.isModelLoaded c); [discriminate|].
  apply loadModel_throws_plain.
Qed.

(** What [preloadModel] throws is never the tagged error. *)
Lemma preloadModel_never_tagged (w : ImageClassifier.World) (g g' : Index.Global)
      (options : ImageClassifier.ModelLoadOptions) (e : Thrown) :
  Index.preloadModel w g options = (Throw e, g') ->
  instanceofImageAnalysisError e = false.
Proof.
  unfold Index.preloadModel.
  destruct (Index.ensureLoaded w (Index.ensureClassifier g) (Some options))
    as [r c1] eqn:E.
  intro H. injection H as -> _.
  apply ensureLoaded_throws_plain in E. destruct E as [error ->].
  reflexivity.
Qed.

(** What [classifyImage] throws is the tagged error with the code
    'CLASSIFICATION_FAILED'. *)
Lemma classifyImage_throws_tagged (w : ImageClassifier.World)
      (g g' : Index.Global) (imageInput : ImageClassifier.ImageInput)
      (options : Index.AnalyzeImageOptions) (e : Thrown) :
  Index.classifyImage w g imageInput options = (Throw e, g') ->
  exists error,
    e = ImageAnalysisError
          ("이미지 분류 중 오류가 발생했습니다: " ++ messageOrUnknown error)
          "CLASSIFICATION_FAILED".
Proof.
  unfold Index.classifyImage.
  destruct (Index.ensureLoaded w (Index.ensureClassifier g)
                               (Index.modelOptions options)) as [r c1].
  match goal with
  | |- (tryCatch ?b _, _) = _ -> _ => destruct b as [a | error |]
  end; simpl; try discriminate.
  intro H. injection H as <- _. now exists error.
Qed.

(** What [analyzeImage] throws is the tagged error: with the code
    'ANALYSIS_FAILED' around the message of a failure that was not tagged,
    or a tagged failure as it was thrown. *)
Lemma analyzeImage_throws_tagged (w : ImageClassifier.World)
      (g g' : Index.Global) (imageInput : ImageClassifier.ImageInput)
      (options : Index.AnalyzeImageOptions) (e : Thrown) :
  Index.analyzeImage w g imageInput options = (Throw e, g') ->
  instanceofImageAnalysisError e = true /\
  ((exists error,
       instanceofImageAnalysisError error = false /\
       e = ImageAnalysisError
             ("이미지 분석 중 오류가 발생했습니다: "
              ++ messageOrUnknown error)
             "ANALYSIS_FAILED") \/
   ImageClassifier.processImage w imageInput (Index.targetSize options)
                                (Index.normalize options) = Throw e).
Proof.
  unfold Index.analyzeImage.
  destruct (Index.ensureLoaded w (Index.ensureClassifier g)
                               (Index.modelOptions options))
    as [r c1] eqn:E.
  match goal with
  | |- (tryCatch ?b _, _) = _ -> _ => destruct b as [a | error |] eqn:B
  end; simpl; try discriminate.
  destruct (instanceofImageAnalysisError error) eqn:T; intro H;
    injection H as <- _.
  - split; [exact T|]. right.
    destruct r as [u | e0 |]; simpl in B; try discriminate.
    + destruct (ImageClassifier.processImage w imageInput _ _)
        as [tensor | e1 |]; simpl in B; try discriminate.
      * exfalso. unfold ImageClassifier.classify in B.
        destruct (ImageClassifier.model c1) as [m|]; simpl in B.
        -- destruct (ImageClassifier.predict m tensor) as [p | e2 |];
             simpl in B; try discriminate.
           ++ unfold SmartCaptionGenerator.generateSmartCaption in B.
              destruct (ImageClassifier.topResults _ _ _); try discriminate.
              unfold SmartCaptionGenerator.generateContextualCaption in B.
              destruct (SmartCaptionGenerator.topResult _);
                simpl in B; [|injection B as <-; discriminate].
              repeat match type of B with
                     | context [match ?x with _ => _ end] =>
                         destruct x; simpl in B
                     end;
                try discriminate; injection B as <-; discriminate.
           ++ injection B as <-. discriminate.
        -- injection B as <-. discriminate.
      * congruence.
    + exfalso. injection B as ->.
      apply ensureLoaded_throws_plain in E. destruct E as [e1 ->].
      discriminate.
  - split; [reflexivity|]. left. now exists error.
Qed.

(** C9, at [preloadModel] without network: the model download rejects,
    and the call throws the plain [Error] of [loadModel], which is not an
    [ImageAnalysisError] and carries no code. *)
Theorem preloadModel_throws_plain_error :
  Index.preloadModel offlineWorld None Index.noModelOptions
  = (Throw (ErrorObj "모델 로딩에 실패했습니다: Failed to fetch"),
     Some ImageClassifier.new) /\
  instanceofImageAnalysisError
    (ErrorObj "모델 로딩에 실패했습니다: Failed to fetch") = false.
Proof. split; reflexivity. Qed.

(* ================================================================== *)
(** * Further properties of the code *)

(** ** More on the tables and the name lookup *)

Lemma getKoreanName_shape (label : string) :
  SmartCaptionGenerator.getKoreanName label =
  match own SmartCaptionGenerator.KOREAN_TRANSLATIONS label with
  | Some korean => Str korean
  | None => if includes objectPrototypeKeys label then Builtin label
            else Str (replaceUnderscores label)
  end.
Proof.
  destruct (own SmartCaptionGenerator.KOREAN_TRANSLATIONS label)
    as [korean|] eqn:O.
  - now apply getKoreanName_known.
  - destruct (includes objectPrototypeKeys label) eqn:I.
    + apply getKoreanName_inherited; [exact O | now apply includes_In].
    + apply getKoreanName_fallback; [exact O | now apply includes_not_In].
Qed.

Lemma getKoreanName_truthy (label : string) :
  label <> EmptyString <->
  truthy (SmartCaptionGenerator.getKoreanName label) = true.
Proof.
  rewrite getKoreanName_shape.
  destruct (own SmartCaptionGenerator.KOREAN_TRANSLATIONS label)
    as [korean|] eqn:O.
  - apply own_In in O.
    pose proof KOREAN_TRANSLATIONS_nonempty as N.
    rewrite forallb_forall in N. specialize (N _ O). simpl in N.
    simpl. rewrite N. split; [reflexivity|]. intros _ ->.
    simpl in O. repeat (destruct O as [O | O]; [discriminate|]). exact O.
  - destruct (includes objectPrototypeKeys label) eqn:I.
    + simpl. split; [reflexivity|]. intros _ ->. discriminate.
    + simpl. destruct label as [|c r]; simpl.
      * split; [congruence | discriminate].
      * split; [reflexivity | discriminate].
Qed.

(** X1: [getKoreanName] gives the table's Korean string for a label of the
    table, the inherited member for a label that names one, and the label
    with underscores replaced otherwise; the result is truthy exactly for
    a non-empty label. *)
Theorem getKoreanName_cases (label : string) :
  SmartCaptionGenerator.getKoreanName label =
  match own SmartCaptionGenerator.KOREAN_TRANSLATIONS label with
  | Some korean => Str korean
  | None => if includes objectPrototypeKeys label then Builtin label
            else Str (replaceUnderscores label)
  end /\
  (truthy (SmartCaptionGenerator.getKoreanName label) = true
   <-> label <> EmptyString).
Proof.
  split; [apply getKoreanName_shape|]. symmetry. apply getKoreanName_truthy.
Qed.

(** X2: [getObjectCategory] answers one of the seven category names or
    "unknown", and [getCategoryDescription] has a non-empty description
    for each of them, "객체" for "unknown". *)
Theorem getObjectCategory_range (className : string) :
  In (SmartCaptionGenerator.getObjectCategory className) categoryNames /\
  exists description,
    SmartCaptionGenerator.getCategoryDescription
      (SmartCaptionGenerator.getObjectCategory className) = Str description /\
    description <> EmptyString /\
    (SmartCaptionGenerator.getObjectCategory className = "unknown" ->
     description = "객체").
Proof.
  unfold SmartCaptionGenerator.getObjectCategory,
    SmartCaptionGenerator.OBJECT_CATEGORIES,
    SmartCaptionGenerator.firstCategory.
  repeat match goal with
         | |- context [if ?b then _ else _] => destruct b
         end;
    (split; [simpl; tauto|]);
    eexists; (split; [reflexivity|]); (split; [discriminate|]);
    first [discriminate | reflexivity].
Qed.

Lemma nodupb_NoDup (l : list string) : nodupb l = true -> NoDup l.
Proof.
  induction l as [|x l IH]; simpl; [constructor|].
  intro H. apply andb_true_iff in H. destruct H as [N R].
  constructor; [|now apply IH].
  apply negb_true_iff in N. now apply includes_not_In.
Qed.

Lemma translated_has_category (label korean : string) :
  own SmartCaptionGenerator.KOREAN_TRANSLATIONS label = Some korean ->
  SmartCaptionGenerator.getObjectCategory label <> "unknown".
Proof.
  intro H. apply own_In in H.
  assert (F : forallb
                (fun kv => negb (SmartCaptionGenerator.getObjectCategory
                                   (fst kv) =? "unknown"))
                SmartCaptionGenerator.KOREAN_TRANSLATIONS = true)
    by reflexivity.
  rewrite forallb_forall in F. specialize (F _ H). simpl in F.
  apply negb_true_iff in F. now apply String.eqb_neq.
Qed.

Lemma unknown_untranslated (label : string) :
  SmartCaptionGenerator.getObjectCategory label = "unknown" ->
  own SmartCaptionGenerator.KOREAN_TRANSLATIONS label = None.
Proof.
  intro U.
  destruct (own SmartCaptionGenerator.KOREAN_TRANSLATIONS label)
    as [korean|] eqn:O; [|reflexivity].
  exfalso. exact (translated_has_category _ _ O U).
Qed.

(** X3: no label is listed twice in the category table, no key twice in
    the translation table, every translated label has a category, and a
    label without category has no translation. *)
Theorem tables_consistent :
  NoDup (flat_map snd SmartCaptionGenerator.OBJECT_CATEGORIES) /\
  NoDup (map fst SmartCaptionGenerator.KOREAN_TRANSLATIONS) /\
  (forall label korean,
      own SmartCaptionGenerator.KOREAN_TRANSLATIONS label = Some korean ->
      SmartCaptionGenerator.getObjectCategory label <> "unknown") /\
  (forall label,
      SmartCaptionGenerator.getObjectCategory label = "unknown" ->
      own SmartCaptionGenerator.KOREAN_TRANSLATIONS label = None).
Proof.
  split; [apply nodupb_NoDup; reflexivity|].
  split; [apply nodupb_NoDup; reflexivity|].
  split; [apply translated_has_category | apply unknown_untranslated].
Qed.

(** [tables_consistent] at a concrete input. *)
Lemma tables_consistent_witness :
  SmartCaptionGenerator.getObjectCategory "banana" <> "unknown" /\
  own SmartCaptionGenerator.KOREAN_TRANSLATIONS "constructor" = None.
Proof.
  destruct tables_consistent as (_ & _ & T & U). split.
  - apply (T "banana" "바나나"). reflexivity.
  - apply (U "constructor"). reflexivity.
Defined.

(** *** The map [categorized] *)

Section MapKeys.
Context {V : Type}.

Lemma mapHas_In (m : list (string * V)) (k : string) :
  mapHas m k = true <-> In k (map fst m).
Proof.
  unfold mapHas. induction m as [|[k0 v0] m IH]; simpl.
  - split; [discriminate | intros []].
  - destruct (k =? k0) eqn:E.
    + apply String.eqb_eq in E. subst. split; [now left | reflexivity].
    + rewrite IH. apply String.eqb_neq in E. split; [now right|].
      intros [H | H]; [congruence | exact H].
Qed.

Lemma mapSet_keys (m : list (string * V)) (k : string) (v : V) :
  map fst (mapSet m k v) =
  if mapHas m k then map fst m else (map fst m ++ [k])%list.
Proof.
  unfold mapHas. induction m as [|[k0 v0] m IH]; simpl; [reflexivity|].
  destruct (k =? k0) eqn:E; simpl; [reflexivity|].
  rewrite IH. now destruct (mapGet m k).
Qed.

Lemma NoDup_mapGet (m : list (string * V)) (k : string) (v : V) :
  NoDup (map fst m) -> In (k, v) m -> mapGet m k = Some v.
Proof.
  induction m as [|[k0 v0] m IH]; simpl; [intros _ []|].
  intros N [E | H].
  - injection E as -> ->. now rewrite String.eqb_refl.
  - inversion N as [|? ? Nk Nm]; subst.
    destruct (k =? k0) eqn:E.
    + apply String.eqb_eq in E. subst. exfalso. apply Nk.
      apply in_map_iff. now exists (k0, v).
    + now apply IH.
Qed.
End MapKeys.

Lemma bucketSizes_mapSet (m : list (string * list CR.t)) (k : string)
      (v : list CR.t) :
  (bucketSizes (mapSet m k v) + List.length (bucketOf m k)
   = bucketSizes m + List.length v)%nat.
Proof.
  unfold bucketSizes, bucketOf.
  induction m as [|[k0 v0] m IH]; simpl; [lia|].
  destruct (k =? k0) eqn:E; simpl; lia.
Qed.

Lemma categorizeStep_keys cats tr (r : CR.t) :
  let c := SmartCaptionGenerator.getObjectCategory (CR.className r) in
  map fst (fst (SmartCaptionGenerator.categorizeStep (cats, tr) r)) =
  if mapHas cats c then map fst cats else (map fst cats ++ [c])%list.
Proof.
  unfold SmartCaptionGenerator.categorizeStep.
  generalize (SmartCaptionGenerator.getObjectCategory (CR.className r)).
  intros c. cbn [fst]. rewrite mapSet_keys.
  destruct (mapHas cats c) eqn:H.
  - now rewrite H.
  - assert (H' : mapHas (mapSet cats c []) c = true).
    { unfold mapHas. now rewrite mapGet_mapSet, String.eqb_refl. }
    rewrite H', mapSet_keys. now rewrite H.
Qed.

Lemma categorizeStep_sizes cats tr (r : CR.t) :
  bucketSizes (fst (SmartCaptionGenerator.categorizeStep (cats, tr) r))
  = S (bucketSizes cats).
Proof.
  unfold SmartCaptionGenerator.categorizeStep.
  generalize (SmartCaptionGenerator.getObjectCategory (CR.className r)).
  intros c. cbn [fst].
  set (cats1 := if mapHas cats c then cats else mapSet cats c []).
  pose proof (bucketSizes_mapSet cats1 c
                (match mapGet cats1 c with Some rs => rs | None => [] end
                 ++ [r])%list) as H.
  fold (bucketOf cats1 c) in H |- *.
  rewrite length_app in H. simpl in H.
  assert (E : bucketSizes cats1 = bucketSizes cats).
  { subst cats1. unfold mapHas. destruct (mapGet cats c) eqn:G;
      [reflexivity|].
    pose proof (bucketSizes_mapSet cats c []) as H1.
    unfold bucketOf in H1. rewrite G in H1. simpl in H1. lia. }
  lia.
Qed.

Lemma filter_snoc {A} (f : A -> bool) (l : list A) (x : A) :
  filter f (l ++ [x]) = (filter f l ++ if f x then [x] else [])%list.
Proof. now rewrite filter_app. Qed.

Lemma groupsStep_inv seen cats tr (r : CR.t) :
  groupsInv seen cats ->
  groupsInv (seen ++ [r])
            (fst (SmartCaptionGenerator.categorizeStep (cats, tr) r)).
Proof.
  intros [G [N S]]. split; [|split].
  - intro c. rewrite categorizeStep_get, filter_snoc.
    set (k := SmartCaptionGenerator.getObjectCategory (CR.className r)).
    replace (inCategory c r) with (c =? k)
      by (unfold inCategory; fold k; apply String.eqb_sym).
    destruct (c =? k) eqn:E.
    + apply String.eqb_eq in E. subst c. unfold bucketOf. rewrite G.
      destruct (filter _ seen); reflexivity.
    + rewrite app_nil_r. apply G.
  - rewrite categorizeStep_keys. cbv zeta.
    destruct (mapHas cats _) eqn:H; [exact N|].
    apply NoDup_app; [exact N | repeat constructor; intros [] |].
    intros k Hk [<- | []].
    apply mapHas_In in Hk. congruence.
  - rewrite categorizeStep_sizes, S, length_app. simpl. lia.
Qed.

Lemma groups_fold_inv (rs : list CR.t) : forall seen cats tr,
  groupsInv seen cats ->
  groupsInv
    (seen ++ rs)
    (fst (fold_left SmartCaptionGenerator.categorizeStep rs (cats, tr))).
Proof.
  induction rs as [|r rs IH]; intros seen cats tr I; cbn [fold_left].
  - now rewrite app_nil_r.
  - replace (seen ++ r :: rs)%list with ((seen ++ [r]) ++ rs)%list
      by (now rewrite <- app_assoc).
    destruct (SmartCaptionGenerator.categorizeStep (cats, tr) r)
      as [cats' tr'] eqn:E.
    apply (IH _ cats' tr'). replace cats' with
      (fst (SmartCaptionGenerator.categorizeStep (cats, tr) r))
      by (now rewrite E).
    now apply groupsStep_inv.
Qed.

Lemma categorized_groupsInv (classifications : list CR.t) :
  groupsInv
    (slice 0 3 classifications)
    (SmartCaptionGenerator.categorized
       (SmartCaptionGenerator.analyzeClassifications classifications)).
Proof.
  unfold SmartCaptionGenerator.analyzeClassifications.
  pose proof (groups_fold_inv (slice 0 3 classifications) [] [] []) as H.
  destruct (fold_left _ _ _) as [cats tr]. simpl in *.
  apply H. split; [reflexivity | split; [constructor | reflexivity]].
Qed.

Lemma slice_top3_length {A} (l : list A) :
  (List.length (slice 0 3 l) <= 3)%nat.
Proof.
  rewrite slice_prefix by lia. rewrite length_firstn.
  change (Z.to_nat 3) with 3%nat. lia.
Qed.

Lemma bucketSizes_ge_length (cats : list (string * list CR.t)) :
  (forall c rs, In (c, rs) cats -> rs <> []) ->
  (List.length cats <= bucketSizes cats)%nat.
Proof.
  unfold bucketSizes. induction cats as [|[c rs] cats IH]; simpl; intro H.
  - lia.
  - assert (rs <> []) by (apply (H c); now left).
    assert (List.length cats
            <= list_sum (map (fun e => List.length (snd e)) cats))%nat
      by (apply IH; intros c' rs' Hin; apply (H c'); now right).
    destruct rs; [congruence | simpl; lia].
Qed.

Lemma categorized_members (classifications : list CR.t) (c : string)
      (rs : list CR.t) :
  In (c, rs) (SmartCaptionGenerator.categorized
                (SmartCaptionGenerator.analyzeClassifications
                   classifications)) <->
  rs = filter (inCategory c) (slice 0 3 classifications) /\ rs <> [].
Proof.
  destruct (categorized_groupsInv classifications) as [G [N S]].
  split.
  - intro H. apply (NoDup_mapGet _ _ _ N) in H. rewrite G in H.
    destruct (filter (inCategory c) (slice 0 3 classifications)) eqn:F;
      simpl in H; [discriminate|].
    injection H as <-. split; [reflexivity | discriminate].
  - intros [-> H]. apply mapGet_In. rewrite G.
    destruct (filter (inCategory c) (slice 0 3 classifications));
      [congruence | reflexivity].
Qed.

(** X4: the map [categorized] groups the top three records by category:
    a key is present exactly for a category that has records, with those
    records in input order; keys are distinct, the arrays hold every top
    record once, and there are at most three keys. *)
Theorem categorized_groups (classifications : list CR.t) :
  let top := slice 0 3 classifications in
  let cats := SmartCaptionGenerator.categorized
                (SmartCaptionGenerator.analyzeClassifications
                   classifications) in
  (forall c, mapGet cats c = nonEmpty (filter (inCategory c) top)) /\
  (forall c rs, In (c, rs) cats <->
                rs = filter (inCategory c) top /\ rs <> []) /\
  NoDup (map fst cats) /\
  bucketSizes cats = List.length top /\
  (List.length cats <= 3)%nat.
Proof.
  intros top cats.
  destruct (categorized_groupsInv classifications) as [G [N S]].
  fold top cats in G, N, S.
  split; [exact G|].
  split; [intros c rs; apply categorized_members|].
  split; [exact N|]. split; [exact S|].
  pose proof (slice_top3_length classifications) as H. fold top in H.
  assert (List.length cats <= bucketSizes cats)%nat; [|lia].
  apply bucketSizes_ge_length. intros c rs H1.
  now apply categorized_members in H1.
Qed.

Lemma categorizeStep_snd cats tr (r : CR.t) :
  snd (SmartCaptionGenerator.categorizeStep (cats, tr) r) =
  mapSet tr (CR.className r)
         (SmartCaptionGenerator.getKoreanName (CR.className r)).
Proof. reflexivity. Qed.

Lemma translated_fold_inv (rs : list CR.t) : forall seen cats tr,
  translatedInv seen tr ->
  translatedInv
    (seen ++ rs)
    (snd (fold_left SmartCaptionGenerator.categorizeStep rs (cats, tr))).
Proof.
  induction rs as [|r rs IH]; intros seen cats tr I; cbn [fold_left].
  - now rewrite app_nil_r.
  - replace (seen ++ r :: rs)%list with ((seen ++ [r]) ++ rs)%list
      by (now rewrite <- app_assoc).
    destruct (SmartCaptionGenerator.categorizeStep (cats, tr) r)
      as [cats' tr'] eqn:E.
    apply (IH _ cats' tr').
    replace tr' with
      (snd (SmartCaptionGenerator.categorizeStep (cats, tr) r))
      by (now rewrite E).
    rewrite categorizeStep_snd. intro name.
    rewrite mapGet_mapSet, existsb_app, I.
    cbn [existsb]. rewrite orb_false_r.
    replace (hasLabel name r) with (name =? CR.className r)
      by (unfold hasLabel; apply String.eqb_sym).
    destruct (name =? CR.className r) eqn:N.
    + apply String.eqb_eq in N. subst name. now rewrite orb_true_r.
    + now rewrite orb_false_r.
Qed.

Lemma analyzeClassifications_fields (classifications : list CR.t) :
  let a := SmartCaptionGenerator.analyzeClassifications classifications in
  SmartCaptionGenerator.topResult a = hd_error (slice 0 3 classifications) /\
  SmartCaptionGenerator.dominantCategory a
  = SmartCaptionGenerator.getDominantCategory
      (SmartCaptionGenerator.categorized a) /\
  SmartCaptionGenerator.hasMultipleCategories a
  = (1 <? List.length (SmartCaptionGenerator.categorized a))%nat /\
  translatedInv (slice 0 3 classifications)
                (SmartCaptionGenerator.translated a).
Proof.
  unfold SmartCaptionGenerator.analyzeClassifications.
  pose proof (translated_fold_inv (slice 0 3 classifications) [] [] []) as T.
  destruct (fold_left _ _ _) as [cats tr]. simpl in *.
  repeat split. apply T. intro name. reflexivity.
Qed.

(** Every top-three record finds its name in [translated]. *)
Lemma translated_lookup (classifications : list CR.t) (r : CR.t) :
  In r (slice 0 3 classifications) ->
  SmartCaptionGenerator.translatedGet
    (SmartCaptionGenerator.translated
       (SmartCaptionGenerator.analyzeClassifications classifications))
    (CR.className r)
  = SmartCaptionGenerator.getKoreanName (CR.className r).
Proof.
  intro H.
  destruct (analyzeClassifications_fields classifications) as [_ [_ [_ T]]].
  unfold SmartCaptionGenerator.translatedGet. rewrite T.
  assert (E : existsb (hasLabel (CR.className r))
                      (slice 0 3 classifications) = true).
  { apply existsb_exists. exists r. split; [exact H|].
    apply String.eqb_refl. }
  now rewrite E.
Qed.

(** ** The selector under any arithmetic *)

Section AnyArithmetic.
Variable arith : Arithmetic.t.

Let mean := WithArithmetic.avgConfidence arith.

Lemma dominantStep_invBy seen acc entry :
  dominantInvBy mean seen acc ->
  dominantInvBy mean (seen ++ [entry])
                (WithArithmetic.dominantStep arith acc entry).
Proof.
  destruct acc as [m d], entry as [c rs].
  unfold WithArithmetic.dominantStep. fold mean.
  destruct (gt (mean rs) m) eqn:G.
  - apply gt_true_iff in G. intro I. right.
    exists seen, rs, []. simpl. repeat split.
    + destruct I as [[_ [E _]] | [_ [_ [_ [_ [_ [P _]]]]]]]; simpl in *.
      * now rewrite E in G.
      * eapply Qlt_trans; eassumption.
    + intros c' r Hin.
      destruct I as [[_ [E N]] | [pre [rs0 [post [S [A [P [L R]]]]]]]];
        simpl in *.
      * eapply Qle_lt_trans; [apply (N c' r Hin)|]. now rewrite E in G.
      * subst seen. apply in_app_or in Hin.
        destruct Hin as [Hin | [Heq | Hin]].
        -- eapply Qlt_trans; [apply (L c' r Hin) | assumption].
        -- injection Heq as <- <-. now rewrite A.
        -- eapply Qle_lt_trans; [apply (R c' r Hin) | assumption].
    + intros ? ? [].
  - apply gt_false_iff in G.
    intros [[U [E N]] | [pre [rs0 [post [S [A [P [L R]]]]]]]]; simpl in *.
    + left. simpl. repeat split; try assumption.
      intros c' r Hin. apply in_app_or in Hin.
      destruct Hin as [Hin | [Heq | []]].
      * now apply (N c').
      * injection Heq as <- <-. now rewrite E in G.
    + right. exists pre, rs0, (post ++ [(c, rs)])%list. simpl.
      repeat split; try assumption.
      * subst seen. now rewrite <- app_assoc.
      * intros c' r Hin. apply in_app_or in Hin.
        destruct Hin as [Hin | [Heq | []]].
        -- now apply (R c').
        -- injection Heq as <- <-. assumption.
Qed.

Lemma dominant_fold_invBy cats : forall seen acc,
  dominantInvBy mean seen acc ->
  dominantInvBy mean (seen ++ cats)
                (fold_left (WithArithmetic.dominantStep arith) cats acc).
Proof.
  induction cats as [|entry cats IH]; intros seen acc I; simpl.
  - now rewrite app_nil_r.
  - replace (seen ++ entry :: cats)%list
      with ((seen ++ [entry]) ++ cats)%list
      by (now rewrite <- app_assoc).
    apply IH. now apply dominantStep_invBy.
Qed.

Lemma getDominantCategory_invBy cats :
  dominantInvBy mean cats
    (fold_left (WithArithmetic.dominantStep arith) cats (0, "unknown")).
Proof.
  apply (dominant_fold_invBy cats [] (0, "unknown")).
  left. simpl. repeat split. intros ? ? [].
Qed.

Lemma firstHighestBy_highestBy cats d :
  firstHighestBy mean cats d -> highestBy mean cats d.
Proof.
  intros [pre [rs [post [-> [L R]]]]]. exists rs. split.
  - apply in_or_app. right. now left.
  - intros c r Hin. apply in_app_or in Hin.
    destruct Hin as [Hin | [Heq | Hin]].
    + apply Qlt_le_weak. now apply (L c).
    + injection Heq as <- <-. apply Qle_refl.
    + now apply (R c).
Qed.

Lemma getDominantCategory_oneBy (c : string) (rs : list CR.t) :
  WithArithmetic.getDominantCategory arith [(c, rs)] =
  if gt (mean rs) 0 then c else "unknown".
Proof.
  unfold WithArithmetic.getDominantCategory. simpl. fold mean.
  now destruct (gt (mean rs) 0).
Qed.

(** The analysis differs from the exact one in the dominant category
    only. *)
Lemma analyzeClassifications_arithmetic (classifications : list CR.t) :
  let a := SmartCaptionGenerator.analyzeClassifications classifications in
  let a' := WithArithmetic.analyzeClassifications arith classifications in
  SmartCaptionGenerator.topResult a' = SmartCaptionGenerator.topResult a /\
  SmartCaptionGenerator.categorized a'
  = SmartCaptionGenerator.categorized a /\
  SmartCaptionGenerator.translated a'
  = SmartCaptionGenerator.translated a /\
  SmartCaptionGenerator.hasMultipleCategories a'
  = SmartCaptionGenerator.hasMultipleCategories a /\
  SmartCaptionGenerator.dominantCategory a'
  = WithArithmetic.getDominantCategory
      arith (SmartCaptionGenerator.categorized a).
Proof.
  unfold SmartCaptionGenerator.analyzeClassifications,
    WithArithmetic.analyzeClassifications.
  destruct (fold_left _ _ _) as [cats tr]. simpl. repeat split.
Qed.

End AnyArithmetic.

(** The selector of [SmartCaptionGenerator] is the one with the exact
    operations. *)
Lemma generateSmartCaption_exact (host : Host) (classifications : list CR.t) :
  WithArithmetic.generateSmartCaption Arithmetic.exact host classifications
  = SmartCaptionGenerator.generateSmartCaption host classifications.
Proof. reflexivity. Qed.


(** X5: whatever the two operations compute, [getDominantCategory]
    returns the first category that attains the highest of the means
    computed when one of them is positive, and "unknown" when none is. *)
Theorem getDominantCategory_spec (arith : Arithmetic.t)
        (cats : list (string * list CR.t)) :
  let mean := WithArithmetic.avgConfidence arith in
  ((exists c rs, In (c, rs) cats /\ 0 < mean rs) ->
   firstHighestBy mean cats (WithArithmetic.getDominantCategory arith cats)
   /\
   highestBy mean cats (WithArithmetic.getDominantCategory arith cats)) /\
  ((forall c rs, In (c, rs) cats -> mean rs <= 0) ->
   WithArithmetic.getDominantCategory arith cats = "unknown").
Proof.
  intro mean. unfold WithArithmetic.getDominantCategory. split.
  - intros [c [rs [Hin P]]].
    assert (F : firstHighestBy mean cats
                  (snd (fold_left (WithArithmetic.dominantStep arith) cats
                                  (0, "unknown")))).
    { destruct (getDominantCategory_invBy arith cats)
        as [[_ [_ N]] | [pre [rs0 [post [S [A [_ [L R]]]]]]]].
      - exfalso. apply (Qlt_not_le _ _ P). now apply (N c).
      - exists pre, rs0, post. fold mean in A. rewrite A. auto. }
    split; [exact F | now apply firstHighestBy_highestBy].
  - intro N.
    destruct (getDominantCategory_invBy arith cats)
      as [[U _] | [pre [rs0 [post [S [A [P [L R]]]]]]]]; [assumption|].
    exfalso. apply (Qlt_not_le _ _ P). rewrite <- A.
    apply (N (snd (fold_left (WithArithmetic.dominantStep arith) cats
                             (0, "unknown")))).
    rewrite S at 2. apply in_or_app. right. now left.
Qed.

(** [getDominantCategory_spec] at a concrete input, with the operations
    of the engine: the two animals come first and their rounded mean is
    not below the confidence of the fruit. *)
Lemma getDominantCategory_spec_witness :
  let mean := WithArithmetic.avgConfidence Arithmetic.binary64 in
  firstHighestBy mean roundingExample "animals" /\
  highestBy mean roundingExample "animals".
Proof.
  intro mean.
  change "animals"
    with (WithArithmetic.getDominantCategory Arithmetic.binary64
                                             roundingExample).
  apply (proj1 (getDominantCategory_spec Arithmetic.binary64
                                         roundingExample)).
  exists "food". eexists. split.
  - right. left. reflexivity.
  - vm_compute. reflexivity.
Defined.

Lemma generateSmartCaption_fieldsBy (arith : Arithmetic.t)
      (classifications : list CR.t) :
  let a := WithArithmetic.analyzeClassifications arith classifications in
  SmartCaptionGenerator.topResult a = hd_error (slice 0 3 classifications) /\
  SmartCaptionGenerator.dominantCategory a
  = WithArithmetic.getDominantCategory
      arith (SmartCaptionGenerator.categorized a) /\
  SmartCaptionGenerator.hasMultipleCategories a
  = (1 <? List.length (SmartCaptionGenerator.categorized a))%nat /\
  SmartCaptionGenerator.categorized a
  = SmartCaptionGenerator.categorized
      (SmartCaptionGenerator.analyzeClassifications classifications) /\
  SmartCaptionGenerator.translated a
  = SmartCaptionGenerator.translated
      (SmartCaptionGenerator.analyzeClassifications classifications).
Proof.
  intro a.
  destruct (analyzeClassifications_arithmetic arith classifications)
    as [T [C [R [M D]]]].
  destruct (analyzeClassifications_fields classifications)
    as [T0 [_ [M0 _]]].
  fold a in T, C, R, M, D. cbv zeta in T0, M0.
  rewrite T, C, R, M, D, T0, M0. repeat split.
Qed.


(** X6: whatever the two operations compute, on a non-empty list
    [generateSmartCaption] throws the [TypeError] exactly when the top
    records fall in one category other than "unknown" and the mean
    computed for it is not positive; otherwise it returns, with the input
    list and the first record's confidence. *)
Theorem generateSmartCaption_outcome (arith : Arithmetic.t) (host : Host)
        (first : CR.t) (rest : list CR.t) :
  (zeroSingleCategoryBy arith (first :: rest) ->
   WithArithmetic.generateSmartCaption arith host (first :: rest)
   = Throw SmartCaptionGenerator.undefinedLength) /\
  (~ zeroSingleCategoryBy arith (first :: rest) ->
   exists caption,
     WithArithmetic.generateSmartCaption arith host (first :: rest) =
     Normal {| AltTextResult.altText := caption;
               AltTextResult.classifications := first :: rest;
               AltTextResult.confidence := CR.confidence first |}).
Proof.
  unfold zeroSingleCategoryBy, WithArithmetic.generateSmartCaption.
  set (a := WithArithmetic.analyzeClassifications arith (first :: rest)).
  destruct (generateSmartCaption_fieldsBy arith (first :: rest))
    as [T [D [M [C0 _]]]].
  fold a in T, D, M, C0. rewrite slice_top3_head in T. simpl in T.
  unfold SmartCaptionGenerator.generateContextualCaption.
  rewrite T, D, M.
  destruct (SmartCaptionGenerator.categorized a) as [|[c rs] [|e cats]]
    eqn:C.
  - exfalso. destruct (categorized_inv (first :: rest)) as [_ I].
    rewrite <- C0 in I.
    destruct (I first) as [x [G _]]; [|discriminate].
    rewrite slice_top3_head. now left.
  - rewrite getDominantCategory_oneBy. cbn [List.length Nat.eqb mapGet].
    destruct (gt (WithArithmetic.avgConfidence arith rs) 0) eqn:G.
    + rewrite String.eqb_refl. cbn [bind]. split.
      * intros [c' [rs' [E [_ L]]]]. injection E as <- <-.
        apply gt_true_iff in G. exfalso. exact (Qlt_not_le _ _ G L).
      * intros _. destruct (List.length rs =? 1)%nat; cbn; now eexists.
    + destruct ("unknown" =? c) eqn:U.
      * cbn [bind]. split.
        -- intros [c' [rs' [E [N _]]]]. injection E as <- <-.
           apply String.eqb_eq in U. congruence.
        -- intros _. destruct (List.length rs =? 1)%nat; cbn; now eexists.
      * cbn [bind]. split; [reflexivity|].
        intro N. exfalso. apply N. exists c, rs. repeat split.
        -- apply String.eqb_neq in U. congruence.
        -- now apply gt_false_iff.
  - cbn [List.length Nat.eqb Nat.ltb Nat.leb negb bind]. split.
    + intros [c' [rs' [E _]]]. discriminate.
    + intros _. now eexists.
Qed.

(** [generateSmartCaption_outcome] at concrete inputs, with the
    operations of the engine: a mean that rounds to zero, and a single
    record of confidence 0.5. *)
Lemma generateSmartCaption_outcome_witness :
  let some := {| CR.className := "golden_retriever";
                 CR.probability := 0.5; CR.confidence := 0.5 |} in
  WithArithmetic.generateSmartCaption Arithmetic.binary64 exampleHost
                                      underflowExample
  = Throw SmartCaptionGenerator.undefinedLength /\
  exists caption,
    WithArithmetic.generateSmartCaption
      Arithmetic.binary64 exampleHost [some] =
    Normal {| AltTextResult.altText := caption;
              AltTextResult.classifications := [some];
              AltTextResult.confidence := CR.confidence some |}.
Proof.
  intro some. split.
  - apply (proj1 (generateSmartCaption_outcome
                    Arithmetic.binary64 exampleHost _ _)).
    exists "animals", underflowExample. split; [reflexivity | split].
    + discriminate.
    + vm_compute. discriminate.
  - apply (proj2 (generateSmartCaption_outcome
                    Arithmetic.binary64 exampleHost some [])).
    intros (c & rs & E & _ & L).
    vm_compute in E. injection E as <- <-.
    vm_compute in L. apply L. reflexivity.
Defined.

Lemma slice_tail_length {A} (l : list A) :
  (List.length (slice 1 3 l) <= List.length l - 1)%nat.
Proof.
  destruct l as [|x l]; [reflexivity|].
  unfold slice. cbn [Z.ltb Z.compare].
  replace (Z.to_nat (Z.min 1 (Z.of_nat (List.length (x :: l))))) with 1%nat
    by (simpl List.length; lia).
  cbn [skipn]. rewrite length_firstn. simpl. lia.
Qed.

Lemma pushTranslated_length tr (rs : list CR.t) :
  (List.length (SmartCaptionGenerator.pushTranslated tr rs)
   <= List.length rs)%nat.
Proof.
  unfold SmartCaptionGenerator.pushTranslated.
  etransitivity; [apply filter_length_le|]. now rewrite length_map.
Qed.

Lemma mixedOthers_length (a : SmartCaptionGenerator.Analysis) :
  (forall c rs, In (c, rs) (SmartCaptionGenerator.categorized a) ->
                rs <> []) ->
  (List.length (mixedOthers a)
   + List.length (SmartCaptionGenerator.categorized a)
   <= bucketSizes (SmartCaptionGenerator.categorized a))%nat.
Proof.
  unfold mixedOthers, bucketSizes.
  generalize (SmartCaptionGenerator.translated a) as tr.
  induction (SmartCaptionGenerator.categorized a) as [|[c rs] cats IH];
    intros tr H; simpl; [lia|].
  rewrite length_app.
  assert (rs <> []) by (apply (H c); now left).
  pose proof (pushTranslated_length tr (slice 1 3 rs)).
  pose proof (slice_tail_length rs).
  assert (L : (0 < List.length rs)%nat)
    by (destruct rs; [congruence | simpl; lia]).
  specialize (IH tr).
  assert (forall c0 rs0, In (c0, rs0) cats -> rs0 <> [])
    by (intros c0 rs0 Hin; apply (H c0); now right).
  specialize (IH H3). lia.
Qed.

(** X7: for top records of several categories the call returns one of the
    first two mixed sentences around the first record's name; at most one
    other name is collected, so the third mixed sentence is never
    produced. *)
Theorem generateSmartCaption_mixed (host : Host) (first : CR.t)
        (rest : list CR.t) :
  let a := SmartCaptionGenerator.analyzeClassifications (first :: rest) in
  let main :=
    toStr host (or (SmartCaptionGenerator.getKoreanName (CR.className first))
                   (Str (CR.className first))) in
  SmartCaptionGenerator.hasMultipleCategories a = true ->
  SmartCaptionGenerator.generateSmartCaption host (first :: rest) =
  Normal {| AltTextResult.altText :=
              match mixedOthers a with
              | [] => "주로 " ++ main ++ "가 보이는 사진입니다"
              | o :: _ => main ++ "와 " ++ toStr host o
                          ++ "가 함께 있는 사진입니다"
              end;
            AltTextResult.classifications := first :: rest;
            AltTextResult.confidence := CR.confidence first |} /\
  (List.length (mixedOthers a) <= 1)%nat.
Proof.
  intros a main H.
  destruct (analyzeClassifications_fields (first :: rest))
    as [T [_ [M _]]].
  fold a in T, M. rewrite slice_top3_head in T. simpl in T.
  assert (L : (List.length (mixedOthers a) <= 1)%nat).
  { destruct (categorized_groupsInv (first :: rest)) as [_ [_ S]].
    assert (G := categorized_members (first :: rest)).
    fold a in G, S.
    pose proof (mixedOthers_length a) as Q.
    assert (N : forall c rs,
               In (c, rs) (SmartCaptionGenerator.categorized a) -> rs <> [])
      by (intros c rs Hin; now apply G in Hin).
    specialize (Q N).
    pose proof (slice_top3_length (first :: rest)).
    rewrite H in M. symmetry in M. apply Nat.ltb_lt in M. lia. }
  split; [|exact L].
  unfold SmartCaptionGenerator.generateSmartCaption,
    SmartCaptionGenerator.generateContextualCaption.
  fold a. rewrite T, H.
  rewrite H in M. symmetry in M. apply Nat.ltb_lt in M.
  replace (List.length (SmartCaptionGenerator.categorized a) =? 1)%nat
    with false by (symmetry; apply Nat.eqb_neq; lia).
  cbn [bind negb].
  assert (TL := translated_lookup (first :: rest) first).
  fold a in TL. rewrite TL by (rewrite slice_top3_head; now left).
  fold (mixedOthers a). fold main.
  unfold SmartCaptionGenerator.generateMixedCategoryCaption. fold main.
  destruct (mixedOthers a) as [|o [|o' others]]; try reflexivity.
  simpl in L. lia.
Qed.

(** [generateSmartCaption_mixed] at a concrete input. *)
Lemma generateSmartCaption_mixed_witness :
  let first := {| CR.className := "golden_retriever";
                  CR.probability := 0.5; CR.confidence := 0.5 |} in
  let rest := [ {| CR.className := "beagle";
                   CR.probability := 0.3; CR.confidence := 0.3 |};
                {| CR.className := "banana";
                   CR.probability := 0.1; CR.confidence := 0.1 |} ] in
  let a := SmartCaptionGenerator.analyzeClassifications (first :: rest) in
  let main :=
    toStr exampleHost
          (or (SmartCaptionGenerator.getKoreanName (CR.className first))
              (Str (CR.className first))) in
  SmartCaptionGenerator.generateSmartCaption exampleHost (first :: rest) =
  Normal {| AltTextResult.altText :=
              match mixedOthers a with
              | [] => "주로 " ++ main ++ "가 보이는 사진입니다"
              | o :: _ => main ++ "와 " ++ toStr exampleHost o
                          ++ "가 함께 있는 사진입니다"
              end;
            AltTextResult.classifications := first :: rest;
            AltTextResult.confidence := CR.confidence first |} /\
  (List.length (mixedOthers a) <= 1)%nat.
Proof.
  intros first rest.
  apply (generateSmartCaption_mixed exampleHost first rest).
  reflexivity.
Defined.

Lemma getObjectCategory_member (className category : string) :
  SmartCaptionGenerator.getObjectCategory className = category ->
  category <> "unknown" ->
  exists objects,
    In (category, objects) SmartCaptionGenerator.OBJECT_CATEGORIES /\
    In className objects.
Proof.
  intros E U. unfold SmartCaptionGenerator.getObjectCategory in E.
  destruct (firstCategory_inv SmartCaptionGenerator.OBJECT_CATEGORIES
                              className)
    as [[U' _] | [pre [objects [post [S [I _]]]]]]; [congruence|].
  exists objects. split; [|exact I]. rewrite S, E.
  apply in_or_app. right. now left.
Qed.

(** X8: a single record of positive confidence in the category "food" is
    captioned by the 0.8 threshold, one in "electronics" by the one
    sentence of that category, each around the Korean name of the
    table. *)
Theorem single_food_electronics_caption (host : Host) (r : CR.t) :
  0 < CR.confidence r ->
  (SmartCaptionGenerator.getObjectCategory (CR.className r) = "food" \/
   SmartCaptionGenerator.getObjectCategory (CR.className r) = "electronics") ->
  exists korean,
    own SmartCaptionGenerator.KOREAN_TRANSLATIONS (CR.className r)
      = Some korean /\
    SmartCaptionGenerator.generateSmartCaption host [r] =
    Normal {| AltTextResult.altText :=
                if SmartCaptionGenerator.getObjectCategory (CR.className r)
                   =? "food"
                then if gt (CR.confidence r) 0.8
                     then "맛있어 보이는 " ++ korean ++ "입니다"
                     else korean ++ "로 보이는 음식이 있습니다"
                else korean ++ "가 있는 모습입니다";
              AltTextResult.classifications := [r];
              AltTextResult.confidence := CR.confidence r |}.
Proof.
  intros P C.
  rewrite (generateSmartCaption_single_positive host r P).
  unfold SmartCaptionGenerator.generateSingleObjectCaption.
  destruct r as [cn p c]. cbn [CR.className CR.confidence] in *.
  destruct C as [C | C];
    destruct (getObjectCategory_member _ _ C) as [objects [T Hin]];
    try discriminate; rewrite C;
    simpl in T;
    repeat (destruct T as [T | T];
            [try discriminate; injection T as <- |]);
    try destruct T;
    simpl in Hin;
    repeat (destruct Hin as [<- | Hin]; [eexists; split; reflexivity|]);
    destruct Hin.
Qed.

(** [single_food_electronics_caption] at a concrete input. *)
Lemma single_food_electronics_caption_witness :
  let r := {| CR.className := "pizza";
              CR.probability := 0.6; CR.confidence := 0.6 |} in
  exists korean,
    own SmartCaptionGenerator.KOREAN_TRANSLATIONS (CR.className r)
      = Some korean /\
    SmartCaptionGenerator.generateSmartCaption exampleHost [r] =
    Normal {| AltTextResult.altText :=
                if SmartCaptionGenerator.getObjectCategory (CR.className r)
                   =? "food"
                then if gt (CR.confidence r) 0.8
                     then "맛있어 보이는 " ++ korean ++ "입니다"
                     else korean ++ "로 보이는 음식이 있습니다"
                else korean ++ "가 있는 모습입니다";
              AltTextResult.classifications := [r];
              AltTextResult.confidence := CR.confidence r |}.
Proof.
  intro r. apply (single_food_electronics_caption exampleHost r).
  - reflexivity.
  - left. reflexivity.
Defined.

Lemma replaceUnderscores_empty (s : string) :
  replaceUnderscores s = EmptyString -> s = EmptyString.
Proof. destruct s; [reflexivity | discriminate]. Qed.

(** X9: a single record whose label is in no category (and names no
    inherited member) is captioned by the thresholds 0.7 and 0.4 around
    the label with underscores replaced, whatever its confidence, zero
    included. *)
Theorem single_unknown_caption (host : Host) (r : CR.t) :
  SmartCaptionGenerator.getObjectCategory (CR.className r) = "unknown" ->
  ~ In (CR.className r) objectPrototypeKeys ->
  let object := replaceUnderscores (CR.className r) in
  SmartCaptionGenerator.generateSmartCaption host [r] =
  Normal {| AltTextResult.altText :=
              if gt (CR.confidence r) 0.7
              then "사진에 " ++ object ++ "가 보입니다"
              else if gt (CR.confidence r) 0.4
                   then object ++ "로 보이는 객체가 있습니다"
                   else object ++ "와 비슷한 것이 보입니다";
            AltTextResult.classifications := [r];
            AltTextResult.confidence := CR.confidence r |}.
Proof.
  intros U N object.
  pose proof (getKoreanName_fallback _ (unknown_untranslated _ U) N) as F.
  unfold SmartCaptionGenerator.generateSmartCaption.
  rewrite analyzeClassifications_single. cbv zeta. rewrite U, F.
  replace (if gt (SmartCaptionGenerator.avgConfidence [r]) 0
           then "unknown" else "unknown") with "unknown"
    by (now destruct (gt _ _)).
  unfold SmartCaptionGenerator.generateContextualCaption.
  cbn [SmartCaptionGenerator.topResult SmartCaptionGenerator.categorized
       SmartCaptionGenerator.translated
       SmartCaptionGenerator.dominantCategory
       SmartCaptionGenerator.hasMultipleCategories
       List.length Nat.eqb mapGet bind].
  unfold SmartCaptionGenerator.translatedGet. cbn [mapGet].
  rewrite !String.eqb_refl. cbn [List.length Nat.eqb bind].
  unfold SmartCaptionGenerator.generateSingleObjectCaption.
  change ("unknown" =? "animals") with false.
  change ("unknown" =? "food") with false.
  change ("unknown" =? "electronics") with false. cbv iota.
  assert (O : toStr host (or (Str (replaceUnderscores (CR.className r)))
                             (Str (CR.className r))) = object).
  { unfold or, object. simpl.
    destruct (replaceUnderscores (CR.className r) =? EmptyString) eqn:E;
      [|reflexivity].
    apply String.eqb_eq in E. simpl. rewrite E.
    now apply replaceUnderscores_empty. }
  rewrite O. reflexivity.
Qed.

(** [single_unknown_caption] at a concrete input. *)
Lemma single_unknown_caption_witness :
  let r := {| CR.className := "space_shuttle";
              CR.probability := 0; CR.confidence := 0 |} in
  let object := replaceUnderscores (CR.className r) in
  SmartCaptionGenerator.generateSmartCaption exampleHost [r] =
  Normal {| AltTextResult.altText :=
              if gt (CR.confidence r) 0.7
              then "사진에 " ++ object ++ "가 보입니다"
              else if gt (CR.confidence r) 0.4
                   then object ++ "로 보이는 객체가 있습니다"
                   else object ++ "와 비슷한 것이 보입니다";
            AltTextResult.classifications := [r];
            AltTextResult.confidence := CR.confidence r |}.
Proof.
  intro r. apply (single_unknown_caption exampleHost r).
  - reflexivity.
  - simpl. intuition discriminate.
Defined.

Lemma slice_top3_two {A} (x y : A) (l : list A) :
  slice 0 3 (x :: y :: l) = x :: y :: firstn 1 l.
Proof.
  rewrite slice_prefix by lia. change (Z.to_nat 3) with 3%nat.
  destruct l as [|z l]; [reflexivity|].
  replace (Nat.min 3 (List.length (x :: y :: z :: l))) with 3%nat
    by (simpl; lia).
  reflexivity.
Qed.

Lemma slice_first_two {A} (x y : A) (l : list A) :
  slice 0 2 (x :: y :: l) = [x; y].
Proof.
  rewrite slice_prefix by lia. change (Z.to_nat 2) with 2%nat.
  replace (Nat.min 2 (List.length (x :: y :: l))) with 2%nat
    by (simpl; lia).
  reflexivity.
Qed.

Lemma filter_all {A} (f : A -> bool) (l : list A) :
  Forall (fun x => f x = true) l -> filter f l = l.
Proof.
  induction 1 as [|x l H F IH]; simpl; [reflexivity|].
  now rewrite H, IH.
Qed.

Lemma NoDup_constant (c : string) (l : list string) :
  NoDup l -> (forall x, In x l -> x = c) -> (List.length l <= 1)%nat.
Proof.
  intros N H. destruct l as [|x [|y l]]; simpl; try lia.
  exfalso. inversion N as [|? ? Nx _]; subst. apply Nx.
  rewrite (H x), (H y); simpl; auto.
Qed.

Lemma categorized_one_category (classifications : list CR.t) (c : string) :
  slice 0 3 classifications <> [] ->
  Forall (fun r => inCategory c r = true) (slice 0 3 classifications) ->
  SmartCaptionGenerator.categorized
    (SmartCaptionGenerator.analyzeClassifications classifications)
  = [(c, slice 0 3 classifications)].
Proof.
  intros NE F.
  destruct (categorized_groupsInv classifications) as [G [N _]].
  assert (M := categorized_members classifications).
  set (cats := SmartCaptionGenerator.categorized _) in *.
  set (top := slice 0 3 classifications) in *.
  assert (Hc : In (c, top) cats).
  { apply M. rewrite (filter_all _ _ F). now split. }
  assert (L : (List.length (map fst cats) <= 1)%nat).
  { apply (NoDup_constant c); [exact N|].
    intros k Hk. apply in_map_iff in Hk. destruct Hk as [[k' rs] [<- Hk]].
    apply M in Hk. destruct Hk as [E NErs]. simpl.
    destruct (filter (inCategory k') top) as [|r rs'] eqn:Fl;
      [congruence|].
    assert (Hr : In r (filter (inCategory k') top))
      by (rewrite Fl; now left).
    apply filter_In in Hr. destruct Hr as [Hr Hk'].
    rewrite Forall_forall in F. specialize (F r Hr).
    unfold inCategory in *. apply String.eqb_eq in F, Hk'. congruence. }
  rewrite length_map in L.
  destruct cats as [|e [|e' cats]]; simpl in L; try lia.
  - destruct Hc.
  - destruct Hc as [-> | []]. reflexivity.
Qed.

(** X10: whatever the two operations compute, when the top records (two
    or three) are all of one category, the mean computed for them is
    positive and the first two labels are not empty, the sentence names
    the category and the first two records; the third record does not
    appear. *)
Theorem same_category_caption (arith : Arithmetic.t) (host : Host)
        (r1 r2 : CR.t) (rest : list CR.t) (c : string) :
  let top := slice 0 3 (r1 :: r2 :: rest) in
  Forall (fun r => SmartCaptionGenerator.getObjectCategory (CR.className r)
                   = c) top ->
  0 < WithArithmetic.avgConfidence arith top ->
  CR.className r1 <> EmptyString ->
  CR.className r2 <> EmptyString ->
  WithArithmetic.generateSmartCaption arith host (r1 :: r2 :: rest) =
  Normal {| AltTextResult.altText :=
              toStr host (SmartCaptionGenerator.getCategoryDescription c)
              ++ " 관련 사진입니다. "
              ++ (toStr host (SmartCaptionGenerator.getKoreanName
                                (CR.className r1))
                  ++ "와 "
                  ++ toStr host (SmartCaptionGenerator.getKoreanName
                                   (CR.className r2)))
              ++ "가 보입니다";
            AltTextResult.classifications := r1 :: r2 :: rest;
            AltTextResult.confidence := CR.confidence r1 |}.
Proof.
  intros top FC P N1 N2.
  set (a := WithArithmetic.analyzeClassifications arith (r1 :: r2 :: rest)).
  destruct (generateSmartCaption_fieldsBy arith (r1 :: r2 :: rest))
    as [T [D [M [C0 R0]]]].
  fold a in T, D, M, C0, R0.
  assert (Etop : top = r1 :: r2 :: firstn 1 rest)
    by apply slice_top3_two.
  assert (C : SmartCaptionGenerator.categorized a = [(c, top)]).
  { rewrite C0. apply categorized_one_category.
    - fold top. rewrite Etop. discriminate.
    - eapply Forall_impl; [|exact FC]. intros r E. unfold inCategory.
      cbv beta in E. rewrite E. apply String.eqb_refl. }
  assert (A : gt (WithArithmetic.avgConfidence arith top) 0 = true)
    by now apply gt_true_iff.
  assert (L1 := translated_lookup (r1 :: r2 :: rest) r1).
  assert (L2 := translated_lookup (r1 :: r2 :: rest) r2).
  rewrite <- R0 in L1, L2. fold top in L1, L2.
  assert (L1' : SmartCaptionGenerator.translatedGet
                  (SmartCaptionGenerator.translated a) (CR.className r1)
                = SmartCaptionGenerator.getKoreanName (CR.className r1))
    by (apply L1; rewrite Etop; now left).
  assert (L2' : SmartCaptionGenerator.translatedGet
                  (SmartCaptionGenerator.translated a) (CR.className r2)
                = SmartCaptionGenerator.getKoreanName (CR.className r2))
    by (apply L2; rewrite Etop; right; now left).
  unfold WithArithmetic.generateSmartCaption,
    SmartCaptionGenerator.generateContextualCaption.
  fold a. fold top in T. rewrite T, D, M, C, getDominantCategory_oneBy, A.
  rewrite Etop at 1. cbn [hd_error List.length Nat.eqb mapGet].
  rewrite String.eqb_refl.
  replace (List.length top =? 1)%nat with false
    by (rewrite Etop; reflexivity).
  cbn [bind Nat.ltb Nat.leb negb].
  replace (slice 0 2 top) with [r1; r2]
    by (rewrite Etop; symmetry; apply slice_first_two).
  unfold SmartCaptionGenerator.pushTranslated. cbn [map filter].
  rewrite L1', L2'.
  apply getKoreanName_truthy in N1, N2. rewrite N1, N2.
  reflexivity.
Qed.

(** [same_category_caption] at a concrete input, with the operations of
    the engine. *)
Lemma same_category_caption_witness :
  let r1 := {| CR.className := "tabby";
               CR.probability := 0.5; CR.confidence := 0.5 |} in
  let r2 := {| CR.className := "tiger";
               CR.probability := 0.25; CR.confidence := 0.25 |} in
  let rest := [ {| CR.className := "lion";
                   CR.probability := 0.125; CR.confidence := 0.125 |} ] in
  WithArithmetic.generateSmartCaption
    Arithmetic.binary64 exampleHost (r1 :: r2 :: rest) =
  Normal {| AltTextResult.altText :=
              toStr exampleHost
                    (SmartCaptionGenerator.getCategoryDescription "animals")
              ++ " 관련 사진입니다. "
              ++ (toStr exampleHost (SmartCaptionGenerator.getKoreanName
                                       (CR.className r1))
                  ++ "와 "
                  ++ toStr exampleHost (SmartCaptionGenerator.getKoreanName
                                          (CR.className r2)))
              ++ "가 보입니다";
            AltTextResult.classifications := r1 :: r2 :: rest;
            AltTextResult.confidence := CR.confidence r1 |}.
Proof.
  intros r1 r2 rest.
  apply (same_category_caption Arithmetic.binary64 exampleHost
                               r1 r2 rest "animals").
  - repeat constructor.
  - vm_compute. reflexivity.
  - discriminate.
  - discriminate.
Defined.

Lemma insertBy_lexDesc (x : Q * nat) (l : list (Q * nat)) :
  StronglySorted lexDesc l ->
  Forall (fun y => (snd x < snd y)%nat) l ->
  StronglySorted lexDesc (insertBy (fun a b => fst b - fst a) x l).
Proof.
  induction 1 as [|y l S IH F]; intro I; simpl.
  - repeat constructor.
  - inversion I as [|? ? Iy Il]; subst.
    destruct (Qle_bool (fst y - fst x) 0) eqn:E.
    + apply Qle_bool_iff in E.
      assert (Lxy : lexDesc x y).
      { unfold lexDesc. destruct (Qlt_le_dec (fst y) (fst x)) as [Lt | Le];
          [now left | right]. split; [lra | exact Iy]. }
      constructor; [now constructor|]. constructor; [exact Lxy|].
      rewrite Forall_forall in *. intros z Hz.
      specialize (F z Hz). specialize (Il z Hz). unfold lexDesc in *.
      destruct (Qlt_le_dec (fst z) (fst x)) as [Lt | Le]; [now left|].
      right. split; [|exact Il]. destruct F as [F | [F _]]; lra.
    + assert (Lyx : lexDesc y x).
      { left. destruct (Qlt_le_dec (fst x) (fst y)) as [Lt | Le];
          [exact Lt|].
        assert (T : Qle_bool (fst y - fst x) 0 = true)
          by (apply Qle_bool_iff; lra).
        congruence. }
      constructor; [now apply IH|].
      eapply Permutation_Forall; [symmetry; apply insertBy_perm|].
      now constructor.
Qed.

Lemma sort_indexed_lexDesc (l : list Q) : forall s : nat,
  StronglySorted lexDesc
    (sort (fun a b => fst b - fst a) (combine l (seq s (List.length l)))).
Proof.
  induction l as [|q l IH]; intro s; simpl; [constructor|].
  apply insertBy_lexDesc; [apply IH|].
  eapply Permutation_Forall; [symmetry; apply sort_perm|].
  apply Forall_forall. intros [p i] H. apply indexed_from_In in H.
  simpl. lia.
Qed.

Lemma sortedEntries_lexDesc (probabilities : list Q) :
  StronglySorted lexDesc (sortedEntries probabilities).
Proof. apply sort_indexed_lexDesc. Qed.

Lemma StronglySorted_skipn {A} (R : A -> A -> Prop) (n : nat) (l : list A) :
  StronglySorted R l -> StronglySorted R (skipn n l).
Proof.
  intro S. revert n. induction S as [|x l S IH F]; intro n.
  - rewrite skipn_nil. constructor.
  - destruct n; simpl; [now constructor | apply IH].
Qed.

Lemma StronglySorted_slice {A} (R : A -> A -> Prop) (a b : Z) (l : list A) :
  StronglySorted R l -> StronglySorted R (slice a b l).
Proof.
  intro S. unfold slice. apply StronglySorted_firstn.
  now apply StronglySorted_skipn.
Qed.

Lemma slice_from_zero {A} (stop : Z) (l : list A) :
  slice 0 stop l
  = firstn (Z.to_nat (sliceEnd stop (Z.of_nat (List.length l)))) l.
Proof.
  unfold slice, sliceEnd. cbn [Z.ltb Z.compare].
  replace (Z.to_nat (Z.min 0 (Z.of_nat (List.length l)))) with 0%nat by lia.
  cbn [skipn]. f_equal. lia.
Qed.

Lemma In_slice {A} (a b : Z) (l : list A) (x : A) :
  In x (slice a b l) -> In x l.
Proof.
  unfold slice. intro H. apply In_firstn in H. now apply In_skipn in H.
Qed.

Lemma topResults_as_entries (names : list string) (probabilities : list Q)
      (K : Z) :
  ImageClassifier.topResults names probabilities K =
  map (recordAt names probabilities)
      (map snd (slice 0 K (sortedEntries probabilities))).
Proof.
  unfold ImageClassifier.topResults. fold (sortedEntries probabilities).
  rewrite map_map. apply map_ext_in. intros e He. apply In_slice in He.
  apply sortedEntries_In in He. unfold recordAt.
  now rewrite (nth_error_nth _ _ 0 He).
Qed.

Lemma topResults_order (names : list string) (probabilities : list Q)
        (K : Z) :
  exists indices : list nat,
    ImageClassifier.topResults names probabilities K
    = map (recordAt names probabilities) indices /\
    StronglySorted
      (fun i j => nth j probabilities 0 < nth i probabilities 0 \/
                  (nth j probabilities 0 == nth i probabilities 0 /\
                   (i < j)%nat))
      indices.
Proof.
  exists (map snd (slice 0 K (sortedEntries probabilities))).
  split; [apply topResults_as_entries|].
  apply StronglySorted_map.
  pose proof (StronglySorted_slice lexDesc 0 K _
                (sortedEntries_lexDesc probabilities)) as S.
  assert (I : Forall (fun e => nth_error probabilities (snd e)
                               = Some (fst e))
                     (slice 0 K (sortedEntries probabilities))).
  { apply Forall_forall. intros e He. apply In_slice in He.
    now apply sortedEntries_In. }
  induction S as [|x l S IH F]; [constructor|].
  inversion I as [|? ? Ix Il]; subst.
  constructor; [now apply IH|].
  rewrite Forall_forall in *. intros y Hy.
  specialize (F y Hy). specialize (Il y Hy). unfold lexDesc in F.
  now rewrite (nth_error_nth _ _ 0 Ix), (nth_error_nth _ _ 0 Il).
Qed.

Lemma topResults_count (names : list string) (probabilities : list Q)
        (K : Z) :
  let N := Z.of_nat (List.length probabilities) in
  List.length (ImageClassifier.topResults names probabilities K)
  = Z.to_nat (sliceEnd K N) /\
  ImageClassifier.topResults names probabilities K
  = firstn (Z.to_nat (sliceEnd K N))
           (ImageClassifier.topResults names probabilities N).
Proof.
  intro N.
  assert (L : Z.of_nat (List.length (sortedEntries probabilities)) = N)
    by (now rewrite sortedEntries_length).
  assert (N0 : (0 <= N)%Z) by (subst N; lia).
  assert (B : (0 <= sliceEnd K N <= N)%Z)
    by (unfold sliceEnd; destruct (Z.ltb_spec K 0); lia).
  assert (P : ImageClassifier.topResults names probabilities K
              = firstn (Z.to_nat (sliceEnd K N))
                  (ImageClassifier.topResults names probabilities N)).
  { rewrite !topResults_as_entries, !slice_from_zero, L.
    rewrite <- !firstn_map. f_equal.
    replace (Z.to_nat (sliceEnd N N))
      with (List.length
              (map (recordAt names probabilities)
                   (map snd (sortedEntries probabilities)))).
    - now rewrite firstn_all.
    - rewrite !length_map, sortedEntries_length. unfold sliceEnd.
      destruct (Z.ltb_spec N 0); lia. }
  split; [|exact P].
  rewrite topResults_as_entries, !length_map, slice_from_zero,
    length_firstn, L.
  assert (List.length (sortedEntries probabilities)
          = Z.to_nat N) by lia.
  lia.
Qed.

Lemma labelAt_nonempty (names : list string) (i : nat) :
  ImageClassifier.labelAt names i <> EmptyString.
Proof.
  unfold ImageClassifier.labelAt.
  destruct (nth_error names i) as [s|]; [|discriminate].
  destruct (s =? EmptyString) eqn:E; [discriminate|].
  now apply String.eqb_neq.
Qed.

Lemma topResults_records (names : list string) (probabilities : list Q)
        (K : Z) :
  Forall (fun r => CR.confidence r = CR.probability r /\
                   In (CR.probability r) probabilities /\
                   CR.className r <> EmptyString)
         (ImageClassifier.topResults names probabilities K).
Proof.
  rewrite topResults_as_entries. rewrite map_map.
  apply Forall_forall. intros r Hr. apply in_map_iff in Hr.
  destruct Hr as [e [<- He]]. apply In_slice in He.
  apply sortedEntries_In in He. simpl. split; [reflexivity|]. split.
  - rewrite (nth_error_nth _ _ 0 He). eapply nth_error_In. exact He.
  - apply labelAt_nonempty.
Qed.

Lemma topResults_head_is_max (names : list string)
        (probabilities : list Q) (K : Z) :
  (1 <= K)%Z ->
  probabilities <> [] ->
  exists (i : nat) (rest : list CR.t),
    ImageClassifier.topResults names probabilities K
    = recordAt names probabilities i :: rest /\
    (i < List.length probabilities)%nat /\
    (forall j, (j < List.length probabilities)%nat ->
               nth j probabilities 0 <= nth i probabilities 0) /\
    (forall j, (j < i)%nat ->
               nth j probabilities 0 < nth i probabilities 0).
Proof.
  intros HK NE.
  pose proof (sortedEntries_lexDesc probabilities) as S.
  pose proof (sortedEntries_length probabilities) as L.
  destruct (sortedEntries probabilities) as [|[p i] entries] eqn:E.
  { destruct probabilities; [congruence | discriminate]. }
  assert (Hi : nth_error probabilities i = Some p).
  { apply (sortedEntries_In probabilities (p, i)). rewrite E. now left. }
  exists i, (map (recordAt names probabilities)
                 (map snd (firstn (Z.to_nat
                                     (sliceEnd K (Z.of_nat
                                        (List.length ((p, i) :: entries))))
                                   - 1) entries))).
  assert (R : forall j, (j < List.length probabilities)%nat -> j <> i ->
                        lexDesc (p, i) (nth j probabilities 0, j)).
  { intros j Hj Nj.
    destruct (indexed_complete probabilities j Hj) as [q Hq].
    assert (Hs : In (q, j) (sortedEntries probabilities)).
    { eapply Permutation_in; [symmetry; apply sort_perm | exact Hq]. }
    apply indexed_In in Hq. rewrite (nth_error_nth _ _ 0 Hq).
    rewrite E in Hs. destruct Hs as [Heq | Hs]; [congruence|].
    inversion S as [|? ? _ F]; subst. rewrite Forall_forall in F.
    now apply F. }
  rewrite (nth_error_nth _ _ 0 Hi).
  split; [|split; [|split]].
  - rewrite topResults_as_entries, E, slice_from_zero.
    assert (B : (1 <= sliceEnd K (Z.of_nat (List.length ((p, i) :: entries))))%Z).
    { unfold sliceEnd. destruct (Z.ltb_spec K 0); [lia|].
      simpl List.length. lia. }
    destruct (Z.to_nat (sliceEnd K _)) as [|m] eqn:M; [lia|].
    simpl. now rewrite Nat.sub_0_r.
  - apply nth_error_Some. congruence.
  - intros j Hj. destruct (Nat.eq_dec j i) as [-> | Nj].
    + rewrite (nth_error_nth _ _ 0 Hi). apply Qle_refl.
    + destruct (R j Hj Nj) as [Lt | [Eq _]]; simpl in *; lra.
  - intros j Hj.
    assert (Lj : (j < List.length probabilities)%nat).
    { assert (i < List.length probabilities)%nat
        by (apply nth_error_Some; congruence). lia. }
    destruct (R j Lj) as [Lt | [_ Lt]]; simpl in *; [lia | exact Lt | lia].
Qed.

(** X11: the records [classify] returns are ordered by descending
    probability, and records of equal probability by ascending index. *)
Theorem classify_order
        (c : ImageClassifier.t) (m : ImageClassifier.LayersModel)
        (imageTensor predictions : ImageClassifier.Tensor) (K : Z) :
  ImageClassifier.model c = Some m ->
  ImageClassifier.predict m imageTensor = Normal predictions ->
  let names := ImageClassifier.classNames c in
  let probabilities := ImageClassifier.tensorData predictions in
  exists indices : list nat,
    ImageClassifier.classify c imageTensor K
    = Normal (map (recordAt names probabilities) indices) /\
    StronglySorted
      (fun i j => nth j probabilities 0 < nth i probabilities 0 \/
                  (nth j probabilities 0 == nth i probabilities 0 /\
                   (i < j)%nat))
      indices.
Proof.
  intros M P names probabilities.
  destruct (topResults_order names probabilities K) as [indices [E S]].
  exists indices. split; [|exact S].
  rewrite (classify_loaded c m imageTensor predictions K M P).
  fold names probabilities. now rewrite E.
Qed.

(** [classify_order] at a concrete input. *)
Lemma classify_order_witness :
  exists indices : list nat,
    ImageClassifier.classify exampleClassifier
                             {| ImageClassifier.tensorData := [] |} 3
    = Normal (map (recordAt ["tench"; "goldfish"] [0.1; 0.7; 0.2; 0.7])
                  indices) /\
    StronglySorted
      (fun i j => nth j [0.1; 0.7; 0.2; 0.7] 0 < nth i [0.1; 0.7; 0.2; 0.7] 0
                  \/ (nth j [0.1; 0.7; 0.2; 0.7] 0
                      == nth i [0.1; 0.7; 0.2; 0.7] 0 /\ (i < j)%nat))
      indices.
Proof.
  apply (classify_order
           exampleClassifier (constantModel [0.1; 0.7; 0.2; 0.7])
           {| ImageClassifier.tensorData := [] |}
           {| ImageClassifier.tensorData := [0.1; 0.7; 0.2; 0.7] |} 3).
  - reflexivity.
  - reflexivity.
Defined.

(** X12: for any count K, negative ones included, [classify] returns the
    first [sliceEnd K N] records of the full ranking of the N classes: K
    of them for 0 <= K <= N, N for K > N, and N + K (or none) for K < 0. *)
Theorem classify_count
        (c : ImageClassifier.t) (m : ImageClassifier.LayersModel)
        (imageTensor predictions : ImageClassifier.Tensor) (K : Z) :
  ImageClassifier.model c = Some m ->
  ImageClassifier.predict m imageTensor = Normal predictions ->
  let N := Z.of_nat (List.length (ImageClassifier.tensorData predictions)) in
  exists results ranking,
    ImageClassifier.classify c imageTensor K = Normal results /\
    ImageClassifier.classify c imageTensor N = Normal ranking /\
    List.length results = Z.to_nat (sliceEnd K N) /\
    List.length ranking = Z.to_nat N /\
    results = firstn (Z.to_nat (sliceEnd K N)) ranking.
Proof.
  intros M P N.
  rewrite !(classify_loaded c m imageTensor predictions _ M P).
  destruct (topResults_count (ImageClassifier.classNames c)
              (ImageClassifier.tensorData predictions) K) as [L F].
  destruct (topResults_count (ImageClassifier.classNames c)
              (ImageClassifier.tensorData predictions) N) as [LN _].
  fold N in L, F, LN.
  eexists _, _. split; [reflexivity|]. split; [reflexivity|].
  split; [exact L|]. split; [|exact F].
  rewrite LN. unfold sliceEnd. destruct (Z.ltb_spec N 0); lia.
Qed.

(** [classify_count] at a concrete input. *)
Lemma classify_count_witness :
  exists results ranking,
    ImageClassifier.classify exampleClassifier
                             {| ImageClassifier.tensorData := [] |} (-1)
    = Normal results /\
    ImageClassifier.classify exampleClassifier
                             {| ImageClassifier.tensorData := [] |} 4
    = Normal ranking /\
    List.length results = Z.to_nat (sliceEnd (-1) 4) /\
    List.length ranking = Z.to_nat 4 /\
    results = firstn (Z.to_nat (sliceEnd (-1) 4)) ranking.
Proof.
  apply (classify_count
           exampleClassifier (constantModel [0.1; 0.7; 0.2; 0.7])
           {| ImageClassifier.tensorData := [] |}
           {| ImageClassifier.tensorData := [0.1; 0.7; 0.2; 0.7] |} (-1)).
  - reflexivity.
  - reflexivity.
Defined.

(** X13: every record of [classify] has equal [probability] and
    [confidence], a probability taken from the model's vector, and a
    non-empty class name. *)
Theorem classify_records
        (c : ImageClassifier.t) (m : ImageClassifier.LayersModel)
        (imageTensor predictions : ImageClassifier.Tensor) (K : Z) :
  ImageClassifier.model c = Some m ->
  ImageClassifier.predict m imageTensor = Normal predictions ->
  exists results,
    ImageClassifier.classify c imageTensor K = Normal results /\
    Forall (fun r => CR.confidence r = CR.probability r /\
                     In (CR.probability r)
                        (ImageClassifier.tensorData predictions) /\
                     CR.className r <> EmptyString)
           results.
Proof.
  intros M P.
  exists (ImageClassifier.topResults
            (ImageClassifier.classNames c)
            (ImageClassifier.tensorData predictions) K).
  split; [apply (classify_loaded c m); assumption|].
  apply topResults_records.
Qed.

(** [classify_records] at a concrete input. *)
Lemma classify_records_witness :
  exists results,
    ImageClassifier.classify exampleClassifier
                             {| ImageClassifier.tensorData := [] |} 3
    = Normal results /\
    Forall (fun r => CR.confidence r = CR.probability r /\
                     In (CR.probability r) [0.1; 0.7; 0.2; 0.7] /\
                     CR.className r <> EmptyString)
           results.
Proof.
  apply (classify_records
           exampleClassifier (constantModel [0.1; 0.7; 0.2; 0.7])
           {| ImageClassifier.tensorData := [] |}
           {| ImageClassifier.tensorData := [0.1; 0.7; 0.2; 0.7] |} 3).
  - reflexivity.
  - reflexivity.
Defined.

(** X14: with a count of at least 1 and a non-empty vector, the first
    record of [classify] carries the largest probability of the vector,
    at the smallest index that has it. *)
Theorem classify_head_is_max
        (c : ImageClassifier.t) (m : ImageClassifier.LayersModel)
        (imageTensor predictions : ImageClassifier.Tensor) (K : Z) :
  ImageClassifier.model c = Some m ->
  ImageClassifier.predict m imageTensor = Normal predictions ->
  (1 <= K)%Z ->
  ImageClassifier.tensorData predictions <> [] ->
  let names := ImageClassifier.classNames c in
  let probabilities := ImageClassifier.tensorData predictions in
  exists (i : nat) (rest : list CR.t),
    ImageClassifier.classify c imageTensor K
    = Normal (recordAt names probabilities i :: rest) /\
    (i < List.length probabilities)%nat /\
    (forall j, (j < List.length probabilities)%nat ->
               nth j probabilities 0 <= nth i probabilities 0) /\
    (forall j, (j < i)%nat ->
               nth j probabilities 0 < nth i probabilities 0).
Proof.
  intros M P HK NE names probabilities.
  destruct (topResults_head_is_max names probabilities K HK NE)
    as [i [rest [E H]]].
  exists i, rest. split; [|exact H].
  rewrite (classify_loaded c m imageTensor predictions K M P).
  fold names probabilities. now rewrite E.
Qed.

(** [classify_head_is_max] at a concrete input. *)
Lemma classify_head_is_max_witness :
  exists (i : nat) (rest : list CR.t),
    ImageClassifier.classify exampleClassifier
                             {| ImageClassifier.tensorData := [] |} 3
    = Normal (recordAt ["tench"; "goldfish"] [0.1; 0.7; 0.2; 0.7] i
                :: rest) /\
    (i < 4)%nat /\
    (forall j, (j < 4)%nat ->
               nth j [0.1; 0.7; 0.2; 0.7] 0 <= nth i [0.1; 0.7; 0.2; 0.7] 0) /\
    (forall j, (j < i)%nat ->
               nth j [0.1; 0.7; 0.2; 0.7] 0 < nth i [0.1; 0.7; 0.2; 0.7] 0).
Proof.
  apply (classify_head_is_max
           exampleClassifier (constantModel [0.1; 0.7; 0.2; 0.7])
           {| ImageClassifier.tensorData := [] |}
           {| ImageClassifier.tensorData := [0.1; 0.7; 0.2; 0.7] |} 3).
  - reflexivity.
  - reflexivity.
  - lia.
  - discriminate.
Defined.

(** X15: from a classifier with no load in flight, a [loadModel] that
    returns leaves the model loaded and [isLoading] reset, and any later
    [loadModel] changes nothing.  One that throws has reset [isLoading]
    and throws the prefixed message of the failure, which is either the
    download failure, the classifier being left as it was, or what the
    progress callback threw, the model then being loaded all the same.
    One that stays pending leaves [isLoading] set. *)
Theorem loadModel_outcome (w : ImageClassifier.World) (c : ImageClassifier.t)
        (options : ImageClassifier.ModelLoadOptions) :
  ImageClassifier.isLoading c = false ->
  match ImageClassifier.loadModel w c options with
  | (Normal _, c') =>
      ImageClassifier.isModelLoaded c' = true /\
      ImageClassifier.isLoading c' = false /\
      (forall w' options',
          ImageClassifier.loadModel w' c' options' = (Normal tt, c'))
  | (Throw e, c') =>
      ImageClassifier.model c = None /\
      ImageClassifier.isLoading c' = false /\
      exists error,
        e = loadFailureMessage error /\
        ((ImageClassifier.loadLayersModel
            w (ImageClassifier.modelUrlOrDefault options) = Throw error /\
          c' = c) \/
         (exists m,
             ImageClassifier.loadLayersModel
               w (ImageClassifier.modelUrlOrDefault options) = Normal m /\
             ImageClassifier.reportProgress options 1 = Throw error /\
             ImageClassifier.model c' = Some m /\
             forall w' options',
               ImageClassifier.loadModel w' c' options' = (Normal tt, c')))
  | (Pending, c') =>
      ImageClassifier.model c = None /\
      ImageClassifier.isLoading c' = true
  end.
Proof.
  intro L. unfold ImageClassifier.loadModel.
  destruct c as [m l names]. simpl in L. subst l. cbn [ImageClassifier.model].
  destruct m as [m|].
  - unfold ImageClassifier.isModelLoaded. simpl. repeat split.
  - cbn [ImageClassifier.isLoading].
    destruct (ImageClassifier.loadLayersModel w _) as [m | error |] eqn:D.
    + unfold ImageClassifier.loadImageNetLabels.
      destruct (ImageClassifier.fetchLabels w) as [labels | e |];
        cbn [bind];
        try (destruct (ImageClassifier.reportProgress options 1)
              as [u | error |] eqn:P);
        simpl; repeat split;
        exists error; (split; [reflexivity|]); right; exists m;
        repeat split.
    + simpl. repeat split. exists error. split; [reflexivity|]. now left.
    + simpl. repeat split.
Qed.

(** [loadModel_outcome] at concrete inputs: a load that returns, a
    download that fails, a progress callback that throws, and a download
    that does not settle. *)
Lemma loadModel_outcome_witness :
  let loaded :=
    {| ImageClassifier.model := Some identityModel;
       ImageClassifier.isLoading := false;
       ImageClassifier.classNames := ImageClassifier.placeholderLabels |} in
  (ImageClassifier.isModelLoaded loaded = true /\
   ImageClassifier.isLoading loaded = false /\
   (forall w' options',
       ImageClassifier.loadModel w' loaded options' = (Normal tt, loaded)))
  /\
  (ImageClassifier.model ImageClassifier.new = None /\
   ImageClassifier.isLoading ImageClassifier.new = false /\
   exists error,
     ErrorObj "모델 로딩에 실패했습니다: Failed to fetch"
     = loadFailureMessage error /\
     ((ImageClassifier.loadLayersModel
         offlineWorld
         (ImageClassifier.modelUrlOrDefault Index.noModelOptions)
       = Throw error /\
       ImageClassifier.new = ImageClassifier.new) \/
      (exists m,
          ImageClassifier.loadLayersModel
            offlineWorld
            (ImageClassifier.modelUrlOrDefault Index.noModelOptions)
          = Normal m /\
          ImageClassifier.reportProgress Index.noModelOptions 1
          = Throw error /\
          ImageClassifier.model ImageClassifier.new = Some m /\
          forall w' options',
            ImageClassifier.loadModel w' ImageClassifier.new options'
            = (Normal tt, ImageClassifier.new))))
  /\
  (ImageClassifier.model ImageClassifier.new = None /\
   ImageClassifier.isLoading loaded = false /\
   exists error,
     ErrorObj "모델 로딩에 실패했습니다: progress bar is gone"
     = loadFailureMessage error /\
     ((ImageClassifier.loadLayersModel
         labelsOfflineWorld
         (ImageClassifier.modelUrlOrDefault throwingProgress)
       = Throw error /\
       loaded = ImageClassifier.new) \/
      (exists m,
          ImageClassifier.loadLayersModel
            labelsOfflineWorld
            (ImageClassifier.modelUrlOrDefault throwingProgress)
          = Normal m /\
          ImageClassifier.reportProgress throwingProgress 1
          = Throw error /\
          ImageClassifier.model loaded = Some m /\
          forall w' options',
            ImageClassifier.loadModel w' loaded options'
            = (Normal tt, loaded))))
  /\
  (ImageClassifier.model ImageClassifier.new = None /\
   ImageClassifier.isLoading
     (ImageClassifier.setLoading true ImageClassifier.new) = true).
Proof.
  intro loaded. split; [|split; [|split]].
  - exact (loadModel_outcome labelsOfflineWorld ImageClassifier.new
                             Index.noModelOptions eq_refl).
  - exact (loadModel_outcome offlineWorld ImageClassifier.new
                             Index.noModelOptions eq_refl).
  - exact (loadModel_outcome labelsOfflineWorld ImageClassifier.new
                             throwingProgress eq_refl).
  - exact (loadModel_outcome stalledWorld ImageClassifier.new
                             Index.noModelOptions eq_refl).
Defined.

Lemma splitLines_nonempty (s : string) : ImageClassifier.splitLines s <> [].
Proof.
  induction s as [|c r IH]; simpl; [discriminate|].
  destruct (Ascii.eqb c ImageClassifier.newline); [discriminate|].
  destruct (ImageClassifier.splitLines r); [congruence | discriminate].
Qed.

Lemma join_cons (sep x y : string) (l : list string) :
  join sep (x :: y :: l) = x ++ sep ++ join sep (y :: l).
Proof. reflexivity. Qed.

Lemma join_splitLines (s : string) :
  join newlineString (ImageClassifier.splitLines s) = s.
Proof.
  induction s as [|c r IH]; [reflexivity|]. cbn [ImageClassifier.splitLines].
  pose proof (splitLines_nonempty r) as N.
  destruct (Ascii.eqb c ImageClassifier.newline) eqn:E.
  - apply Ascii.eqb_eq in E. subst c.
    destruct (ImageClassifier.splitLines r) as [|x xs]; [congruence|].
    rewrite join_cons, IH. reflexivity.
  - destruct (ImageClassifier.splitLines r) as [|x xs]; [congruence|].
    destruct xs as [|y ys].
    + simpl in *. now rewrite IH.
    + rewrite join_cons in *. rewrite <- IH. reflexivity.
Qed.

Lemma splitLines_no_newline (s : string) :
  Forall hasNoNewline (ImageClassifier.splitLines s).
Proof.
  induction s as [|c r IH]; cbn [ImageClassifier.splitLines].
  - constructor; [|constructor]. intros [|n]; discriminate.
  - destruct (Ascii.eqb c ImageClassifier.newline) eqn:E.
    + constructor; [|exact IH]. intros [|n]; discriminate.
    + destruct (ImageClassifier.splitLines r) as [|x xs].
      * constructor; [|constructor]. intros [|n]; simpl.
        -- intro H. injection H as ->. now rewrite Ascii.eqb_refl in E.
        -- discriminate.
      * inversion IH as [|? ? Hx Hxs]; subst. constructor; [|exact Hxs].
        intros [|n]; simpl.
        -- intro H. injection H as ->. now rewrite Ascii.eqb_refl in E.
        -- apply Hx.
Qed.

(** ** What [trim] strips

    The white space [trim] takes off both ends, on the UTF-8 bytes. *)

Lemma string_app_assoc (a b c : string) : (a ++ b) ++ c = a ++ b ++ c.
Proof. induction a as [|x a IH]; simpl; [reflexivity | now rewrite IH]. Qed.

Lemma whiteSpace_shape (ws : string) :
  In ws ImageClassifier.whiteSpace ->
  (exists a, ws = String a EmptyString) \/
  (exists a b, ws = String a (String b EmptyString)) \/
  (exists a b c, ws = String a (String b (String c EmptyString))).
Proof.
  intro H. cbv in H.
  repeat (destruct H as [<- | H]; [eauto 6|]). destruct H.
Qed.

Lemma isWhiteSpace_In (ws : string) :
  ImageClassifier.isWhiteSpace ws = true <->
  In ws ImageClassifier.whiteSpace.
Proof.
  unfold ImageClassifier.isWhiteSpace. apply includes_In.
Qed.

Lemma allWhite_app (a b : string) :
  allWhite a -> allWhite b -> allWhite (a ++ b).
Proof.
  induction 1 as [|ws s H A IH]; intro B; [exact B|].
  rewrite string_app_assoc. apply allWhite_cons; auto.
Qed.

Lemma string_length_app (a b : string) :
  String.length (a ++ b) = (String.length a + String.length b)%nat.
Proof. induction a as [|x a IH]; simpl; [reflexivity | now rewrite IH]. Qed.

Lemma trimStart_bounded (n : nat) : forall s,
  (String.length s <= n)%nat ->
  exists pre,
    s = pre ++ ImageClassifier.trimStart s /\ allWhite pre /\
    noWhiteStart (ImageClassifier.trimStart s).
Proof.
  induction n as [n IH] using lt_wf_ind. intros s L.
  assert (stop : forall t, t = s ->
            (forall ws rest, In ws ImageClassifier.whiteSpace ->
                             s <> ws ++ rest) ->
            exists pre, s = pre ++ t /\ allWhite pre /\ noWhiteStart t).
  { intros t -> N. exists EmptyString. split; [reflexivity|].
    split; [constructor | exact N]. }
  assert (step : forall ws rest,
            s = ws ++ rest -> ws <> EmptyString ->
            In ws ImageClassifier.whiteSpace ->
            exists pre,
              s = pre ++ ImageClassifier.trimStart rest /\ allWhite pre /\
              noWhiteStart (ImageClassifier.trimStart rest)).
  { intros ws rest -> NE W.
    destruct (IH (String.length rest)) with (s := rest)
      as [pre [E [A N]]].
    - rewrite string_length_app in L. destruct ws; [congruence|].
      simpl in *. lia.
    - lia.
    - exists (ws ++ pre). split; [|split; [|exact N]].
      + rewrite E at 1. now rewrite string_app_assoc.
      + now constructor. }
  destruct s as [|a s1]; cbn [ImageClassifier.trimStart].
  - apply stop; [reflexivity|]. intros ws rest W E.
    destruct ws; [|discriminate].
    apply isWhiteSpace_In in W. discriminate.
  - destruct (ImageClassifier.isWhiteSpace (String a EmptyString)) eqn:W1.
    { apply (step (String a EmptyString) s1); [reflexivity | discriminate|].
      now apply isWhiteSpace_In. }
    destruct s1 as [|b s2].
    { apply stop; [reflexivity|]. intros ws rest W E.
      destruct (whiteSpace_shape ws W)
        as [[x ->] | [[x [y ->]] | [x [y [z ->]]]]]; try discriminate.
      injection E as <- _. apply isWhiteSpace_In in W. congruence. }
    destruct (ImageClassifier.isWhiteSpace
                (String a (String b EmptyString))) eqn:W2.
    { apply (step (String a (String b EmptyString)) s2);
        [reflexivity | discriminate|].
      now apply isWhiteSpace_In. }
    destruct s2 as [|c s3].
    { apply stop; [reflexivity|]. intros ws rest W E.
      destruct (whiteSpace_shape ws W)
        as [[x ->] | [[x [y ->]] | [x [y [z ->]]]]]; try discriminate.
      - injection E as <- _. apply isWhiteSpace_In in W. congruence.
      - injection E as <- <- _. apply isWhiteSpace_In in W. congruence. }
    destruct (ImageClassifier.isWhiteSpace
                (String a (String b (String c EmptyString)))) eqn:W3.
    { apply (step (String a (String b (String c EmptyString))) s3);
        [reflexivity | discriminate|].
      now apply isWhiteSpace_In. }
    apply stop; [reflexivity|]. intros ws rest W E.
    destruct (whiteSpace_shape ws W)
      as [[x ->] | [[x [y ->]] | [x [y [z ->]]]]].
    + injection E as <- _. apply isWhiteSpace_In in W. congruence.
    + injection E as <- <- _. apply isWhiteSpace_In in W. congruence.
    + injection E as <- <- <- _. apply isWhiteSpace_In in W. congruence.
Qed.

Lemma trimStart_spec (s : string) :
  exists pre,
    s = pre ++ ImageClassifier.trimStart s /\ allWhite pre /\
    noWhiteStart (ImageClassifier.trimStart s).
Proof. now apply (trimStart_bounded (String.length s)). Qed.

Lemma trimEnd_spec (s : string) :
  exists post,
    s = ImageClassifier.trimEnd s ++ post /\ allWhite post /\
    noWhiteEnd (ImageClassifier.trimEnd s).
Proof.
  induction s as [|a r [post [E [A N]]]]; cbn [ImageClassifier.trimEnd].
  - exists EmptyString. split; [reflexivity|]. split; [constructor|].
    intros pre ws W H. destruct pre; [|discriminate]. simpl in H. subst ws.
    apply isWhiteSpace_In in W. discriminate.
  - cbv zeta.
    destruct (ImageClassifier.isWhiteSpace
                (String a (ImageClassifier.trimEnd r))) eqn:W.
    + exists (String a (ImageClassifier.trimEnd r) ++ post).
      split; [simpl; now rewrite <- E|]. split.
      * constructor; [now apply isWhiteSpace_In | exact A].
      * intros pre ws W' H. destruct pre; [|discriminate].
        simpl in H. subst ws. apply isWhiteSpace_In in W'. discriminate.
    + exists post. split; [simpl; now rewrite <- E|].
      split; [exact A|].
      intros pre ws W' H. destruct pre as [|x pre]; simpl in H.
      * subst ws. apply isWhiteSpace_In in W'. congruence.
      * injection H as _ H. exact (N pre ws W' H).
Qed.

Lemma trim_spec (s : string) :
  exists pre post,
    s = pre ++ ImageClassifier.trim s ++ post /\
    allWhite pre /\ allWhite post /\
    noWhiteStart (ImageClassifier.trim s) /\
    noWhiteEnd (ImageClassifier.trim s).
Proof.
  unfold ImageClassifier.trim.
  destruct (trimStart_spec s) as [pre [E1 [A1 N1]]].
  destruct (trimEnd_spec (ImageClassifier.trimStart s))
    as [post [E2 [A2 N2]]].
  exists pre, post. repeat split; try assumption.
  - now rewrite <- E2.
  - intros ws rest W H. apply (N1 ws (rest ++ post) W).
    rewrite E2 at 1. rewrite H. now rewrite string_app_assoc.
Qed.

(** X16: when the model and the label file both arrive and the progress
    callback, if there is one, returns, [loadModel] returns and the class
    names are the lines of the trimmed file.  Joined by line feeds they
    are the file's text without the white space at its two ends: what is
    taken off is white space only, and no white-space character is left
    at either end.  No name holds a line feed, and the list is not
    empty. *)
Theorem loadModel_labels_loaded
        (w : ImageClassifier.World) (c : ImageClassifier.t)
        (options : ImageClassifier.ModelLoadOptions)
        (m : ImageClassifier.LayersModel)
        (status : nat) (statusText labelsText : string) :
  ImageClassifier.model c = None ->
  ImageClassifier.isLoading c = false ->
  ImageClassifier.loadLayersModel
    w (ImageClassifier.modelUrlOrDefault options) = Normal m ->
  ImageClassifier.fetch w ImageClassifier.labelsUrl
  = ImageClassifier.FetchResponse true status statusText
                                  (Normal labelsText) ->
  progressReturns options ->
  exists c' pre post,
    ImageClassifier.loadModel w c options = (Normal tt, c') /\
    ImageClassifier.model c' = Some m /\
    ImageClassifier.classNames c'
    = ImageClassifier.splitLines (ImageClassifier.trim labelsText) /\
    join newlineString (ImageClassifier.classNames c')
    = ImageClassifier.trim labelsText /\
    labelsText
    = pre ++ join newlineString (ImageClassifier.classNames c') ++ post /\
    allWhite pre /\ allWhite post /\
    noWhiteStart (join newlineString (ImageClassifier.classNames c')) /\
    noWhiteEnd (join newlineString (ImageClassifier.classNames c')) /\
    Forall hasNoNewline (ImageClassifier.classNames c') /\
    ImageClassifier.classNames c' <> [].
Proof.
  intros M L D F P.
  unfold ImageClassifier.loadModel, ImageClassifier.loadImageNetLabels,
    ImageClassifier.fetchLabels.
  rewrite M, L, D, F. cbn. rewrite P.
  destruct (trim_spec labelsText) as [pre [post [E [A1 [A2 [N1 N2]]]]]].
  pose proof (join_splitLines (ImageClassifier.trim labelsText)) as J.
  rewrite <- J in E, N1, N2.
  eexists. exists pre, post. split; [reflexivity|].
  cbn [ImageClassifier.model ImageClassifier.classNames].
  split; [reflexivity|]. split; [reflexivity|].
  split; [apply join_splitLines|].
  split; [exact E|].
  split; [exact A1|]. split; [exact A2|].
  split; [exact N1|]. split; [exact N2|].
  split; [apply splitLines_no_newline | apply splitLines_nonempty].
Qed.

(** [loadModel_labels_loaded] at a concrete input: a label file of two
    lines that opens with a no-break space and closes with an ideographic
    space and a line feed. *)
Lemma loadModel_labels_loaded_witness :
  exists c' pre post,
    ImageClassifier.loadModel paddedLabelsWorld ImageClassifier.new
                              Index.noModelOptions
    = (Normal tt, c') /\
    ImageClassifier.classNames c' = ["tench"; "goldfish"] /\
    paddedLabels
    = pre ++ join newlineString (ImageClassifier.classNames c') ++ post /\
    allWhite pre /\ allWhite post.
Proof.
  destruct (loadModel_labels_loaded
              paddedLabelsWorld ImageClassifier.new Index.noModelOptions
              identityModel 200 "OK" paddedLabels
              eq_refl eq_refl eq_refl eq_refl eq_refl)
    as (c' & pre & post & H1 & _ & H3 & _ & H5 & H6 & H7 & _).
  exists c', pre, post.
  split; [exact H1|]. split; [rewrite H3; vm_compute; reflexivity|].
  split; [exact H5|]. split; [exact H6 | exact H7].
Defined.

(** Closes a case by the equations on the outcomes of the steps. *)
Ltac settle :=
  repeat match goal with
         | H : Normal _ = Normal _ |- _ => injection H as H; try subst
         | H : Throw _ = Throw _ |- _ => injection H as H; try subst
         | H : ?x = _, H' : ?x = _ |- _ => rewrite H in H'
         end;
  try discriminate; try reflexivity; try congruence.

(** X17: [classifyImage] throws exactly when one of its steps fails
    (loading the model, preprocessing the image, classifying), and what it
    throws is the [ImageAnalysisError] with the code
    'CLASSIFICATION_FAILED' around the message of that failure.
    [analyzeImage] throws exactly when one of these steps or the caption
    step fails; it throws a failure that is an [ImageAnalysisError] as it
    is, and any other inside one with the code 'ANALYSIS_FAILED' around
    its message.  So whatever [analyzeImage] throws is an
    [ImageAnalysisError].  The classifier the call went through is left
    as the module state. *)
Theorem tagged_failures (w : ImageClassifier.World) (g : Index.Global)
        (imageInput : ImageClassifier.ImageInput)
        (options : Index.AnalyzeImageOptions) :
  let loaded :=
    Index.ensureLoaded w (Index.ensureClassifier g)
                       (Index.modelOptions options) in
  (forall e g',
      Index.classifyImage w g imageInput options = (Throw e, g') <->
      g' = Some (snd loaded) /\
      exists error,
        classifyFails w g imageInput options error /\
        e = classificationFailure error) /\
  (forall e g',
      Index.analyzeImage w g imageInput options = (Throw e, g') <->
      g' = Some (snd loaded) /\
      exists error,
        analyzeFails w g imageInput options error /\
        e = analysisFailure error) /\
  (forall e g',
      Index.analyzeImage w g imageInput options = (Throw e, g') ->
      exists message code, e = ImageAnalysisError message code).
Proof.
  intro loaded. subst loaded. split; [|split].
  - intros e g'.
    unfold Index.classifyImage, classifyFails, classificationFailure.
    cbv zeta.
    destruct (Index.ensureLoaded w _ _) as [r c1]. cbn [fst snd].
    repeat (match goal with
            | |- context [bind ?x _] => destruct x as [? | ? | ] eqn:?
            | |- context [tryCatch ?x _] => destruct x as [? | ? | ] eqn:?
            end; cbn [bind tryCatch]);
      repeat match goal with u : unit |- _ => destruct u end;
      (split;
       [ intro H; inversion H; subst; (split; [reflexivity|]);
         eexists; (split; [|reflexivity]); eauto 10
       | intros [-> [error [F ->]]];
         decompose [Logic.or and ex] F; settle ]).
  - intros e g'.
    unfold Index.analyzeImage, analyzeFails, classifyFails, analysisFailure.
    cbv zeta.
    destruct (Index.ensureLoaded w _ _) as [r c1]. cbn [fst snd].
    repeat (match goal with
            | |- context [bind ?x _] => destruct x as [? | ? | ] eqn:?
            | |- context [tryCatch ?x _] => destruct x as [? | ? | ] eqn:?
            end; cbn [bind tryCatch]);
      repeat match goal with u : unit |- _ => destruct u end;
      (split;
       [ intro H;
         try match type of H with
             | context [instanceofImageAnalysisError ?x] =>
                 destruct (instanceofImageAnalysisError x) eqn:T
             end;
         inversion H; subst; (split; [reflexivity|]);
         eexists; (split; [|rewrite ?T; reflexivity]); eauto 12
       | intros [-> [error [F ->]]];
         decompose [Logic.or and ex] F; settle;
         now destruct (instanceofImageAnalysisError _) ]).
  - intros e g' H. apply analyzeImage_throws_tagged in H.
    destruct H as [T _]. destruct e; try discriminate. now eexists _, _.
Qed.

(** [tagged_failures] at a concrete input: the browser gives no 2D
    context, and both entry points wrap that failure. *)
Lemma tagged_failures_witness :
  (exists error,
      classifyFails brokenCanvasWorld None
                    ImageClassifier.HTMLImageElement Index.noOptions error /\
      ImageAnalysisError
        "이미지 분류 중 오류가 발생했습니다: Canvas 컨텍스트를 생성할 수 없습니다."
        "CLASSIFICATION_FAILED"
      = classificationFailure error) /\
  (exists error,
      analyzeFails brokenCanvasWorld None
                   ImageClassifier.HTMLImageElement Index.noOptions error /\
      ImageAnalysisError
        "이미지 분석 중 오류가 발생했습니다: Canvas 컨텍스트를 생성할 수 없습니다."
        "ANALYSIS_FAILED"
      = analysisFailure error) /\
  (exists message code,
      ImageAnalysisError
        "이미지 분석 중 오류가 발생했습니다: Canvas 컨텍스트를 생성할 수 없습니다."
        "ANALYSIS_FAILED"
      = ImageAnalysisError message code).
Proof.
  destruct (tagged_failures brokenCanvasWorld None
              ImageClassifier.HTMLImageElement Index.noOptions)
    as [C [A T]].
  split; [|split].
  - eapply C. reflexivity.
  - eapply A. reflexivity.
  - eapply T. reflexivity.
Defined.

Lemma ensureLoaded_normal (w : ImageClassifier.World)
      (c c1 : ImageClassifier.t)
      (options : option ImageClassifier.ModelLoadOptions) (u : unit) :
  Index.ensureLoaded w c options = (Normal u, c1) ->
  ImageClassifier.isModelLoaded c1 = true.
Proof.
  unfold Index.ensureLoaded.
  destruct (ImageClassifier.isModelLoaded c) eqn:L.
  - intro H. injection H as _ <-. exact L.
  - unfold ImageClassifier.loadModel, ImageClassifier.isModelLoaded in *.
    destruct (ImageClassifier.model c); [discriminate|].
    destruct (ImageClassifier.isLoading c); [discriminate|].
    destruct (ImageClassifier.loadLayersModel w _) as [m | e |];
      try discriminate.
    unfold ImageClassifier.loadImageNetLabels.
    destruct (ImageClassifier.fetchLabels w); cbn [bind];
      try discriminate;
      destruct (ImageClassifier.reportProgress _ 1); try discriminate;
      intro H; injection H as _ <-; reflexivity.
Qed.

(** X18: on a fresh module state, a [preloadModel] that returns leaves
    the status loaded.  One that throws throws the plain error of
    [loadModel]: for a failed download, leaving a classifier without a
    model, with status not loaded and no class; or for a progress
    callback that threw, the status then being loaded.  One that stays
    pending has left a classifier with [isLoading] set. *)
Theorem preloadModel_outcome (w : ImageClassifier.World)
        (options : ImageClassifier.ModelLoadOptions) :
  match Index.preloadModel w None options with
  | (Normal _, g') =>
      fst (Index.getModelStatus g') = true
  | (Throw e, g') =>
      exists error,
        e = loadFailureMessage error /\
        ((ImageClassifier.loadLayersModel
            w (ImageClassifier.modelUrlOrDefault options) = Throw error /\
          g' = Some ImageClassifier.new /\
          Index.getModelStatus g' = (false, 0%nat)) \/
         (exists m,
             ImageClassifier.loadLayersModel
               w (ImageClassifier.modelUrlOrDefault options) = Normal m /\
             ImageClassifier.reportProgress options 1 = Throw error /\
             fst (Index.getModelStatus g') = true))
  | (Pending, g') =>
      exists c', g' = Some c' /\ ImageClassifier.isLoading c' = true
  end.
Proof.
  unfold Index.preloadModel, Index.ensureLoaded, ImageClassifier.loadModel,
    ImageClassifier.loadImageNetLabels.
  simpl.
  destruct (ImageClassifier.loadLayersModel w _) as [m | error |] eqn:D.
  - destruct (ImageClassifier.fetchLabels w); cbn [bind];
      try (destruct (ImageClassifier.reportProgress options 1)
            as [u | error |] eqn:P);
      simpl; try reflexivity;
      try (now eexists; split; [reflexivity|]);
      exists error; (split; [reflexivity|]); right; exists m; auto.
  - simpl. exists error. split; [reflexivity|]. left. auto.
  - simpl. eexists. split; reflexivity.
Qed.

(** [preloadModel_outcome] at concrete inputs: a load that returns, a
    download that fails, and a progress callback that throws. *)
Lemma preloadModel_outcome_witness :
  fst (Index.getModelStatus
         (Some {| ImageClassifier.model := Some identityModel;
                  ImageClassifier.isLoading := false;
                  ImageClassifier.classNames :=
                    ImageClassifier.placeholderLabels |})) = true /\
  (exists error,
      ErrorObj "모델 로딩에 실패했습니다: Failed to fetch"
      = loadFailureMessage error /\
      ((ImageClassifier.loadLayersModel
          offlineWorld
          (ImageClassifier.modelUrlOrDefault Index.noModelOptions)
        = Throw error /\
        Some ImageClassifier.new = Some ImageClassifier.new /\
        Index.getModelStatus (Some ImageClassifier.new) = (false, 0%nat)) \/
       (exists m,
           ImageClassifier.loadLayersModel
             offlineWorld
             (ImageClassifier.modelUrlOrDefault Index.noModelOptions)
           = Normal m /\
           ImageClassifier.reportProgress Index.noModelOptions 1
           = Throw error /\
           fst (Index.getModelStatus (Some ImageClassifier.new)) = true)))
  /\
  (exists error,
      ErrorObj "모델 로딩에 실패했습니다: progress bar is gone"
      = loadFailureMessage error /\
      ((ImageClassifier.loadLayersModel
          labelsOfflineWorld
          (ImageClassifier.modelUrlOrDefault throwingProgress)
        = Throw error /\
        Some {| ImageClassifier.model := Some identityModel;
                ImageClassifier.isLoading := false;
                ImageClassifier.classNames :=
                  ImageClassifier.placeholderLabels |}
        = Some ImageClassifier.new /\
        Index.getModelStatus
          (Some {| ImageClassifier.model := Some identityModel;
                   ImageClassifier.isLoading := false;
                   ImageClassifier.classNames :=
                     ImageClassifier.placeholderLabels |})
        = (false, 0%nat)) \/
       (exists m,
           ImageClassifier.loadLayersModel
             labelsOfflineWorld
             (ImageClassifier.modelUrlOrDefault throwingProgress)
           = Normal m /\
           ImageClassifier.reportProgress throwingProgress 1
           = Throw error /\
           fst (Index.getModelStatus
                  (Some {| ImageClassifier.model := Some identityModel;
                           ImageClassifier.isLoading := false;
                           ImageClassifier.classNames :=
                             ImageClassifier.placeholderLabels |}))
           = true))).
Proof.
  split; [|split].
  - exact (preloadModel_outcome labelsOfflineWorld Index.noModelOptions).
  - exact (preloadModel_outcome offlineWorld Index.noModelOptions).
  - exact (preloadModel_outcome labelsOfflineWorld throwingProgress).
Defined.

(** X19: whenever [analyzeImage] returns a result, [classifyImage] on the
    same state, image and options returns that result's classification
    list and leaves the same state. *)
Theorem analyzeImage_classifyImage (w : ImageClassifier.World)
        (g g' : Index.Global) (imageInput : ImageClassifier.ImageInput)
        (options : Index.AnalyzeImageOptions) (result : AltTextResult.t) :
  Index.analyzeImage w g imageInput options = (Normal result, g') ->
  Index.classifyImage w g imageInput options
  = (Normal (AltTextResult.classifications result), g').
Proof.
  unfold Index.analyzeImage, Index.classifyImage.
  destruct (Index.ensureLoaded w (Index.ensureClassifier g)
                               (Index.modelOptions options)) as [r c1].
  destruct r as [u | e |]; simpl.
  - destruct (ImageClassifier.processImage w imageInput _ _)
      as [tensor | e |]; simpl.
    + destruct (ImageClassifier.classify c1 tensor _)
        as [classifications | e |]; simpl.
      * destruct classifications as [|first rest].
        -- simpl. intro H. now injection H as <- <-.
        -- destruct (SmartCaptionGenerator.generateSmartCaption
                       _ (first :: rest)) as [res | e |] eqn:G; simpl.
           ++ intro H. injection H as <- <-.
              apply generateSmartCaption_fields in G. destruct G as [-> _].
              reflexivity.
           ++ destruct (instanceofImageAnalysisError e); discriminate.
           ++ discriminate.
      * destruct (instanceofImageAnalysisError e); discriminate.
      * discriminate.
    + destruct (instanceofImageAnalysisError e); discriminate.
    + discriminate.
  - destruct (instanceofImageAnalysisError e); discriminate.
  - discriminate.
Qed.

(** [analyzeImage_classifyImage] at a concrete input: a fresh module
    state, a model that ranks three classes, and the three records both
    entry points return. *)
Lemma analyzeImage_classifyImage_witness :
  Index.classifyImage (constantWorld [0.125; 0.5; 0.25]) None
                      ImageClassifier.HTMLImageElement Index.noOptions
  = (Normal
       (AltTextResult.classifications
          {| AltTextResult.altText := "goldfish와 tench가 함께 있는 사진입니다";
             AltTextResult.classifications :=
               [ {| CR.className := "goldfish";
                    CR.probability := 0.5; CR.confidence := 0.5 |};
                 {| CR.className := "golden_retriever";
                    CR.probability := 0.25; CR.confidence := 0.25 |};
                 {| CR.className := "tench";
                    CR.probability := 0.125; CR.confidence := 0.125 |} ];
             AltTextResult.confidence := 0.5 |}),
     Some {| ImageClassifier.model :=
               Some (constantModel [0.125; 0.5; 0.25]);
             ImageClassifier.isLoading := false;
             ImageClassifier.classNames :=
               ["tench"; "goldfish"; "golden_retriever"] |}).
Proof.
  apply (analyzeImage_classifyImage
           (constantWorld [0.125; 0.5; 0.25]) None).
  vm_compute. reflexivity.
Defined.

(** X20: on a loaded classifier, with preprocessing and prediction
    succeeding, [classifyImage] returns the top records for the requested
    count, where a missing count and the count 0 both mean 5, leaves the
    classifier as it was, and for a positive count returns the minimum of
    the count and the number of classes. *)
Theorem classifyImage_loaded (w : ImageClassifier.World)
        (c : ImageClassifier.t) (m : ImageClassifier.LayersModel)
        (imageInput : ImageClassifier.ImageInput)
        (options : Index.AnalyzeImageOptions)
        (tensor predictions : ImageClassifier.Tensor) :
  ImageClassifier.model c = Some m ->
  ImageClassifier.processImage w imageInput (Index.targetSize options)
                               (Index.normalize options) = Normal tensor ->
  ImageClassifier.predict m tensor = Normal predictions ->
  let probabilities := ImageClassifier.tensorData predictions in
  let K := match Index.maxPredictions options with
           | None => 5%Z
           | Some n => if (n =? 0)%Z then 5%Z else n
           end in
  Index.classifyImage w (Some c) imageInput options
  = (Normal (ImageClassifier.topResults (ImageClassifier.classNames c)
               probabilities K),
     Some c) /\
  ((0 < K)%Z ->
   List.length (ImageClassifier.topResults (ImageClassifier.classNames c)
                  probabilities K)
   = Nat.min (Z.to_nat K) (List.length probabilities)).
Proof.
  intros M P D probabilities K. split.
  - unfold Index.classifyImage, Index.ensureLoaded,
      ImageClassifier.isModelLoaded, ImageClassifier.classify.
    cbn [Index.ensureClassifier]. rewrite M. cbn [bind]. rewrite P.
    cbn [bind]. rewrite M, D. reflexivity.
  - intro HK.
    destruct (topResults_count (ImageClassifier.classNames c)
                               probabilities K) as [L _].
    rewrite L. unfold sliceEnd.
    destruct (Z.ltb_spec K 0); lia.
Qed.

(** [classifyImage_loaded] at a concrete input. *)
Lemma classifyImage_loaded_witness :
  let c := {| ImageClassifier.model := Some (constantModel [0.1; 0.7; 0.2]);
              ImageClassifier.isLoading := false;
              ImageClassifier.classNames := ["tench"; "goldfish"] |} in
  let options := {| Index.targetSize := None; Index.normalize := None;
                    Index.maxPredictions := Some 0%Z;
                    Index.modelOptions := None |} in
  Index.classifyImage (constantWorld [0.1; 0.7; 0.2]) (Some c)
                      ImageClassifier.HTMLImageElement options
  = (Normal (ImageClassifier.topResults ["tench"; "goldfish"]
               [0.1; 0.7; 0.2] 5),
     Some c) /\
  ((0 < 5)%Z ->
   List.length (ImageClassifier.topResults ["tench"; "goldfish"]
                  [0.1; 0.7; 0.2] 5)
   = Nat.min (Z.to_nat 5) 3).
Proof.
  intros c options.
  apply (classifyImage_loaded
           (constantWorld [0.1; 0.7; 0.2]) c (constantModel [0.1; 0.7; 0.2])
           ImageClassifier.HTMLImageElement options
           {| ImageClassifier.tensorData := [] |}
           {| ImageClassifier.tensorData := [0.1; 0.7; 0.2] |}).
  - reflexivity.
  - reflexivity.
  - reflexivity.
Defined.

Lemma In_nth_le (l : list Q) (q : Q) :
  In q l -> exists j, (j < List.length l)%nat /\ nth j l 0 = q.
Proof.
  intro H. apply (In_nth l q 0) in H. destruct H as [j [L E]]. now exists j.
Qed.

(** X21: on a loaded classifier whose model answers with non-negative
    probabilities, one of them positive, and a positive count,
    [analyzeImage] returns a caption with the top records and, as
    confidence, the largest probability of the vector, and leaves the
    classifier as it was. *)
Theorem analyzeImage_loaded (w : ImageClassifier.World)
        (c : ImageClassifier.t) (m : ImageClassifier.LayersModel)
        (imageInput : ImageClassifier.ImageInput)
        (options : Index.AnalyzeImageOptions)
        (tensor predictions : ImageClassifier.Tensor) :
  ImageClassifier.model c = Some m ->
  ImageClassifier.processImage w imageInput (Index.targetSize options)
                               (Index.normalize options) = Normal tensor ->
  ImageClassifier.predict m tensor = Normal predictions ->
  let probabilities := ImageClassifier.tensorData predictions in
  Forall (fun p => 0 <= p) probabilities ->
  Exists (fun p => 0 < p) probabilities ->
  (0 < Index.maxPredictionsOr5 options)%Z ->
  exists (caption : string) (i : nat),
    Index.analyzeImage w (Some c) imageInput options
    = (Normal
         {| AltTextResult.altText := caption;
            AltTextResult.classifications :=
              ImageClassifier.topResults
                (ImageClassifier.classNames c) probabilities
                (Index.maxPredictionsOr5 options);
            AltTextResult.confidence := nth i probabilities 0 |},
       Some c) /\
    (i < List.length probabilities)%nat /\
    0 < nth i probabilities 0 /\
    (forall j, (j < List.length probabilities)%nat ->
               nth j probabilities 0 <= nth i probabilities 0).
Proof.
  intros M P D probabilities F E HK.
  assert (NE : probabilities <> []).
  { intro H. rewrite H in E. inversion E. }
  destruct (topResults_head_is_max (ImageClassifier.classNames c)
              probabilities (Index.maxPredictionsOr5 options))
    as [i [rest [T [Li [Mx _]]]]]; [lia | exact NE |].
  assert (Pi : 0 < nth i probabilities 0).
  { apply Exists_exists in E. destruct E as [p [Hp Pp]].
    apply In_nth_le in Hp. destruct Hp as [j [Lj <-]].
    eapply Qlt_le_trans; [exact Pp | now apply Mx]. }
  pose proof (topResults_records (ImageClassifier.classNames c)
                probabilities (Index.maxPredictionsOr5 options)) as R.
  destruct (generateSmartCaption_returns
              (ImageClassifier.host w)
              (recordAt (ImageClassifier.classNames c) probabilities i)
              rest) as [caption G].
  - exact Pi.
  - apply Forall_forall. intros r Hr. apply In_slice in Hr.
    rewrite <- T in Hr. rewrite Forall_forall in R, F.
    destruct (R r Hr) as [-> [Hin _]]. now apply F.
  - exists caption, i. split; [|now repeat split].
    unfold Index.analyzeImage, Index.ensureLoaded,
      ImageClassifier.isModelLoaded, ImageClassifier.classify.
    cbn [Index.ensureClassifier]. rewrite M. cbn [bind]. rewrite P.
    cbn [bind]. rewrite M, D. cbn [bind tryCatch].
    fold probabilities. rewrite T, G. cbn [tryCatch]. reflexivity.
Qed.

(** [analyzeImage_loaded] at a concrete input. *)
Lemma analyzeImage_loaded_witness :
  let c := {| ImageClassifier.model := Some (constantModel [0.1; 0.7; 0.2]);
              ImageClassifier.isLoading := false;
              ImageClassifier.classNames :=
                ["tench"; "goldfish"; "golden_retriever"] |} in
  exists (caption : string) (i : nat),
    Index.analyzeImage (constantWorld [0.1; 0.7; 0.2]) (Some c)
                       ImageClassifier.HTMLImageElement Index.noOptions
    = (Normal
         {| AltTextResult.altText := caption;
            AltTextResult.classifications :=
              ImageClassifier.topResults
                ["tench"; "goldfish"; "golden_retriever"] [0.1; 0.7; 0.2] 5;
            AltTextResult.confidence := nth i [0.1; 0.7; 0.2] 0 |},
       Some c) /\
    (i < 3)%nat /\
    0 < nth i [0.1; 0.7; 0.2] 0 /\
    (forall j, (j < 3)%nat ->
               nth j [0.1; 0.7; 0.2] 0 <= nth i [0.1; 0.7; 0.2] 0).
Proof.
  intro c.
  apply (analyzeImage_loaded
           (constantWorld [0.1; 0.7; 0.2]) c (constantModel [0.1; 0.7; 0.2])
           ImageClassifier.HTMLImageElement Index.noOptions
           {| ImageClassifier.tensorData := [] |}
           {| ImageClassifier.tensorData := [0.1; 0.7; 0.2] |}).
  - reflexivity.
  - reflexivity.
  - reflexivity.
  - repeat constructor; discriminate.
  - constructor. reflexivity.
  - reflexivity.
Defined.

Lemma validateImageFormat_supported (type : string) :
  In type ImageProcessor.SUPPORTED_FORMATS ->
  ImageProcessor.validateImageFormat type = Normal tt.
Proof.
  unfold ImageProcessor.validateImageFormat. intro H.
  assert (N : type <> EmptyString).
  { intros ->. simpl in H. intuition discriminate. }
  apply String.eqb_neq in N. apply includes_In in H. now rewrite N, H.
Qed.

Lemma validateImageFormat_unsupported (type : string) :
  ~ In type ImageProcessor.SUPPORTED_FORMATS ->
  ImageProcessor.validateImageFormat type
  = Throw ImageProcessor.unsupportedFormat.
Proof.
  unfold ImageProcessor.validateImageFormat. intro H.
  apply includes_not_In in H. now rewrite H, orb_true_r.
Qed.

(** X22: [validateImageFormat] returns exactly for the three supported
    MIME types and throws the error that lists them for every other
    type; the empty type, 'image/PNG' and 'image/gif' are not supported. *)
Theorem validateImageFormat_spec (type : string) :
  (In type ImageProcessor.SUPPORTED_FORMATS <->
   ImageProcessor.validateImageFormat type = Normal tt) /\
  (~ In type ImageProcessor.SUPPORTED_FORMATS <->
   ImageProcessor.validateImageFormat type
   = Throw (ErrorObj ("지원하지 않는 파일 형식입니다. 지원 형식: "
                      ++ "image/jpeg, image/png, image/webp"))) /\
  ~ In EmptyString ImageProcessor.SUPPORTED_FORMATS /\
  ~ In "image/PNG" ImageProcessor.SUPPORTED_FORMATS /\
  ~ In "image/gif" ImageProcessor.SUPPORTED_FORMATS.
Proof.
  assert (D : In type ImageProcessor.SUPPORTED_FORMATS \/
              ~ In type ImageProcessor.SUPPORTED_FORMATS).
  { destruct (includes ImageProcessor.SUPPORTED_FORMATS type) eqn:E;
      [left; now apply includes_In | right; now apply includes_not_In]. }
  split; [|split].
  - split; [apply validateImageFormat_supported|].
    intro H. destruct D as [D | D]; [exact D|].
    rewrite (validateImageFormat_unsupported _ D) in H. discriminate.
  - split; [apply validateImageFormat_unsupported|].
    intros H D'. rewrite (validateImageFormat_supported _ D') in H.
    discriminate.
  - repeat split; simpl; intuition discriminate.
Qed.

(** X23: [toImageElement] yields an image exactly for an image element
    (itself), a canvas whose blob exists and loads, and a file or blob of
    a supported type that loads. *)
Theorem toImageElement_spec (imageInput : ImageProcessor.Input)
        (img : ImageProcessor.Image) :
  ImageProcessor.toImageElement imageInput = Normal img <->
  imageInput = ImageProcessor.ImageElement img \/
  imageInput = ImageProcessor.CanvasElement (Some (Some img)) \/
  exists type,
    In type ImageProcessor.SUPPORTED_FORMATS /\
    (imageInput = ImageProcessor.FileInput type (Some img) \/
     imageInput = ImageProcessor.BlobInput type (Some img)).
Proof.
  split.
  - destruct imageInput as [i | [[i|]|] | type [i|] | type [i|] |];
      simpl; try discriminate;
      try (unfold ImageProcessor.validateImageFormat;
           destruct ((type =? EmptyString)
                     || negb (includes ImageProcessor.SUPPORTED_FORMATS
                                       type)) eqn:V;
           simpl; try discriminate).
    + intro H. injection H as ->. now left.
    + intro H. injection H as ->. right. now left.
    + intro H. injection H as ->. right. right. exists type.
      apply orb_false_iff in V. destruct V as [_ V].
      apply negb_false_iff, includes_In in V. split; [exact V | now left].
    + intro H. injection H as ->. right. right. exists type.
      apply orb_false_iff in V. destruct V as [_ V].
      apply negb_false_iff, includes_In in V. split; [exact V | now right].
  - intros [-> | [-> | [type [S [-> | ->]]]]]; simpl; try reflexivity;
      now rewrite (validateImageFormat_supported type S).
Qed.

(** [toImageElement_spec] at a concrete input. *)
Lemma toImageElement_spec_witness :
  ImageProcessor.toImageElement
    (ImageProcessor.FileInput
       "image/png" (Some {| ImageProcessor.width := 640;
                            ImageProcessor.height := 480 |}))
  = Normal {| ImageProcessor.width := 640; ImageProcessor.height := 480 |}.
Proof.
  apply (proj2 (toImageElement_spec _ _)).
  right. right. exists "image/png". split; [simpl; tauto | now left].
Defined.

(** X24: without a 2D context [resizeImage] throws; with one, the canvas
    is a square of the target size, and the source rectangle drawn onto
    all of it is the centred square of the image: as wide as the shorter
    side, inside the image, with equal margins on both sides. *)
Theorem resizeImage_crop (img : ImageProcessor.Image) (targetSize : nat) :
  ImageProcessor.resizeImage false img targetSize
  = Throw (ErrorObj "Canvas 컨텍스트를 생성할 수 없습니다.") /\
  exists canvas,
    ImageProcessor.resizeImage true img targetSize = Normal canvas /\
    ImageProcessor.canvasWidth canvas = targetSize /\
    ImageProcessor.canvasHeight canvas = targetSize /\
    let d := ImageProcessor.drawn canvas in
    let w := ImageProcessor.ofNat (ImageProcessor.width img) in
    let h := ImageProcessor.ofNat (ImageProcessor.height img) in
    ImageProcessor.sWidth d == ImageProcessor.sHeight d /\
    (ImageProcessor.sWidth d == w \/ ImageProcessor.sWidth d == h) /\
    ImageProcessor.sWidth d <= w /\ ImageProcessor.sHeight d <= h /\
    0 <= ImageProcessor.sx d /\ 0 <= ImageProcessor.sy d /\
    ImageProcessor.sx d + ImageProcessor.sWidth d + ImageProcessor.sx d == w /\
    ImageProcessor.sy d + ImageProcessor.sHeight d + ImageProcessor.sy d == h /\
    (ImageProcessor.sx d == 0 \/ ImageProcessor.sy d == 0) /\
    ImageProcessor.dx d = 0 /\ ImageProcessor.dy d = 0 /\
    ImageProcessor.dWidth d = ImageProcessor.ofNat targetSize /\
    ImageProcessor.dHeight d = ImageProcessor.ofNat targetSize.
Proof.
  split; [reflexivity|]. eexists. split; [reflexivity|].
  cbn [ImageProcessor.canvasWidth ImageProcessor.canvasHeight
       ImageProcessor.drawn ImageProcessor.sx ImageProcessor.sy
       ImageProcessor.sWidth ImageProcessor.sHeight ImageProcessor.dx
       ImageProcessor.dy ImageProcessor.dWidth ImageProcessor.dHeight].
  split; [reflexivity|]. split; [reflexivity|]. cbv zeta.
  set (w := ImageProcessor.ofNat (ImageProcessor.width img)).
  set (h := ImageProcessor.ofNat (ImageProcessor.height img)).
  assert (Lw : 0 <= w) by (unfold w, ImageProcessor.ofNat, Qle; simpl; lia).
  assert (Lh : 0 <= h) by (unfold h, ImageProcessor.ofNat, Qle; simpl; lia).
  clearbody w h. unfold Qdiv. change (/ 2) with (1 # 2).
  destruct (Q.min_spec w h) as [[L E] | [L E]]; rewrite E;
    repeat match goal with |- _ /\ _ => split end;
    try reflexivity; try lra; try (left; lra); try (right; lra).
Qed.

(** X25: for an input whose load events have fired, [processImage]
    settles.  It returns only with a 2D context and an input that became
    an image; the tensor has shape [1, size, size, 3] with size 224 by
    default and is divided by 255 unless [normalize] is false.  It throws
    what [toImageElement] throws, or the context error when the image was
    obtained. *)
Theorem processImage_spec (hasContext : bool)
        (imageInput : ImageProcessor.Input)
        (options : ImageProcessor.ImageProcessingOptions) :
  let size := match ImageProcessor.targetSize options with
              | Some n => n
              | None => 224%nat
              end in
  let norm := match ImageProcessor.normalize options with
              | Some b => b
              | None => true
              end in
  match ImageProcessor.processImage hasContext imageInput options with
  | Normal tensor =>
      hasContext = true /\
      (exists img, ImageProcessor.toImageElement imageInput = Normal img) /\
      ImageProcessor.shape tensor = [1; size; size; 3]%nat /\
      ImageProcessor.dividedBy255 tensor = norm
  | Throw e =>
      ImageProcessor.toImageElement imageInput = Throw e \/
      ((exists img, ImageProcessor.toImageElement imageInput = Normal img) /\
       hasContext = false /\
       e = ErrorObj "Canvas 컨텍스트를 생성할 수 없습니다.")
  | Pending => False
  end.
Proof.
  intros size norm. unfold ImageProcessor.processImage.
  fold size norm.
  destruct (ImageProcessor.toImageElement imageInput) as [img | e |] eqn:T.
  - destruct hasContext; simpl.
    + split; [reflexivity|]. split; [now exists img|].
      split; now destruct norm.
    + right. repeat split. now exists img.
  - simpl. now left.
  - exfalso.
    destruct imageInput as [i | [[i|]|] | type [i|] | type [i|] |];
      simpl in T; try discriminate;
      unfold ImageProcessor.validateImageFormat in T;
      destruct ((type =? EmptyString)
                || negb (includes ImageProcessor.SUPPORTED_FORMATS type));
      discriminate.
Qed.

(** ** The development server *)

Lemma string_app_nil_r (a : string) : a ++ EmptyString = a.
Proof. induction a as [|x a IH]; simpl; [reflexivity | now rewrite IH]. Qed.

Lemma string_app_inv_head (a b c : string) : a ++ b = a ++ c -> b = c.
Proof.
  induction a as [|x a IH]; simpl; [trivial|].
  intro H. injection H as H. now apply IH.
Qed.

Lemma prefix_app (a b : string) : String.prefix a (a ++ b) = true.
Proof.
  induction a as [|x a IH]; simpl; [now destruct b|].
  destruct (ascii_dec x x); [exact IH | congruence].
Qed.

Lemma prefix_app_cancel (a b c : string) :
  String.prefix (a ++ b) (a ++ c) = String.prefix b c.
Proof.
  induction a as [|x a IH]; simpl; [reflexivity|].
  destruct (ascii_dec x x); [exact IH | congruence].
Qed.

(** X26: [serveFile] answers 200 with the file's content when the read
    succeeds, 404 for the error code ENOENT and 500 for any other; the
    CORS header is sent with the 200 answer only. *)
Theorem serveFile_spec (filePath : string) (read : DevServer.ReadOutcome) :
  let response := DevServer.serveFile filePath read in
  (DevServer.status response = 200%nat <->
   exists content, read = DevServer.ReadOk content) /\
  (DevServer.status response = 404%nat <->
   read = DevServer.ReadError "ENOENT") /\
  (DevServer.status response = 500%nat <->
   exists code, read = DevServer.ReadError code /\ code <> "ENOENT") /\
  (In "Access-Control-Allow-Origin"
      (map fst (DevServer.headers response)) <->
   DevServer.status response = 200%nat) /\
  (forall content, read = DevServer.ReadOk content ->
                   DevServer.body response = content).
Proof.
  destruct read as [content | code]; simpl.
  - repeat split; try discriminate; try (intros; now eexists);
      try (intros [c [H _]]; discriminate); try tauto.
    intros c H. now injection H.
  - destruct (code =? "ENOENT") eqn:E; simpl.
    + apply String.eqb_eq in E. subst code.
      repeat split; try discriminate; try (intros [c H]; discriminate);
        try reflexivity.
      * intros [c [H N]]. injection H as <-. congruence.
      * intros [H | []]. discriminate.
    + apply String.eqb_neq in E.
      repeat split; try discriminate; try (intros [c H]; discriminate);
        try tauto.
      * intro H. injection H as ->. congruence.
      * intros _. now exists code.
Qed.

Lemma lastIndexOf_substring (c : ascii) (s : string) (d : nat) :
  DevServer.lastIndexOf c s = Some d ->
  exists r, String.substring d (String.length s - d) s = String c r.
Proof.
  revert d. induction s as [|a r IH]; intros d; simpl; [discriminate|].
  destruct (DevServer.lastIndexOf c r) as [i|] eqn:L.
  - intro H. injection H as <-. now apply IH.
  - destruct (Ascii.eqb a c) eqn:E; [|discriminate].
    intro H. injection H as <-. apply Ascii.eqb_eq in E. subst a.
    simpl. now eexists.
Qed.

Lemma extname_shape (path : string) :
  DevServer.extname path = EmptyString \/
  exists r, DevServer.extname path = String DevServer.dot r.
Proof.
  unfold DevServer.extname.
  destruct (DevServer.lastIndexOf DevServer.dot (DevServer.lastPortion path))
    as [[|d]|] eqn:L; [now left | | now left].
  destruct (DevServer.lastPortion path =? ".."); [now left|].
  right. now apply lastIndexOf_substring.
Qed.

Lemma mimeTypes_nonempty :
  forallb (fun kv => negb (snd kv =? EmptyString)) DevServer.mimeTypes
  = true.
Proof. reflexivity. Qed.

(** X27: the content type is always a non-empty string: the entry of
    [mimeTypes] for the lower-cased extension, or
    'application/octet-stream' when there is none; no inherited member is
    ever read. *)
Theorem contentType_spec (filePath : string) :
  exists type,
    DevServer.contentType filePath = Str type /\
    type <> EmptyString /\
    match own DevServer.mimeTypes
              (DevServer.toLowerCase (DevServer.extname filePath)) with
    | Some listed => type = listed
    | None => type = "application/octet-stream"
    end.
Proof.
  unfold DevServer.contentType, get.
  destruct (own DevServer.mimeTypes _) as [listed|] eqn:O.
  - exists listed. apply own_In in O.
    pose proof mimeTypes_nonempty as N. rewrite forallb_forall in N.
    specialize (N _ O). simpl in N. unfold or. simpl. rewrite N.
    repeat split. apply negb_true_iff in N. now apply String.eqb_neq.
  - exists "application/octet-stream".
    assert (I : includes objectPrototypeKeys
                         (DevServer.toLowerCase (DevServer.extname filePath))
                = false).
    { destruct (extname_shape filePath) as [-> | [r ->]]; reflexivity. }
    rewrite I. repeat split. discriminate.
Qed.

Lemma splitSlash_nonempty (s : string) : DevServer.splitSlash s <> [].
Proof.
  induction s as [|c r IH]; simpl; [discriminate|].
  destruct (Ascii.eqb c DevServer.slash); [discriminate|].
  destruct (DevServer.splitSlash r); [congruence | discriminate].
Qed.

Lemma splitSlash_plain_app (d w : string) :
  noSlash d = true ->
  DevServer.splitSlash (d ++ w)
  = (d ++ hd EmptyString (DevServer.splitSlash w))
      :: tl (DevServer.splitSlash w).
Proof.
  induction d as [|c d IH]; simpl; intro H.
  - pose proof (splitSlash_nonempty w).
    destruct (DevServer.splitSlash w); [congruence | reflexivity].
  - apply andb_true_iff in H. destruct H as [C H].
    apply negb_true_iff in C. rewrite C, (IH H). reflexivity.
Qed.

Lemma splitSlash_plain (d : string) :
  noSlash d = true -> DevServer.splitSlash d = [d].
Proof.
  intro H. rewrite <- (string_app_nil_r d) at 1.
  rewrite (splitSlash_plain_app d EmptyString H). simpl.
  now rewrite string_app_nil_r.
Qed.

Lemma splitSlash_slash (t : string) :
  DevServer.splitSlash (String DevServer.slash t)
  = EmptyString :: DevServer.splitSlash t.
Proof. reflexivity. Qed.

Lemma splitSlash_render (ds : list string) (t : string) :
  Forall (fun d => noSlash d = true) ds ->
  DevServer.splitSlash (renderPath ds ++ String DevServer.slash t)
  = EmptyString :: (ds ++ DevServer.splitSlash t)%list.
Proof.
  induction 1 as [|d ds Hd F IH]; [reflexivity|].
  cbn [renderPath]. rewrite !string_app_assoc.
  change ("/" ++ d ++ renderPath ds ++ String DevServer.slash t)
    with (String DevServer.slash
                 (d ++ renderPath ds ++ String DevServer.slash t)).
  rewrite splitSlash_slash, (splitSlash_plain_app d _ Hd), IH.
  simpl. now rewrite string_app_nil_r.
Qed.

Lemma plainSegment_noSlash (s : string) :
  plainSegment s = true -> noSlash s = true.
Proof.
  unfold plainSegment. intro H.
  apply andb_true_iff in H. now destruct H.
Qed.

Lemma normalizeStep_plain (b : bool) (stack : list string) (seg : string) :
  plainSegment seg = true ->
  DevServer.normalizeStep b stack seg = seg :: stack.
Proof.
  unfold plainSegment, DevServer.normalizeStep. intro H.
  repeat (apply andb_true_iff in H; destruct H as [H ?]).
  apply negb_true_iff in H, H1, H2. now rewrite H, H2, H1.
Qed.

Lemma normalize_fold_plain (b : bool) (ds : list string) :
  forall stack,
    Forall (fun d => plainSegment d = true) ds ->
    fold_left (DevServer.normalizeStep b) ds stack = (rev ds ++ stack)%list.
Proof.
  induction ds as [|d ds IH]; intros stack F; simpl; [reflexivity|].
  inversion F as [|? ? Hd Fds]; subst.
  rewrite (normalizeStep_plain _ _ _ Hd), (IH _ Fds).
  now rewrite <- app_assoc.
Qed.

Lemma renderPath_join (x : string) (l : list string) :
  "/" ++ join "/" (x :: l) = renderPath (x :: l).
Proof.
  revert x. induction l as [|y l IH]; intro x.
  - simpl. now rewrite string_app_nil_r.
  - change (join "/" (x :: y :: l)) with (x ++ "/" ++ join "/" (y :: l)).
    change (renderPath (x :: y :: l))
      with ("/" ++ x ++ renderPath (y :: l)).
    now rewrite <- IH.
Qed.

Lemma renderPath_app (a b : list string) :
  renderPath (a ++ b) = renderPath a ++ renderPath b.
Proof.
  induction a as [|x a IH]; [reflexivity|].
  simpl. now rewrite IH, !string_app_assoc.
Qed.

Lemma endsWithSlash_app (a f : string) :
  f <> EmptyString ->
  DevServer.endsWithSlash (a ++ f) = DevServer.endsWithSlash f.
Proof.
  intro N. induction a as [|c a IH]; [reflexivity|].
  simpl. destruct (a ++ f) eqn:E; [|exact IH].
  destruct a; [simpl in E; congruence | discriminate].
Qed.

Lemma endsWithSlash_plain (f : string) :
  noSlash f = true -> DevServer.endsWithSlash f = false.
Proof.
  induction f as [|c f IH]; [reflexivity|]. simpl. intro H.
  apply andb_true_iff in H. destruct H as [C H].
  destruct f; [now apply negb_true_iff | now apply IH].
Qed.

Lemma join_head_nonempty (sep x : string) (l : list string) :
  x <> EmptyString -> join sep (x :: l) <> EmptyString.
Proof.
  intro N. destruct l as [|y l]; [exact N|].
  change (join sep (x :: y :: l)) with (x ++ sep ++ join sep (y :: l)).
  destruct x; [congruence | discriminate].
Qed.

Lemma renderPath_cons_nonempty (d : string) (ds : list string) :
  renderPath (d :: ds) <> EmptyString /\
  DevServer.startsWithSlash (renderPath (d :: ds)) = true.
Proof. split; [discriminate | reflexivity]. Qed.

(** [path.join] of an absolute directory and a request path, by the
    segments of the request path. *)
Lemma pathJoin_absolute (dirSegments : list string) (pathname x : string)
      (kept : list string) :
  dirSegments <> [] ->
  Forall (fun d => plainSegment d = true) dirSegments ->
  pathname <> EmptyString ->
  DevServer.endsWithSlash pathname = false ->
  rev (fold_left (DevServer.normalizeStep false)
                 (DevServer.splitSlash pathname) (rev dirSegments))
  = x :: kept ->
  x <> EmptyString ->
  DevServer.pathJoin (renderPath dirSegments) pathname
  = renderPath (x :: kept).
Proof.
  intros NE F NP T K NX. unfold DevServer.pathJoin.
  destruct dirSegments as [|d ds]; [congruence|].
  destruct (renderPath_cons_nonempty d ds) as [RN RS].
  apply String.eqb_neq in RN. rewrite RN.
  apply String.eqb_neq in NP. rewrite NP.
  set (joined := renderPath (d :: ds) ++ "/" ++ pathname).
  assert (JN : (joined =? EmptyString) = false) by reflexivity.
  rewrite JN. unfold DevServer.normalize. rewrite JN.
  assert (JS : DevServer.startsWithSlash joined = true) by reflexivity.
  rewrite JS. cbn [negb].
  assert (JE : DevServer.endsWithSlash joined = false).
  { unfold joined. rewrite <- string_app_assoc.
    apply String.eqb_neq in NP. now rewrite endsWithSlash_app. }
  rewrite JE.
  assert (SP : DevServer.splitSlash joined
               = EmptyString :: ((d :: ds) ++ DevServer.splitSlash pathname)%list).
  { unfold joined.
    change ("/" ++ pathname) with (String DevServer.slash pathname).
    apply splitSlash_render.
    eapply Forall_impl; [|exact F]. apply plainSegment_noSlash. }
  rewrite SP. cbn [fold_left].
  change (DevServer.normalizeStep false [] EmptyString) with (@nil string).
  rewrite fold_left_app, (normalize_fold_plain false (d :: ds) [] F).
  rewrite app_nil_r, K.
  pose proof (join_head_nonempty "/" x kept NX) as J.
  apply String.eqb_neq in J. rewrite J.
  apply renderPath_join.
Qed.

Lemma splitSlash_segments (rest : list string) : forall s,
  Forall (fun d => noSlash d = true) (s :: rest) ->
  DevServer.splitSlash (s ++ renderPath rest) = s :: rest.
Proof.
  induction rest as [|r rest IH]; intros s F.
  - simpl. rewrite string_app_nil_r. apply splitSlash_plain.
    now inversion F.
  - inversion F as [|? ? Hs Fr]; subst.
    rewrite (splitSlash_plain_app s _ Hs).
    change (renderPath (r :: rest))
      with (String DevServer.slash (r ++ renderPath rest)).
    rewrite splitSlash_slash, (IH r Fr). simpl.
    now rewrite string_app_nil_r.
Qed.

Lemma endsWithSlash_render (segs : list string) (s : string) :
  Forall (fun d => plainSegment d = true) (segs ++ [s]) ->
  DevServer.endsWithSlash (renderPath (segs ++ [s])) = false.
Proof.
  intro F. rewrite renderPath_app. apply Forall_app in F.
  destruct F as [_ F]. inversion F as [|? ? Hs _]; subst.
  cbn [renderPath]. rewrite string_app_nil_r.
  assert (N : "/" ++ s <> EmptyString) by discriminate.
  rewrite (endsWithSlash_app _ _ N).
  change ("/" ++ s) with (String DevServer.slash s).
  unfold plainSegment in Hs.
  repeat (apply andb_true_iff in Hs; destruct Hs as [Hs ?]).
  apply negb_true_iff, String.eqb_neq in Hs.
  assert (E := endsWithSlash_app (String DevServer.slash EmptyString) s Hs).
  simpl in E |- *. destruct s; [congruence|].
  now apply endsWithSlash_plain.
Qed.

(** X28: for a directory and a request path of plain segments, the
    handler serves the file of that path under the directory, and the
    root path is served from test.html; neither is refused. *)
Theorem handle_plain_path (dirSegments segments : list string)
        (readFile : string -> DevServer.ReadOutcome) :
  dirSegments <> [] ->
  segments <> [] ->
  Forall (fun d => plainSegment d = true) dirSegments ->
  Forall (fun d => plainSegment d = true) segments ->
  let dirname := renderPath dirSegments in
  let pathname := renderPath segments in
  DevServer.handle dirname readFile pathname
  = DevServer.serveFile (dirname ++ pathname)
                        (readFile (dirname ++ pathname)) /\
  DevServer.handle dirname readFile "/"
  = DevServer.serveFile (dirname ++ "/test.html")
                        (readFile (dirname ++ "/test.html")).
Proof.
  intros ND NS FD FS dirname pathname.
  assert (G : forall segs,
             segs <> [] ->
             Forall (fun d => plainSegment d = true) segs ->
             DevServer.pathJoin dirname (renderPath segs)
             = dirname ++ renderPath segs).
  { intros segs N F.
    destruct (exists_last N) as [front [s ->]].
    destruct dirSegments as [|d ds]; [congruence|].
    unfold dirname. rewrite <- renderPath_app.
    change ((d :: ds) ++ front ++ [s])%list
      with (d :: (ds ++ front ++ [s]))%list.
    apply pathJoin_absolute; try assumption.
    - destruct front; discriminate.
    - now apply endsWithSlash_render.
    - destruct (front ++ [s])%list as [|s0 rest] eqn:E;
        [destruct front; discriminate|].
      change (renderPath (s0 :: rest))
        with (String DevServer.slash (s0 ++ renderPath rest)).
      rewrite splitSlash_slash, splitSlash_segments
        by (eapply Forall_impl; [|exact F]; apply plainSegment_noSlash).
      change (EmptyString :: s0 :: rest)
        with ([EmptyString] ++ s0 :: rest)%list.
      rewrite fold_left_app.
      change (fold_left (DevServer.normalizeStep false) [EmptyString]
                        (rev (d :: ds)))
        with (rev (d :: ds)).
      rewrite (normalize_fold_plain false (s0 :: rest) _ F).
      rewrite rev_app_distr, !rev_involutive. reflexivity.
    - inversion FD as [|? ? Hd _]; subst. unfold plainSegment in Hd.
      repeat (apply andb_true_iff in Hd; destruct Hd as [Hd ?]).
      now apply negb_true_iff, String.eqb_neq in Hd. }
  assert (NR : forall segs,
             segs <> [] ->
             Forall (fun d => plainSegment d = true) segs ->
             (renderPath segs =? "/") = false).
  { intros [|s rest] N F; [congruence|].
    inversion F as [|? ? Hs _]; subst. unfold plainSegment in Hs.
    repeat (apply andb_true_iff in Hs; destruct Hs as [Hs ?]).
    apply negb_true_iff, String.eqb_neq in Hs.
    destruct s; [congruence | reflexivity]. }
  unfold DevServer.handle. subst pathname. cbv zeta. split.
  - rewrite (NR _ NS FS), (G _ NS FS), prefix_app. reflexivity.
  - change ("/" =? "/") with true. cbv iota.
    change "/test.html" with (renderPath ["test.html"]).
    rewrite G; [now rewrite prefix_app | discriminate |].
    repeat constructor.
Qed.

(** [handle_plain_path] at a concrete input. *)
Lemma handle_plain_path_witness :
  DevServer.handle (renderPath ["srv"; "app"])
                   (fun _ => DevServer.ReadError "ENOENT")
                   (renderPath ["dist"; "index.js"])
  = DevServer.serveFile
      (renderPath ["srv"; "app"] ++ renderPath ["dist"; "index.js"])
      (DevServer.ReadError "ENOENT") /\
  DevServer.handle (renderPath ["srv"; "app"])
                   (fun _ => DevServer.ReadError "ENOENT") "/"
  = DevServer.serveFile (renderPath ["srv"; "app"] ++ "/test.html")
                        (DevServer.ReadError "ENOENT").
Proof.
  apply (handle_plain_path ["srv"; "app"] ["dist"; "index.js"]
                           (fun _ => DevServer.ReadError "ENOENT")).
  - discriminate.
  - discriminate.
  - repeat constructor.
  - repeat constructor.
Defined.

Lemma prefix_slash (c : ascii) (r : string) :
  Ascii.eqb c DevServer.slash = false ->
  String.prefix "/" (String c r) = false.
Proof.
  intro H. cbn [String.prefix].
  destruct (ascii_dec "/" c) as [<- | N]; [discriminate | reflexivity].
Qed.

(** X29: a request that steps out of the served directory into a sibling
    whose name extends the directory's name passes the prefix check: the
    handler serves the sibling's file, which is not under the
    directory. *)
Theorem handle_sibling_directory (parents : list string)
        (name suffix file : string)
        (readFile : string -> DevServer.ReadOutcome) :
  Forall (fun d => plainSegment d = true) parents ->
  plainSegment name = true ->
  plainSegment (name ++ suffix) = true ->
  plainSegment file = true ->
  suffix <> EmptyString ->
  let dirname := renderPath (parents ++ [name]) in
  let pathname := "/../" ++ name ++ suffix ++ "/" ++ file in
  let target := renderPath (parents ++ [name ++ suffix; file]) in
  DevServer.handle dirname readFile pathname
  = DevServer.serveFile target (readFile target) /\
  target <> dirname /\
  String.prefix (dirname ++ "/") target = false.
Proof.
  intros FP Hn Hx Hf NS dirname pathname target.
  assert (NoS : noSlash suffix = true).
  { apply plainSegment_noSlash in Hx. clear -Hx.
    induction name as [|c name IH]; simpl in Hx; [exact Hx|].
    apply andb_true_iff in Hx. now apply IH. }
  assert (T : target = dirname ++ suffix ++ "/" ++ file).
  { unfold target, dirname. rewrite !renderPath_app. cbn [renderPath].
    rewrite !string_app_nil_r, !string_app_assoc. reflexivity. }
  assert (J : DevServer.pathJoin dirname pathname = target).
  { unfold dirname, target.
    destruct (parents ++ [(name ++ suffix)%string; file])%list
      as [|x kept] eqn:E;
      [destruct parents; discriminate|].
    apply pathJoin_absolute.
    - destruct parents; discriminate.
    - apply Forall_app. split; [exact FP | now constructor].
    - discriminate.
    - unfold pathname.
      assert (NF : "/" ++ file <> EmptyString) by discriminate.
      replace ("/../" ++ name ++ suffix ++ "/" ++ file)
        with (("/../" ++ name ++ suffix) ++ "/" ++ file)
        by (now rewrite !string_app_assoc).
      rewrite (endsWithSlash_app _ _ NF).
      assert (Nf : file <> EmptyString).
      { intros ->. discriminate. }
      change ("/" ++ file) with ("/" ++ file)%string.
      rewrite (endsWithSlash_app "/" file Nf).
      apply endsWithSlash_plain. now apply plainSegment_noSlash.
    - unfold pathname.
      change ("/../" ++ name ++ suffix ++ "/" ++ file)
        with (String DevServer.slash
                (".." ++ String DevServer.slash
                           (name ++ suffix
                              ++ String DevServer.slash file))).
      rewrite <- (string_app_assoc name suffix).
      rewrite splitSlash_slash, (splitSlash_plain_app ".." _ eq_refl).
      rewrite splitSlash_slash,
        (splitSlash_plain_app (name ++ suffix) _
           (plainSegment_noSlash _ Hx)).
      rewrite splitSlash_slash,
        (splitSlash_plain file (plainSegment_noSlash _ Hf)).
      cbn [hd tl]. rewrite string_app_nil_r.
      cbn [fold_left]. rewrite rev_app_distr. cbn [rev app].
      change (DevServer.normalizeStep false (name :: rev parents)
                                      EmptyString)
        with (name :: rev parents).
      assert (P : DevServer.normalizeStep false (name :: rev parents) ".."
                  = rev parents).
      { unfold DevServer.normalizeStep. cbn [String.eqb Ascii.eqb Bool.eqb orb].
        unfold plainSegment in Hn.
        repeat (apply andb_true_iff in Hn; destruct Hn as [Hn ?]).
        apply negb_true_iff in H0. now rewrite H0. }
      change (".." ++ EmptyString) with "..". rewrite P.
      rewrite string_app_nil_r.
      rewrite (normalizeStep_plain _ _ _ Hx), (normalizeStep_plain _ _ _ Hf).
      cbn [rev]. rewrite rev_involutive, <- !app_assoc. exact E.
    - destruct parents as [|p ps]; simpl in E; injection E as <- _.
      + unfold plainSegment in Hx.
        repeat (apply andb_true_iff in Hx; destruct Hx as [Hx ?]).
        now apply negb_true_iff, String.eqb_neq in Hx.
      + inversion FP as [|? ? Hp _]; subst. unfold plainSegment in Hp.
        repeat (apply andb_true_iff in Hp; destruct Hp as [Hp ?]).
        now apply negb_true_iff, String.eqb_neq in Hp. }
  split; [|split].
  - unfold DevServer.handle. fold dirname.
    assert (NP : (pathname =? "/") = false) by reflexivity.
    rewrite NP. cbv zeta. rewrite J, T, prefix_app. reflexivity.
  - rewrite T. rewrite <- (string_app_nil_r dirname) at 2.
    intro H. apply string_app_inv_head in H.
    destruct suffix; [congruence | discriminate].
  - rewrite T, prefix_app_cancel.
    destruct suffix as [|c suffix]; [congruence|].
    simpl in NoS. apply andb_true_iff in NoS. destruct NoS as [C _].
    apply negb_true_iff in C. now apply prefix_slash.
Qed.

(** [handle_sibling_directory] at a concrete input. *)
Lemma handle_sibling_directory_witness :
  DevServer.handle "/srv/app" (fun _ => DevServer.ReadOk "secret")
                   "/../app-private/key.txt"
  = DevServer.serveFile "/srv/app-private/key.txt"
                        (DevServer.ReadOk "secret") /\
  "/srv/app-private/key.txt" <> "/srv/app" /\
  String.prefix "/srv/app/" "/srv/app-private/key.txt" = false.
Proof.
  apply (handle_sibling_directory ["srv"] "app" "-private" "key.txt"
                                  (fun _ => DevServer.ReadOk "secret")).
  - repeat constructor.
  - reflexivity.
  - reflexivity.
  - reflexivity.
  - discriminate.
Defined.

Lemma importUrl_uniform (dep : string) :
  BuildBrowser.importUrl dep = "https://cdn.skypack.dev/" ++ dep.
Proof.
  unfold BuildBrowser.importUrl.
  destruct (dep =? "@tensorflow/tfjs") eqn:E; [|reflexivity].
  apply String.eqb_eq in E. now subst.
Qed.

Lemma importMap_fold (dependencies : list string) (dep : string) :
  forall imports,
    mapGet (fold_left (fun acc d =>
                         BuildBrowser.assign acc d (BuildBrowser.importUrl d))
                      dependencies imports) dep =
    if includes dependencies dep && negb (dep =? "__proto__")
    then Some ("https://cdn.skypack.dev/" ++ dep)
    else mapGet imports dep.
Proof.
  induction dependencies as [|d ds IH]; intro imports; [reflexivity|].
  cbn [fold_left]. rewrite IH. unfold includes. cbn [existsb].
  fold (includes ds dep).
  destruct (includes ds dep && negb (dep =? "__proto__")) eqn:A.
  - apply andb_true_iff in A. destruct A as [A B]. rewrite A, B.
    now rewrite orb_true_r.
  - unfold BuildBrowser.assign.
    destruct (dep =? d) eqn:E.
    + apply String.eqb_eq in E. subst d. cbn [orb andb].
      destruct (dep =? "__proto__"); [reflexivity|]. cbn [negb].
      now rewrite mapGet_mapSet, String.eqb_refl, importUrl_uniform.
    + cbn [orb]. rewrite A.
      destruct (d =? "__proto__"); [reflexivity|].
      now rewrite mapGet_mapSet, E.
Qed.

(** X30: the import map of the build script holds, for every dependency
    name except [__proto__], the Skypack URL of that name, the
    TensorFlow.js one included, and nothing else. *)
Theorem importMap_lookup (dependencies : list string) (dep : string) :
  mapGet (BuildBrowser.importMap dependencies) dep =
  if includes dependencies dep && negb (dep =? "__proto__")
  then Some ("https://cdn.skypack.dev/" ++ dep)
  else None.
Proof. apply importMap_fold. Qed.
